(** * The [dvc exp init] wizard: a shallow embedding of
      [dvc/repo/experiments/init.py] and the properties of its
      prompt / validation / commit flow.

    Conventions of the model.
    - Python [str] is a Rocq [string], a character being a code point
      below 256: [str.strip] removes the white space of [str.isspace] there,
      and [str.lower] and [str.upper] act on the ASCII letters, which is all
      the program compares their results with.
    - [Optional[str]] is [option string]; a dictionary [Dict[str, str]] is a
      [gmap string string].  Nothing in the module depends on the insertion
      order of a dictionary (the only iteration over one is followed by
      [sorted]).
    - Dictionaries that the caller owns live in a store ([heap]) and are
      passed by reference ([loc]), because [init] and [init_interactive]
      update them in place.
    - Console traffic is recorded as a list of [event]s, each tagged with
      the stream it goes to; operator input is the list of lines still to
      be read from standard input, and reading past its end is [EOFError]. *)

From Stdlib Require Import Ascii String.
From stdpp Require Import gmap strings list fin_maps sorting.

(** ** Strings *)

Definition py_isspace (a : ascii) : bool :=
  let n := nat_of_ascii a in
  ((9 <=? n) && (n <=? 13)) || ((28 <=? n) && (n <=? 32))
  || (n =? 133) || (n =? 160).

Fixpoint lstrip (s : string) : string :=
  match s with
  | EmptyString => EmptyString
  | String a s' => if py_isspace a then lstrip s' else s
  end.

Fixpoint rstrip (s : string) : string :=
  match s with
  | EmptyString => EmptyString
  | String a s' =>
      match rstrip s' with
      | EmptyString => if py_isspace a then EmptyString else String a EmptyString
      | r => String a r
      end
  end.

(** [str.strip()] *)
Definition strip (s : string) : string := rstrip (lstrip s).

Definition lower_ascii (a : ascii) : ascii :=
  let n := nat_of_ascii a in
  if (65 <=? n) && (n <=? 90) then ascii_of_nat (n + 32) else a.

(** [str.lower()] *)
Fixpoint lower (s : string) : string :=
  match s with
  | EmptyString => EmptyString
  | String a s' => String (lower_ascii a) (lower s')
  end.

(** Python truth value of a [str] and of an [Optional[str]]. *)
Definition truthy (s : string) : bool := negb (String.eqb s "").

Definition opt_truthy (o : option string) : bool :=
  match o with
  | Some s => truthy s
  | None => false
  end.

(** ** Exceptions, console events and the effect monad *)

(** The exceptions of the program.  [FileNotFoundError],
    [IsADirectoryError] and [NotADirectoryError] are what opening a path
    raises, [LoaderError] stands for whatever a params-file loader raises on
    a file it has opened and cannot load, and [StageError] for whatever the
    stage assembler raises on a stage it refuses.  The last two belong to
    the model only: [DanglingReference] is the use of a reference that names
    no dictionary of the store, [OutOfFuel] the exhaustion of the bound of a
    loop, which [init] never meets (see [init_raises]). *)
Inductive exn : Type :=
  | EOFError
  | InvalidResponse (msg : string)
  | RetryPrompt (msg : string)
  | KeyError (key : string)
  | AssertionError
  | FileNotFoundError (path : string)
  | IsADirectoryError (path : string)
  | NotADirectoryError (path : string)
  | LoaderError (path : string)
  | DuplicateStageName (msg : string)
  | StageError (msg : string)
  | DvcException (msg : string)
  | DanglingReference
  | OutOfFuel.

Inductive result (A : Type) : Type :=
  | Ok (a : A)
  | Raise (e : exn).
Arguments Ok {A} a.
Arguments Raise {A} e.

Inductive stream : Type := Stdout | Stderr.

(** A stage as [repo.stage.create] receives it. *)
Record Stage : Type := mkStage {
  stage_name : string;
  stage_cmd : string;
  stage_deps : list string;
  stage_params : list (string * list string);
  stage_metrics_no_cache : list string;
  stage_plots_no_cache : list string;
  stage_live : option string;
  stage_outs : list string;
  stage_checkpoints : list string
}.

(** What is printed: text, the tree of the workspace, a horizontal rule,
    and the serialized form of a stage ([dumps_yaml(to_pipeline_file(stage))],
    whose format is not this module's). *)
Inductive renderable : Type :=
  | Text (s : string)
  | Tree (title : string) (children : list string)
  | Rule
  | Syntax (stage : Stage).

(** The three prompt classes of the module. *)
Inductive prompt_class : Type := Required | Skippable | Confirmation.

(** [Wrote s objs]: the objects are printed on [s] (one call of [ui.write],
    [ui.error_write] or [console.print]).  [Asked s c label reply]: a prompt
    of class [c] for [label] is rendered on [s] and the line [reply] is read.
    [AskedEOF]: the prompt is rendered and the input has ended. *)
Inductive event : Type :=
  | Wrote (s : stream) (objs : list renderable)
  | Asked (s : stream) (c : prompt_class) (label : string) (reply : string)
  | AskedEOF (s : stream) (c : prompt_class) (label : string).

(** A computation over a state [S] that may raise and that logs events. *)
Definition M (S A : Type) : Type := S → result A * list event * S.

Definition ret {S A} (a : A) : M S A := λ s, (Ok a, [], s).

Definition raise {S A} (e : exn) : M S A := λ s, (Raise e, [], s).

Definition bind {S A B} (m : M S A) (k : A → M S B) : M S B :=
  λ s,
    match m s with
    | (Ok a, e1, s1) =>
        match k a s1 with
        | (r, e2, s2) => (r, e1 ++ e2, s2)
        end
    | (Raise e, e1, s1) => (Raise e, e1, s1)
    end.

Definition emit {S} (e : event) : M S unit := λ s, (Ok tt, [e], s).

Definition emits {S} (es : list event) : M S unit := λ s, (Ok tt, es, s).

Definition get {S} : M S S := λ s, (Ok s, [], s).

Definition modify {S} (f : S → S) : M S unit := λ s, (Ok tt, [], f s).

(** [try: body finally: cleanup] *)
Definition try_finally {S A} (body : M S A) (cleanup : M S unit) : M S A :=
  λ s,
    match body s with
    | (r, e1, s1) =>
        match cleanup s1 with
        | (Ok _, e2, s2) => (r, e1 ++ e2, s2)
        | (Raise e, e2, s2) => (Raise e, e1 ++ e2, s2)
        end
    end.

Declare Scope m_scope.
Delimit Scope m_scope with m.
Notation "'let*' x ':=' m 'in' k" := (bind m (λ x, k))
  (at level 10, x name, m at level 100, k at level 200) : m_scope.
Notation "'run' m 'in' k" := (bind m (λ _, k))
  (at level 10, m at level 100, k at level 200) : m_scope.
Open Scope m_scope.

(** Modelled from the spec: [dvc.ui] is not part of this module.  The
    diagnostic stream is standard error: [ui.error_write] prints on it and
    [ui.error_console] is its console; [ui.write] is the writer of standard
    output. *)
Definition ui_write {S} (objs : list renderable) : M S unit :=
  emit (Wrote Stdout objs).

Definition ui_error_write {S} (objs : list renderable) : M S unit :=
  emit (Wrote Stderr objs).

Definition error_console : stream := Stderr.

(** ** Loops that read the operator's input

    Both [while True] loops of the program read (at least) one line of
    input in every iteration, so the number of lines left bounds the number
    of iterations; [while_true] runs the body with that bound. *)

Definition Console (A : Type) : Type := M (list string) A.

Inductive step (A : Type) : Type :=
  | Return (a : A)
  | Continue.
Arguments Return {A} a.
Arguments Continue {A}.

Fixpoint while_fuel {A} (fuel : nat) (body : Console (step A)) : Console A :=
  match fuel with
  | O => raise OutOfFuel
  | S fuel' =>
      let* r := body in
      match r with
      | Return a => ret a
      | Continue => while_fuel fuel' body
      end
  end.

Definition while_true {A} (body : Console (step A)) : Console A :=
  λ lines, while_fuel (S (length lines)) body lines.

(** ** The prompt classes

    [Prompt] and [Confirm] come from the [rich] library; the module
    subclasses them.  [PromptBase_call] is the loop behind
    [PromptBase.ask]: render the prompt, read a line, return the default on
    an empty line when a default was given, otherwise hand the line to
    [process_response] and start again when that raises [InvalidResponse],
    after printing the message on the prompt's console. *)

(** [console.input]: render the prompt and read one line. *)
Definition console_input (c : prompt_class) (console : stream)
    (label : string) : Console string :=
  λ lines,
    match lines with
    | [] => (Raise EOFError, [AskedEOF console c label], [])
    | line :: rest => (Ok line, [Asked console c label line], rest)
    end.

(** [RichInputMixin.get_input]: a blank line on standard error before the
    end-of-input error is passed on.  The operator's input is a sequence of
    lines that ends; an interrupt, which the same handler treats as it
    treats the end of the input, is a signal and not part of that
    sequence, and no run of the model has one. *)
Definition get_input (c : prompt_class) (console : stream)
    (label : string) : Console string :=
  λ lines,
    match console_input c console label lines with
    | (Raise EOFError, evs, lines') =>
        (Raise EOFError, evs ++ [Wrote Stderr []], lines')
    | other => other
    end.

(** One round of the loop of [PromptBase.__call__]. *)
Definition PromptBase_round {A} (c : prompt_class)
    (process_response : string → result A)
    (console : stream) (label : string) (default : option A)
    : Console (step A) :=
  let* value := get_input c console label in
  match value, default with
  | EmptyString, Some d => ret (Return d)
  | _, _ =>
      match process_response value with
      | Ok return_value => ret (Return return_value)
      | Raise (InvalidResponse msg) =>
          run emit (Wrote console [Text msg]) in ret Continue
      | Raise e => raise e
      end
  end.

Definition PromptBase_call {A} (c : prompt_class)
    (process_response : string → result A)
    (console : stream) (label : string) (default : option A) : Console A :=
  while_true (PromptBase_round c process_response console label default).

(** [Prompt.process_response] for the response type [str], no choices. *)
Definition Prompt_process_response (value : string) : result string :=
  Ok (strip value).

Definition RequiredPrompt_process_response (value : string) : result string :=
  match Prompt_process_response value with
  | Ok ret =>
      if truthy ret then Ok ret
      else Raise (InvalidResponse
                    "[prompt.invalid]Response required. Please try again.")
  | Raise e => Raise e
  end.

Definition skip_value : string := "n".

Definition SkippablePrompt_process_response (value : string)
    : result (option string) :=
  match RequiredPrompt_process_response value with
  | Ok ret => Ok (if String.eqb ret skip_value then None else Some ret)
  | Raise e => Raise e
  end.

(** [Confirm.process_response], choices [["y"; "n"]]. *)
Definition Confirm_process_response (value : string) : result bool :=
  let value := lower (strip value) in
  if String.eqb value "y" then Ok true
  else if String.eqb value "n" then Ok false
  else Raise (InvalidResponse "[prompt.invalid]Please enter Y or N").

(** [prompt_cls.ask(label, console=..., default=...)] for the two classes
    [_prompt] chooses between; a [RequiredPrompt] yields a [str], which is
    an [Optional[str]] that is not [None]. *)
Definition ask (c : prompt_class) (label : string) (console : stream)
    (default : option string) : Console (option string) :=
  match c with
  | Skippable =>
      PromptBase_call c SkippablePrompt_process_response
        console label (Some <$> default)
  | _ =>
      PromptBase_call c
        (λ value, match RequiredPrompt_process_response value with
                  | Ok ret => Ok (Some ret)
                  | Raise e => Raise e
                  end)
        console label (Some <$> default)
  end.

Definition ConfirmationPrompt_ask (label : string) (console : stream)
    (default : bool) : Console bool :=
  PromptBase_call Confirmation Confirm_process_response
    console label (Some default).

(** ** The text of the prompts

    [make_prompt] builds the text a prompt is rendered with.  A [rich]
    text is taken as the list of its pieces, each with the style it was
    appended with, and the string printed after it; [Text.append] adds a
    piece unless it is empty. *)

Record RichText : Type := mkRichText {
  pieces : list (string * option string);
  text_end : string
}.

Definition NEWLINE : string := String "010"%char EmptyString.

(** [Text(text, style)] *)
Definition rich_text (text : string) (style : option string) : RichText :=
  mkRichText (if truthy text then [(text, style)] else []) NEWLINE.

(** [text.append(s, style)] for a [str] and for a [Text]. *)
Definition text_append (t : RichText) (s : string) (style : option string)
    : RichText :=
  if truthy s then mkRichText (pieces t ++ [(s, style)]) (text_end t) else t.

Definition text_append_text (t other : RichText) : RichText :=
  mkRichText (pieces t ++ pieces other) (text_end t).

Definition set_end (t : RichText) (e : string) : RichText :=
  mkRichText (pieces t) e.

Definition upper_ascii (a : ascii) : ascii :=
  let n := nat_of_ascii a in
  if (97 <=? n) && (n <=? 122) then ascii_of_nat (n - 32) else a.

(** [str.upper()] *)
Fixpoint upper (s : string) : string :=
  match s with
  | EmptyString => EmptyString
  | String a s' => String (upper_ascii a) (upper s')
  end.

(** [ConfirmationPrompt.make_prompt]; [prompt] is [self.prompt], [choices]
    the two choices of [self.choices], and [default] is [None] when the
    prompt has no default. *)
Definition ConfirmationPrompt_make_prompt (prompt : RichText)
    (choices : string * string) (default : option bool) : RichText :=
  let prompt := set_end prompt "" in
  let prompt := text_append prompt " [" None in
  let '(yes, no) := choices in
  let prompt :=
    foldl (λ prompt '(idx, (val, choice)),
             let prompt :=
               if negb (idx =? 0) then text_append prompt "/" None
               else prompt in
             if bool_decide (default = Some val)
             then text_append prompt (upper choice) (Some "green")
             else text_append prompt choice None)
          prompt (imap pair [(true, yes); (false, no)]) in
  text_append prompt "] " None.

(** [RequiredPrompt.render_default] *)
Definition render_default (default : string) : RichText :=
  rich_text default (Some "green").

(** [SkippablePrompt.make_prompt]; [show_default] and [prompt_suffix] are
    the attributes of the prompt, and [default] is [None] when the prompt
    has no default (a default is a [str] here). *)
Definition SkippablePrompt_make_prompt (prompt : RichText)
    (show_default : bool) (prompt_suffix : string) (default : option string)
    : RichText :=
  let prompt := set_end prompt "" in
  let prompt := text_append prompt " [" None in
  let prompt :=
    match default with
    | Some d =>
        if show_default then
          let _default := render_default d in
          let prompt := text_append_text prompt _default in
          text_append prompt ", " None
        else prompt
    | None => prompt
    end in
  let prompt :=
    text_append prompt (skip_value +:+ " to omit") (Some "italic") in
  let prompt := text_append prompt "]" None in
  text_append prompt prompt_suffix None.

(** ** [_prompt] and [_prompts] *)

Definition PROMPTS : gmap string string :=
  list_to_map
    [ ("cmd", "[b]Command[/b] to execute");
      ("code", "Path to a [b]code[/b] file/directory");
      ("data", "Path to a [b]data[/b] file/directory");
      ("models", "Path to a [b]model[/b] file/directory");
      ("params", "Path to a [b]parameters[/b] file");
      ("metrics", "Path to a [b]metrics[/b] file");
      ("plots", "Path to a [b]plots[/b] file/directory");
      ("live", "Path to log [b]dvclive[/b] outputs") ].

(** [d[key]] *)
Definition getitem {S V} (d : gmap string V) (key : string) : M S V :=
  match d !! key with
  | Some v => ret v
  | None => raise (KeyError key)
  end.

(** A validator is called with a key and a value; it may print, and it
    either returns or raises.  A print is a stream and the objects printed. *)
Definition Validator : Type :=
  string → option string → list (stream * list renderable) * result unit.

Definition prints {S} (ps : list (stream * list renderable)) : M S unit :=
  emits (map (λ p, Wrote p.1 p.2) ps).

Definition prompt_cls (key : string) : prompt_class :=
  if String.eqb key "cmd" then Required else Skippable.

(** One round of the loop of [_prompt]. *)
Definition _prompt_round (key : string) (validator : option Validator)
    (default : option string) : Console (step (option string)) :=
  let* label := getitem PROMPTS key in
  let* value := ask (prompt_cls key) label error_console default in
  match validator with
  | Some validate =>
      let '(printed, r) := validate key value in
      run prints printed in
      match r with
      | Ok _ => ret (Return value)
      | Raise (RetryPrompt exc) =>
          run ui_error_write [Text ("[red]" +:+ exc +:+ "[/]")] in
          ret Continue
      | Raise e => raise e
      end
  | None => ret (Return value)
  end.

Definition _prompt (key : string) (validator : option Validator)
    (default : option string) : Console (option string) :=
  while_true (_prompt_round key validator default).

(** The dictionary comprehension of [_prompts], key by key. *)
Fixpoint _prompts_from (acc : gmap string (option string)) (keys : list string)
    (defaults : gmap string string) (validator : option Validator)
    : Console (gmap string (option string)) :=
  match keys with
  | [] => ret acc
  | key :: keys' =>
      let* value := _prompt key validator (defaults !! key) in
      _prompts_from (<[key := value]> acc) keys' defaults validator
  end.

Definition _prompts (keys : list string) (defaults : gmap string string)
    (validator : option Validator) : Console (gmap string (option string)) :=
  _prompts_from ∅ keys defaults validator.

(** ** The store, the repository and the stage *)

Definition loc : Type := nat.

(** Modelled from the spec: the params-file loaders
    ([dvc.utils.serialize.LOADERS]) are not part of this module.  A path of
    the workspace names nothing in a directory that exists ([Missing]), a
    directory, a file, or nothing because it runs through a file that is
    not a directory ([BelowFile], as [params.yaml/lr] beside a file
    [params.yaml]); a file carries the list of top-level keys its loader
    yields, or [None] when the loader rejects its contents. *)
Inductive path_kind : Type :=
  | Missing
  | Directory
  | File (keys : option (list string))
  | BelowFile.

(** The repository as far as [init] sees it: the workspace, the contents of
    [dvc.yaml] ([None] when the file does not exist), the ignore list, the
    files touched or registered during a change-tracking scope, the files
    staged, the process-wide [logging.disable] level, and the stages that
    the stage assembler refuses, each with the message of its error. *)
Record Repo : Type := mkRepo {
  fs : string → path_kind;
  pipeline : option (gmap string Stage);
  ignored : list string;
  files_to_track : list string;
  staged : list string;
  logging_disable : nat;
  refuses : Stage → option string
}.

Record State : Type := mkState {
  stdin : list string;
  heap : list (gmap string string);
  repo : Repo
}.

Definition with_stdin (lines : list string) (st : State) : State :=
  mkState lines (heap st) (repo st).

Definition with_heap (h : list (gmap string string)) (st : State) : State :=
  mkState (stdin st) h (repo st).

Definition with_repo (r : Repo) (st : State) : State :=
  mkState (stdin st) (heap st) r.

(** A console computation run on the standard input of the state. *)
Definition console {A} (m : Console A) : M State A :=
  λ st,
    match m (stdin st) with
    | (r, evs, lines) => (r, evs, with_stdin lines st)
    end.

Definition deref (l : loc) : M State (gmap string string) :=
  λ st,
    match heap st !! l with
    | Some d => (Ok d, [], st)
    | None => (Raise DanglingReference, [], st)
    end.

Definition assign (l : loc) (d : gmap string string) : M State unit :=
  modify (λ st, with_heap (<[l := d]> (heap st)) st).

(** A new dictionary object. *)
Definition alloc (d : gmap string string) : M State loc :=
  λ st, (Ok (length (heap st)), [], with_heap (heap st ++ [d]) st).

(** [d.pop(key, None)] *)
Definition dict_pop (l : loc) (key : string) : M State (option string) :=
  let* d := deref l in
  run assign l (delete key d) in
  ret (d !! key).

(** [key in d] *)
Definition contains {V} (d : gmap string V) (key : string) : bool :=
  bool_decide (is_Some (d !! key)).

(** Python truth value of a dictionary and of a list. *)
Definition dict_truthy (d : gmap string string) : bool :=
  negb (bool_decide (d = ∅)).

Definition list_truthy {A} (l : list A) : bool :=
  match l with
  | [] => false
  | _ => true
  end.

(** [funcy.lremove(pred, seq)]: the elements of [seq] that fail [pred]. *)
Definition lremove (pred : string → bool) (seq : list string) : list string :=
  List.filter (λ x, negb (pred x)) seq.

Definition keep_truthy (v : option string) : option string :=
  match v with
  | Some s => if truthy s then Some s else None
  | None => None
  end.

(** [funcy.compact] on a dictionary and on a list: falsy values go. *)
Definition compact (d : gmap string (option string)) : gmap string string :=
  omap keep_truthy d.

Definition compact_list (l : list (option string)) : list string :=
  omap keep_truthy l.

(** [sorted(d.values())] *)
Definition sorted_values (d : gmap string string) : list string :=
  merge_sort (λ a b : string, String.leb a b) (map_to_list d).*2.

(** ** [init_interactive] *)

Definition PIPELINE_FILE_LINK : string :=
  "https://dvc.org/doc/user-guide/project-structure/pipelines-files".

Definition primary_keys : list string := ["code"; "data"; "models"; "params"].

Definition secondary_keys (live : bool) : list string :=
  if live then ["live"] else ["metrics"; "plots"].

(** The workspace shown in the tree: defaults overridden by what was
    provided, without the keys of the other output mode unless provided. *)
Definition preview_workspace (live : bool) (defaults provided : gmap string string)
    : gmap string string :=
  let workspace := provided ∪ defaults in
  let workspace :=
    if negb live && negb (contains provided "live")
    then delete "live" workspace else workspace in
  foldl (λ w key, if live && negb (contains provided key)
                  then delete key w else w)
        workspace ["plots"; "metrics"].

(** Lines 201-205: the command, asked for unless it was provided. *)
Definition ask_command (command : option string)
    (defaults : gmap string string) : Console (gmap string (option string)) :=
  if negb (opt_truthy command)
  then
    let* answers := _prompts ["cmd"] defaults None in
    run ui_write [] in
    ret (answers ∪ ∅)
  else ret (<["cmd" := command]> ∅).

(** Lines 207-225: the heading, the tree of the workspace, a blank line. *)
Definition show_workspace (defaults provided : gmap string string)
    (show_tree live : bool) : Console unit :=
  run ui_write
    [Text "Enter the paths for dependencies and outputs of the command."] in
  let workspace := provided ∪ defaults in
  run (if show_tree && dict_truthy workspace
       then
         let shown := preview_workspace live defaults provided in
         ui_error_write
           [Tree "DVC assumes the following workspace structure:"
              (map (λ value, "[green]" +:+ value +:+ "[/green]")
                   (sorted_values shown))]
       else ret tt) in
  ui_error_write [].

Definition banner (name : string) : list renderable :=
  let message :=
    "This command will guide you to set up a " +:+ name +:+
    " stage in dvc.yaml." in
  let doc_link := "See " +:+ PIPELINE_FILE_LINK +:+ "." in
  [Text message; Text doc_link; Text ""].

(** [init_interactive] from its second statement on.  No dictionary of the
    store is updated after the [pop] of the first statement, so the session
    is given what [provided] and [defaults] hold right after it. *)
Definition session (name : string) (command : option string)
    (defaults provided : gmap string string)
    (validator : option Validator) (show_tree live : bool)
    : Console (gmap string string) :=
  let primary := lremove (contains provided) primary_keys in
  let secondary := lremove (contains provided) (secondary_keys live) in
  if negb (opt_truthy command || list_truthy primary || list_truthy secondary)
  then ret ∅
  else
    run ui_error_write (banner name) in
    let* ret0 := ask_command command defaults in
    run show_workspace defaults provided show_tree live in
    let* answers1 := _prompts primary defaults validator in
    let ret1 := answers1 ∪ ret0 in
    let* answers2 := _prompts secondary defaults validator in
    let ret2 := answers2 ∪ ret1 in
    ret (compact ret2).

Definition init_interactive (name : string) (defaults provided : loc)
    (validator : option Validator) (show_tree live : bool)
    : M State (gmap string string) :=
  let* command := dict_pop provided "cmd" in
  let* provided_d := deref provided in
  let* defaults_d := deref defaults in
  console (session name command defaults_d provided_d validator show_tree live).

(** ** [init] *)

(** [dvcfile] is [None] when [dvc.yaml] does not exist, otherwise its
    stages by name. *)
Definition _check_stage_exists {S} (dvcfile : option (gmap string Stage))
    (name : string) (force : bool) : M S unit :=
  if negb force && bool_decide (is_Some dvcfile)
     && contains (default ∅ dvcfile) name
  then
    let hint := "Use '--force' to overwrite." in
    raise (DuplicateStageName
             ("Stage '" +:+ name +:+ "' already exists in 'dvc.yaml'. " +:+ hint))
  else ret tt.

(** [loadd_params(path)]: the pair of the path and the keys its loader
    yields; opening a path that names nothing, a directory or a path that
    runs through a file raises the error of the operating system. *)
Definition loadd_params (fs : string → path_kind) (path : string)
    : result (string * list string) :=
  match fs path with
  | Missing => Raise (FileNotFoundError path)
  | Directory => Raise (IsADirectoryError path)
  | BelowFile => Raise (NotADirectoryError path)
  | File None => Raise (LoaderError path)
  | File (Some keys) => Ok (path, keys)
  end.

(** [os.path.exists] *)
Definition path_exists (fs : string → path_kind) (path : string) : bool :=
  match fs path with
  | Missing | BelowFile => false
  | Directory | File _ => true
  end.

Definition dquote : string := String "034"%char EmptyString.

(** The closure [validate_prompts_input] of [init]. *)
Definition validate_prompts_input (fs : string → path_kind) : Validator :=
  λ key value,
    match value with
    | None => ([], Ok tt)
    | Some value =>
        if String.eqb key "params" then
          match loadd_params fs value with
          | Ok _ => ([], Ok tt)
          | Raise (FileNotFoundError _) =>
              ([], Raise (RetryPrompt
                     ("'" +:+ value +:+ "' " +:+ "does not exist" +:+ ". " +:+
                      "Please retry with an existing parameters file.")))
          | Raise (IsADirectoryError _) =>
              ([], Raise (RetryPrompt
                     ("'" +:+ value +:+ "' " +:+ "is a directory" +:+ ". " +:+
                      "Please retry with an existing parameters file.")))
          | Raise e => ([], Raise e)
          end
        else if String.eqb key "code" || String.eqb key "data" then
          if negb (path_exists fs value) then
            ([(Stderr,
               [Text ("[yellow]'" +:+ value +:+
                      "' does not exist in the workspace. " +:+
                      dquote +:+ "exp run" +:+ dquote +:+ " may fail.[/]")])],
             Ok tt)
          else ([], Ok tt)
        else ([], Ok tt)
    end.

(** [defaults or {}]: the caller's dictionary unless it is absent or empty. *)
Definition or_empty (d : option loc) : M State loc :=
  match d with
  | None => alloc ∅
  | Some l =>
      let* d := deref l in
      if dict_truthy d then ret l else alloc ∅
  end.

(** [name or type] *)
Definition name_or_type (name : option string) (type : string) : string :=
  match name with
  | Some n => if truthy n then n else type
  | None => type
  end.

(** Modelled from the spec: [repo.stage.create] is not part of this module.
    It builds the stage from its arguments without writing anything.  It
    fails with a duplicate-name error under the precondition of
    [_check_stage_exists], and with an error of its own on a stage it
    refuses for another reason; which stages those are is the assembler's
    business and a part of the repository here ([refuses]). *)
Definition stage_create (name cmd : string) (deps : list string)
    (params : list (string * list string))
    (metrics_no_cache plots_no_cache : list string) (live : option string)
    (force : bool) (outs checkpoints : list string) : M State Stage :=
  let* st := get in
  run _check_stage_exists (pipeline (repo st)) name force in
  let stage := mkStage name cmd deps params metrics_no_cache plots_no_cache
                 live outs checkpoints in
  match refuses (repo st) stage with
  | Some msg => raise (StageError msg)
  | None => ret stage
  end.

Definition update_repo (f : Repo → Repo) : M State unit :=
  modify (λ st, with_repo (f (repo st)) st).

Definition logging_disable_set (level : nat) : M State unit :=
  update_repo (λ r, mkRepo (fs r) (pipeline r) (ignored r) (files_to_track r)
                      (staged r) level (refuses r)).

Definition CRITICAL : nat := 50.

(** The context manager [_disable_logging] around a body. *)
Definition _disable_logging {A} (highest_level : nat) (body : M State A)
    : M State A :=
  let* st := get in
  let previous_level := logging_disable (repo st) in
  run logging_disable_set highest_level in
  try_finally body (logging_disable_set previous_level).

(** Modelled from the spec: the version-control collaborator is not part of
    this module.  [scm.track_file] registers a file, and a step that writes
    a file touches it ([touch]); the scope
    [scm.track_file_changes(autostage=True)] stages, when it is left, the
    files touched or registered and is released, however its body ends. *)
Definition touch (path : string) : M State unit :=
  update_repo (λ r, mkRepo (fs r) (pipeline r) (ignored r)
                      (files_to_track r ++ [path]) (staged r)
                      (logging_disable r) (refuses r)).

Definition scm_track_file (path : string) : M State unit := touch path.

Definition scm_track_file_changes {A} (body : M State A) : M State A :=
  try_finally body
    (update_repo (λ r, mkRepo (fs r) (pipeline r) (ignored r) []
                         (staged r ++ files_to_track r) (logging_disable r)
                         (refuses r))).

Definition PIPELINE_FILE : string := "dvc.yaml".

Definition IGNORE_FILE : string := ".gitignore".

(** Modelled from the spec: [stage.dump(update_lock=False)] persists the
    stage into the pipeline file; [stage.ignore_outs()] marks as ignorable
    the outputs the stage generates into the cache, which are its model
    path (the metrics and plots paths are declared uncached), and writes
    the ignore file when there is one to mark.  These are the steps as
    they go when the collaborators do their work, and [init] is followed
    with them; what the commit does when a step fails is stated for any
    collaborators ([commit_with]). *)
Definition stage_dump (stage : Stage) : M State unit :=
  run update_repo
        (λ r, mkRepo (fs r)
                (Some (<[stage_name stage := stage]> (default ∅ (pipeline r))))
                (ignored r) (files_to_track r) (staged r)
                (logging_disable r) (refuses r)) in
  touch PIPELINE_FILE.

Definition stage_outputs (stage : Stage) : list string :=
  stage_outs stage ++ stage_checkpoints stage.

Definition stage_ignore_outs (stage : Stage) : M State unit :=
  if list_truthy (stage_outputs stage) then
    run update_repo
          (λ r, mkRepo (fs r) (pipeline r)
                  (ignored r ++ stage_outputs stage)
                  (files_to_track r) (staged r) (logging_disable r)
                  (refuses r)) in
    touch IGNORE_FILE
  else ret tt.

(** [metrics] and [plots] go when live is selected, [live] goes otherwise. *)
Definition suppress (with_live : bool) (d : gmap string string)
    : gmap string string :=
  if with_live then delete "plots" (delete "metrics" d) else delete "live" d.

(** Lines 295-315 of [init]: the interactive session or the suppression of
    the other output mode, and the merged context. *)
Definition merge (name : string) (with_live : bool)
    (validate : Validator) (defaults overrides : loc) (interactive : bool)
    : M State (gmap string string) :=
  let* defaults :=
    if interactive then
      let* answers :=
        init_interactive name defaults overrides (Some validate) true
          with_live in
      alloc answers
    else
      run (if with_live then
             let* _ := dict_pop defaults "metrics" in
             let* _ := dict_pop defaults "plots" in
             ret tt
           else
             let* _ := dict_pop defaults "live" in
             ret tt) in
      ret defaults in
  let* defaults_d := deref defaults in
  let* overrides_d := deref overrides in
  let context := overrides_d ∪ defaults_d in
  if negb (contains context "cmd") then raise AssertionError
  else ret context.

(** Lines 266-315 of [init]: the dictionaries to work on, then [merge]. *)
Definition merged_context (name type : string)
    (defaults overrides : option loc) (interactive : bool)
    : M State (gmap string string) :=
  let* st := get in
  let* defaults := or_empty defaults in
  let* overrides := or_empty overrides in
  let with_live := String.eqb type "live" in
  merge name with_live (validate_prompts_input (fs (repo st)))
    defaults overrides interactive.

(** Lines 317-334: the parameters file is loaded and the stage is made. *)
Definition assemble (name : string) (context : gmap string string)
    (force : bool) : M State Stage :=
  let* st := get in
  let params := context !! "params" in
  let* params_kv :=
    if opt_truthy params then
      match loadd_params (fs (repo st)) (default "" params) with
      | Ok kv => ret [kv]
      | Raise e => raise e
      end
    else ret [] in
  let checkpoint_out := opt_truthy (context !! "live") in
  let models := context !! "models" in
  let* cmd := getitem context "cmd" in
  stage_create name cmd
    (compact_list [context !! "code"; context !! "data"])
    params_kv
    (compact_list [context !! "metrics"])
    (compact_list [context !! "plots"])
    (context !! "live")
    force
    (if checkpoint_out then [] else compact_list [models])
    (if checkpoint_out then compact_list [models] else []).

(** Lines 347-352: the commit.  Its steps are those of the collaborators
    [stage.dump], [stage.ignore_outs] and [scm.track_file], whatever they
    do; [init] runs it with the collaborators above. *)
Definition commit_steps (dump ignore_outs : Stage → M State unit)
    (track_file : string → M State unit)
    (stage : Stage) (params : option string) : M State unit :=
  run dump stage in
  run ignore_outs stage in
  if opt_truthy params then track_file (default "" params)
  else ret tt.

Definition commit_with (dump ignore_outs : Stage → M State unit)
    (track_file : string → M State unit)
    (stage : Stage) (params : option string) : M State unit :=
  _disable_logging CRITICAL
    (scm_track_file_changes
       (commit_steps dump ignore_outs track_file stage params)).

Definition commit (stage : Stage) (params : option string) : M State unit :=
  commit_with stage_dump stage_ignore_outs scm_track_file stage params.

Definition CONFIRM : string :=
  "Do you want to add the above contents to dvc.yaml?".

Definition init (name : option string) (type : string)
    (defaults overrides : option loc) (interactive force : bool)
    : M State Stage :=
  let* st := get in
  let dvcfile := pipeline (repo st) in
  let name := name_or_type name type in
  run _check_stage_exists dvcfile name force in
  let* context := merged_context name type defaults overrides interactive in
  let* stage := assemble name context force in
  run (if interactive then
         run ui_write [Rule] in
         ui_error_write [Syntax stage]
       else ret tt) in
  let* confirmed :=
    if negb interactive then ret true
    else console (ConfirmationPrompt_ask CONFIRM error_console true) in
  if confirmed then
    run commit stage (context !! "params") in
    ret stage
  else raise (DvcException "Aborting ...").

(** * The vocabulary of the properties *)

(** What one line of input means to the loop: the value it ends with, the
    [InvalidResponse] that makes it go round again, or what it raises. *)
Definition line_result {A} (pr : string → result A) (default : option A)
    (line : string) : result A :=
  match line, default with
  | EmptyString, Some d => Ok d
  | _, _ => pr line
  end.

(** What a prompt of class [c] for [label] on [console] can log. *)
Definition prompt_event (c : prompt_class) (console : stream) (label : string)
    (e : event) : Prop :=
  match e with
  | Wrote s _ => s = console ∨ s = Stderr
  | Asked s c' l _ => s = console ∧ c' = c ∧ l = label
  | AskedEOF s c' l => s = console ∧ c' = c ∧ l = label
  end.

(** The outcome of the optional validator on a value, and the events its
    prints become. *)
Definition validation (validator : option Validator) (key : string)
    (value : option string) : list (stream * list renderable) * result unit :=
  match validator with
  | Some validate => validate key value
  | None => ([], Ok tt)
  end.

Definition print_events (printed : list (stream * list renderable)) : list event :=
  map (λ p, Wrote p.1 p.2) printed.

Definition retry_line (exc : string) : event :=
  Wrote Stderr [Text ("[red]" +:+ exc +:+ "[/]")].

(** The labels of the prompts rendered, in order. *)
Definition event_label (e : event) : option string :=
  match e with
  | Wrote _ _ => None
  | Asked _ _ label _ | AskedEOF _ _ label => Some label
  end.

Definition prompt_labels (evs : list event) : list string :=
  omap event_label evs.

(** [respects R φ ψ m]: whatever [m] does, the states before and after are
    related by [R], every event it logs satisfies [φ], and every exception
    it raises satisfies [ψ]. *)
Definition respects {S A} (R : S → S → Prop) (φ : event → Prop)
    (ψ : exn → Prop) (m : M S A) : Prop :=
  ∀ s r evs s', m s = (r, evs, s') →
    R s s' ∧ Forall φ evs ∧ ∀ e, r = Raise e → ψ e.

Definition any_state {S} : S → S → Prop := λ _ _, True.

(** Only the input and the store change. *)
Definition same_repo (st st' : State) : Prop := repo st' = repo st.

(** Only the input changes. *)
Definition same_store (st st' : State) : Prop :=
  heap st' = heap st ∧ repo st' = repo st.

Definition session_keys (live : bool) : list string :=
  "cmd" :: primary_keys ++ secondary_keys live.

(** What the session may log: prints, and prompts on standard error for
    the command, for a primary key or for a secondary key of the output
    mode, each by the prompt class of its key. *)
Definition session_event (live : bool) (e : event) : Prop :=
  match e with
  | Wrote _ _ => True
  | Asked s c l _ | AskedEOF s c l =>
      s = Stderr ∧
      ∃ key, key ∈ session_keys live ∧ PROMPTS !! key = Some l ∧
             c = prompt_cls key
  end.

(** What the session may raise: the end of the input, or what the
    validator raised that is not a retry. *)
Definition session_exn (validator : option Validator) (e : exn) : Prop :=
  e = EOFError ∨
  ∃ key value printed,
    validation validator key value = (printed, Raise e) ∧
    ∀ exc, e ≠ RetryPrompt exc.

(** The label of a key, and the message of [RequiredPrompt]. *)
Definition label_of (key : string) : string := default "" (PROMPTS !! key).

Definition RESPONSE_REQUIRED : string :=
  "[prompt.invalid]Response required. Please try again.".

(** How a run of [_prompt] for [key] may end: with a value, with the end
    of the input, or with what the validator raised. *)
Definition prompt_outcome (validator : option Validator) (key : string)
    (good : option string → Prop) (r : result (option string)) : Prop :=
  match r with
  | Ok value => good value
  | Raise e =>
      e = EOFError ∨
      ∃ value printed, validation validator key value = (printed, Raise e)
  end.

(** A validator that refuses whatever it is shown. *)
Definition refuse_all : Validator := λ _ _, ([], Raise AssertionError).

(** The text of the retry condition of the validator for [params]. *)
Definition retry_message (value reason : string) : string :=
  "'" +:+ value +:+ "' " +:+ reason +:+ ". " +:+
  "Please retry with an existing parameters file.".

(** What [show_workspace] prints. *)
Definition shown_events (defaults provided : gmap string string)
    (show_tree live : bool) : list event :=
  Wrote Stdout
    [Text "Enter the paths for dependencies and outputs of the command."]
  :: (if show_tree && dict_truthy (provided ∪ defaults)
      then [Wrote Stderr
              [Tree "DVC assumes the following workspace structure:"
                 (map (λ value, "[green]" +:+ value +:+ "[/green]")
                      (sorted_values
                         (preview_workspace live defaults provided)))]]
      else [])
  ++ [Wrote Stderr []].

(** A validator that returns normally when it is shown no value. *)
Definition accepts_absent (validator : option Validator) : Prop :=
  ∀ key, ∃ printed, validation validator key None = (printed, Ok tt).

(** A list without its immediate repetitions: the prompts rendered, each
    counted once however often it was retried. *)
Fixpoint collapse (l : list string) : list string :=
  match l with
  | [] => []
  | a :: l' =>
      match l' with
      | [] => [a]
      | b :: _ => if String.eqb a b then collapse l' else a :: collapse l'
      end
  end.

(** [(a, n)] stands for [a] rendered [n + 1] times in a row. *)
Definition expand (runs : list (string * nat)) : list string :=
  runs ≫= (λ an, replicate (S an.2) an.1).

(** The keys whose prompts were rendered, in order. *)
Definition asked_labels (evs : list event) : list string :=
  collapse (prompt_labels evs).

(** The stream an event goes to, and the events of a run that go to
    standard output. *)
Definition event_stream (e : event) : stream :=
  match e with
  | Wrote s _ | Asked s _ _ _ | AskedEOF s _ _ => s
  end.

Definition on_stdout (e : event) : bool :=
  match event_stream e with
  | Stdout => true
  | Stderr => false
  end.

Definition stdout_events (evs : list event) : list event :=
  List.filter on_stdout evs.

(** A reference the caller passes names a dictionary of the store; the
    dictionary the caller passes, empty when it passes none. *)
Definition valid_ref (st : State) (d : option loc) : Prop :=
  match d with
  | Some l => is_Some (heap st !! l)
  | None => True
  end.

Definition caller_dict (st : State) (d : option loc) : gmap string string :=
  match d with
  | Some l => default ∅ (heap st !! l)
  | None => ∅
  end.

(** The condition of the duplicate-stage error. *)
Definition duplicate_stage (st : State) (name : string) (force : bool) : Prop :=
  force = false ∧
  ∃ stages, pipeline (repo st) = Some stages ∧ is_Some (stages !! name).

Definition duplicate_message (name : string) : string :=
  "Stage '" +:+ name +:+ "' already exists in 'dvc.yaml'. " +:+
  "Use '--force' to overwrite.".

(** What [merged_context] may raise. *)
Definition context_exn (e : exn) : Prop :=
  e = EOFError ∨ e = DanglingReference ∨ e = AssertionError ∨
  (∃ path, e = LoaderError path) ∨ ∃ path, e = NotADirectoryError path.

(** The state after the commit of a stage. *)
Definition committed (stage : Stage) (params : option string) (st : State)
    : State :=
  with_repo
    (mkRepo (fs (repo st))
       (Some (<[stage_name stage := stage]> (default ∅ (pipeline (repo st)))))
       (ignored (repo st) ++ stage_outputs stage)
       []
       (staged (repo st)
        ++ (((files_to_track (repo st) ++ [PIPELINE_FILE])
             ++ (if list_truthy (stage_outputs stage) then [IGNORE_FILE]
                 else []))
            ++ (if opt_truthy params then [default "" params] else [])))
       (logging_disable (repo st))
       (refuses (repo st)))
    st.

(** What [init] may raise. *)
Definition init_exn (e : exn) : Prop :=
  context_exn e ∨
  (∃ msg, e = DuplicateStageName msg) ∨
  (∃ msg, e = StageError msg) ∨
  (∃ path, e = FileNotFoundError path) ∨
  (∃ path, e = IsADirectoryError path) ∨
  (∃ key, e = KeyError key) ∨
  e = DvcException "Aborting ...".

(** ** Data for the examples

    A workspace with a loadable [params.yaml], the directories [src] and
    [data] and nothing else, so that a path below [params.yaml] runs
    through a file; no [dvc.yaml] yet.  In [example_state] the
    caller's defaults are the dictionary at location 0 and the caller's
    overrides the one at location 1. *)

Definition example_fs : string → path_kind :=
  λ path,
    if String.eqb path "params.yaml" then File (Some ["lr"; "epochs"])
    else if String.eqb path "src" then Directory
    else if String.eqb path "data" then Directory
    else if String.prefix "params.yaml/" path then BelowFile
    else Missing.

Definition example_repo : Repo :=
  mkRepo example_fs None [] [] [] 0 (λ _, None).

Definition example_state (lines : list string)
    (defaults overrides : gmap string string) : State :=
  mkState lines [defaults; overrides] example_repo.

Definition all_supplied : gmap string string :=
  list_to_map
    [ ("cmd", "python train.py"); ("code", "src"); ("data", "data");
      ("models", "models"); ("params", "params.yaml");
      ("metrics", "metrics.json"); ("plots", "plots") ].

Definition command_code_data : gmap string string :=
  list_to_map
    [ ("cmd", "python train.py"); ("code", "src"); ("data", "data") ].

(** The same workspace with a [dvc.yaml] that already has a stage named
    [default]. *)
Definition old_stage : Stage :=
  mkStage "default" "python old.py" [] [] [] [] None [] [].

Definition taken_repo : Repo :=
  mkRepo example_fs (Some {["default" := old_stage]}) [] [] [] 0 (λ _, None).

Definition taken_state (lines : list string)
    (defaults overrides : gmap string string) : State :=
  mkState lines [defaults; overrides] taken_repo.

(** ** Vocabulary of the further properties *)

(** [process_response] of the prompt class of a key, as [ask] uses it. *)
Definition process_response (c : prompt_class) (value : string)
    : result (option string) :=
  match c with
  | Skippable => SkippablePrompt_process_response value
  | _ =>
      match RequiredPrompt_process_response value with
      | Ok ret => Ok (Some ret)
      | Raise e => Raise e
      end
  end.

(** The events of a prompt that is answered by [line] and of the rejection
    of a blank response. *)
Definition asked (key line : string) : event :=
  Asked Stderr (prompt_cls key) (label_of key) line.

Definition response_required : event :=
  Wrote Stderr [Text RESPONSE_REQUIRED].

(** The warning of the validator of [init] for a path that does not exist. *)
Definition missing_path_warning (value : string) : event :=
  Wrote Stderr
    [Text ("[yellow]'" +:+ value +:+ "' does not exist in the workspace. " +:+
           dquote +:+ "exp run" +:+ dquote +:+ " may fail.[/]")].

(** The keys the session asks for, in the order of its prompts: the command
    unless a command was provided, then the primary and the secondary keys
    that were not provided; none at all when neither a command nor any
    such key is left to ask for. *)
Definition keys_to_ask (command : option string)
    (provided : gmap string string) (live : bool) : list string :=
  let primary := lremove (contains provided) primary_keys in
  let secondary := lremove (contains provided) (secondary_keys live) in
  if opt_truthy command then primary ++ secondary
  else if list_truthy primary || list_truthy secondary
       then "cmd" :: primary ++ secondary
       else [].

(** The heading of the questions of the session. *)
Definition HEADING : string :=
  "Enter the paths for dependencies and outputs of the command.".

(** Where the events of [init] go: to standard error, but for the three
    that [ui.write] prints. *)
Definition expected_stream (e : event) : Prop :=
  match event_stream e with
  | Stderr => True
  | Stdout =>
      e = Wrote Stdout [] ∨ e = Wrote Stdout [Text HEADING] ∨
      e = Wrote Stdout [Rule]
  end.

(** The value a run without interaction works with for a key: the one of
    the overrides or else the one of the defaults, where the defaults do not
    count for a key of the other output mode. *)
Definition setting (live : bool) (defaults overrides : gmap string string)
    (key : string) : option string :=
  match overrides !! key with
  | Some value => Some value
  | None =>
      if bool_decide (key ∈ secondary_keys (negb live)) then None
      else defaults !! key
  end.

(** The caller does not pass one dictionary as both arguments. *)
Definition distinct_refs (defaults overrides : option loc) : Prop :=
  ∀ l, defaults = Some l → overrides ≠ Some l.

(** The state in which the logging level is [level]. *)
Definition with_logging (level : nat) (st : State) : State :=
  with_repo
    (mkRepo (fs (repo st)) (pipeline (repo st)) (ignored (repo st))
       (files_to_track (repo st)) (staged (repo st)) level
       (refuses (repo st)))
    st.



(** The characters of a text, and its pieces of a style. *)
Definition plain (t : RichText) : string :=
  foldr String.append "" (pieces t).*1.

Definition styled (style : string) (t : RichText) : list string :=
  omap (λ p : string * option string,
          if bool_decide (p.2 = Some style) then Some p.1 else None)
       (pieces t).

(** The choices of [rich]'s [Confirm]. *)
Definition CONFIRM_CHOICES : string * string := ("y", "n").

(** * Properties *)

(** ** Laws of the effect monad *)

Lemma bind_ret_l {S A B} (a : A) (k : A → M S B) s :
  bind (ret a) k s = k a s.
Proof. unfold bind, ret. by destruct (k a s) as [[r evs] s']. Qed.

Lemma bind_raise {S A B} e (k : A → M S B) s :
  bind (raise e) k s = (Raise e, [], s).
Proof. reflexivity. Qed.

Lemma bind_emits {S B} es (k : unit → M S B) s :
  bind (emits es) k s =
  match k tt s with (r, evs, s') => (r, es ++ evs, s') end.
Proof. reflexivity. Qed.

Lemma bind_emit {S B} e (k : unit → M S B) s :
  bind (emit e) k s =
  match k tt s with (r, evs, s') => (r, e :: evs, s') end.
Proof. reflexivity. Qed.

Lemma bind_get {S B} (k : S → M S B) s : bind get k s = k s s.
Proof. unfold bind, get. by destruct (k s s) as [[r evs] s']. Qed.

Lemma bind_modify {S B} (f : S → S) (k : unit → M S B) s :
  bind (modify f) k s = k tt (f s).
Proof. unfold bind, modify. by destruct (k tt (f s)) as [[r evs] s']. Qed.

Lemma bind_assoc {S A B C} (m : M S A) (f : A → M S B) (g : B → M S C) s :
  bind (bind m f) g s = bind m (λ a, bind (f a) g) s.
Proof.
  unfold bind. destruct (m s) as [[[a|e] e1] s1]; [|reflexivity].
  destruct (f a s1) as [[[b|e] e2] s2]; [|reflexivity].
  destruct (g b s2) as [[r e3] s3]. by rewrite app_assoc.
Qed.

(** The two outcomes of a sequence. *)
Lemma bind_inv {S A B} (m : M S A) (k : A → M S B) s r evs s' :
  bind m k s = (r, evs, s') →
  (∃ e, m s = (Raise e, evs, s') ∧ r = Raise e) ∨
  (∃ a e1 s1 e2, m s = (Ok a, e1, s1) ∧ k a s1 = (r, e2, s') ∧
                 evs = e1 ++ e2).
Proof.
  unfold bind. destruct (m s) as [[[a|e] e1] s1].
  - destruct (k a s1) as [[r2 e2] s2] eqn:Hk. intros ?; simplify_eq.
    right. by exists a, e1, s1, e2.
  - intros ?; simplify_eq. left. by exists e.
Qed.

(** ** Loops *)

Section Loops.
Context {A : Type} (body : Console (step A)).

(** An iteration that goes round again has read a line. *)
Hypothesis body_reads : ∀ lines evs lines',
  body lines = (Ok Continue, evs, lines') → length lines' < length lines.

Lemma while_fuel_enough n m lines :
  length lines < n → length lines < m →
  while_fuel n body lines = while_fuel m body lines.
Proof using body_reads.
  revert m lines. induction n as [|n IH]; intros m lines Hn Hm; [lia|].
  destruct m as [|m]; [lia|].
  cbn [while_fuel]. unfold bind.
  destruct (body lines) as [[r evs] lines'] eqn:Hb.
  destruct r as [[a|]|e]; try reflexivity.
  apply body_reads in Hb.
  rewrite (IH m lines') by lia. reflexivity.
Qed.

Lemma while_true_unfold lines :
  while_true body lines =
  (let* r := body in
   match r with
   | Return a => ret a
   | Continue => while_true body
   end) lines.
Proof using body_reads.
  unfold while_true at 1. cbn [while_fuel]. unfold bind.
  destruct (body lines) as [[r evs] lines'] eqn:Hb.
  destruct r as [[a|]|e]; try reflexivity.
  apply body_reads in Hb. unfold while_true.
  rewrite (while_fuel_enough (length lines) (S (length lines'))) by lia.
  reflexivity.
Qed.
End Loops.

(** The loop of [PromptBase.ask], line by line. *)
Lemma PromptBase_call_nil {A} c (pr : string → result A) console label default :
  PromptBase_call c pr console label default [] =
  (Raise EOFError, [AskedEOF console c label; Wrote Stderr []], []).
Proof. reflexivity. Qed.

Lemma PromptBase_call_cons {A} c (pr : string → result A) console label default
    line rest :
  PromptBase_call c pr console label default (line :: rest) =
  match line, default with
  | EmptyString, Some d => (Ok d, [Asked console c label line], rest)
  | _, _ =>
      match pr line with
      | Ok v => (Ok v, [Asked console c label line], rest)
      | Raise (InvalidResponse msg) =>
          match PromptBase_call c pr console label default rest with
          | (r, evs, lines') =>
              (r, Asked console c label line :: Wrote console [Text msg] :: evs,
               lines')
          end
      | Raise e => (Raise e, [Asked console c label line], rest)
      end
  end.
Proof.
  unfold PromptBase_call. rewrite while_true_unfold.
  - unfold bind at 1.
    destruct (PromptBase_round c pr console label default (line :: rest))
      as [[r evs] lines'] eqn:Hround.
    revert Hround. unfold PromptBase_round, bind, get_input, console_input.
    destruct line as [|a line], default as [d|];
      try (intros [= <- <- <-]; reflexivity);
      (destruct (pr _) as [v|e]; [intros [= <- <- <-]; reflexivity|]);
      destruct e; try (intros [= <- <- <-]; reflexivity);
      unfold bind, emit, ret; intros [= <- <- <-];
      match goal with
      | |- context [while_true ?b rest] =>
          destruct (while_true b rest) as [[r evs] l']
      end; reflexivity.
  - intros lines evs lines'.
    unfold PromptBase_round, bind, get_input, console_input.
    destruct lines as [|l ls]; [discriminate|].
    destruct l as [|a l], default as [d|]; try discriminate;
      (destruct (pr _) as [v|e]; [discriminate|]);
      destruct e; try discriminate;
      unfold emit, ret; intros [= <- <-]; cbn; lia.
Qed.

Lemma PromptBase_call_line {A} c (pr : string → result A) console label default
    line rest :
  PromptBase_call c pr console label default (line :: rest) =
  match line_result pr default line with
  | Ok v => (Ok v, [Asked console c label line], rest)
  | Raise (InvalidResponse msg) =>
      match PromptBase_call c pr console label default rest with
      | (r, evs, lines') =>
          (r, Asked console c label line :: Wrote console [Text msg] :: evs,
           lines')
      end
  | Raise e => (Raise e, [Asked console c label line], rest)
  end.
Proof.
  rewrite PromptBase_call_cons. unfold line_result.
  destruct line, default; try reflexivity; by destruct (pr _).
Qed.

Lemma line_result_raise {A} (pr : string → result A) default line e :
  line_result pr default line = Raise e → pr line = Raise e.
Proof. unfold line_result. by destruct line, default. Qed.

Lemma line_result_ok {A} (pr : string → result A) default line v :
  line_result pr default line = Ok v → default = Some v ∨ pr line = Ok v.
Proof.
  unfold line_result. destruct line, default; auto. intros [= <-]; auto.
Qed.

Lemma line_result_accept {A} (pr : string → result A) default reply v :
  pr reply = Ok v → reply ≠ EmptyString ∨ default = None →
  line_result pr default reply = Ok v.
Proof.
  unfold line_result. intros Hpr [Hne| ->]; destruct reply; try done.
Qed.

Section PromptBase.
Context {A : Type} (c : prompt_class) (pr : string → result A)
        (console : stream) (label : string) (default : option A).

Local Abbreviation call := (PromptBase_call c pr console label default).

Lemma PromptBase_call_reads lines r evs lines' :
  call lines = (r, evs, lines') →
  length lines' ≤ length lines ∧
  (∀ v, r = Ok v → length lines' < length lines).
Proof.
  revert r evs lines'. induction lines as [|line rest IH]; intros r evs lines'.
  - rewrite PromptBase_call_nil. intros [= <- <- <-]. split; [done|]. discriminate.
  - rewrite PromptBase_call_line.
    destruct (call rest) as [[r0 evs0] lines0].
    specialize (IH _ _ _ eq_refl) as [IH1 IH2].
    destruct (line_result pr default line) as [v|[]];
      intros [= <- <- <-]; cbn; split; try lia; try discriminate;
      try (intros; lia).
    all: intros v Hv; specialize (IH2 v Hv); lia.
Qed.

Lemma PromptBase_call_events lines r evs lines' :
  call lines = (r, evs, lines') → Forall (prompt_event c console label) evs.
Proof.
  revert r evs lines'. induction lines as [|line rest IH]; intros r evs lines'.
  - rewrite PromptBase_call_nil. intros [= <- <- <-].
    repeat (apply Forall_cons; split); try apply Forall_nil; cbn; auto.
  - rewrite PromptBase_call_line.
    destruct (call rest) as [[r0 evs0] lines0].
    specialize (IH _ _ _ eq_refl).
    destruct (line_result pr default line) as [v|[]];
      intros [= <- <- <-];
      repeat (apply Forall_cons; split); try apply Forall_nil; cbn; auto.
Qed.

(** The loop raises the end of the input or what [process_response]
    raised, other than [InvalidResponse]. *)
Lemma PromptBase_call_raises lines e evs lines' :
  call lines = (Raise e, evs, lines') →
  e = EOFError ∨
  (∃ line, pr line = Raise e ∧ ∀ msg, e ≠ InvalidResponse msg).
Proof.
  revert evs lines'. induction lines as [|line rest IH]; intros evs lines'.
  - rewrite PromptBase_call_nil. intros [= <- <- <-]. by left.
  - rewrite PromptBase_call_line.
    destruct (call rest) as [[r0 evs0] lines0].
    destruct (line_result pr default line) as [v|e0] eqn:Hpr; [discriminate|].
    apply line_result_raise in Hpr.
    destruct e0; intros ?; simplify_eq;
      try (right; eexists; split; [exact Hpr|discriminate]).
    eapply IH; reflexivity.
Qed.

(** A value comes from the default or from [process_response]. *)
Lemma PromptBase_call_value lines v evs lines' :
  call lines = (Ok v, evs, lines') →
  default = Some v ∨ ∃ line, pr line = Ok v.
Proof.
  revert evs lines'. induction lines as [|line rest IH]; intros evs lines'.
  - rewrite PromptBase_call_nil. discriminate.
  - rewrite PromptBase_call_line.
    destruct (call rest) as [[r0 evs0] lines0].
    destruct (line_result pr default line) as [v0|e0] eqn:Hpr.
    + intros [= <- <- <-]. destruct (line_result_ok _ _ _ _ Hpr); eauto.
    + destruct e0; try discriminate. intros ?; simplify_eq.
      eapply IH; reflexivity.
Qed.

(** A reply that [process_response] accepts, and that is not the empty
    line standing for a default, ends the loop with its value. *)
Lemma PromptBase_call_reply lines r evs lines' s c' l reply v :
  call lines = (r, evs, lines') →
  In (Asked s c' l reply) evs →
  pr reply = Ok v →
  reply ≠ EmptyString ∨ default = None →
  r = Ok v.
Proof.
  intros Hcall Hin Hpr Hne. revert r evs lines' Hcall Hin.
  induction lines as [|line rest IH]; intros r evs lines'.
  - rewrite PromptBase_call_nil. intros [= <- <- <-] [?|[?|[]]]; discriminate.
  - rewrite PromptBase_call_line.
    destruct (call rest) as [[r0 evs0] lines0].
    specialize (IH _ _ _ eq_refl).
    pose proof (line_result_accept _ _ _ _ Hpr Hne) as Hl.
    destruct (line_result pr default line) as [v0|e0] eqn:Hline.
    + intros [= <- <- <-] [[= _ _ _ <-]|[]]. congruence.
    + destruct e0; intros [= <- <- <-] [[= _ _ _ <-]|Hin]; try congruence;
        try done.
      destruct Hin as [?|Hin]; [discriminate|]. auto.
Qed.
End PromptBase.

(** ** [_prompt] *)

Lemma ask_reads c label console default lines r evs lines' :
  ask c label console default lines = (r, evs, lines') →
  length lines' ≤ length lines ∧
  (∀ v, r = Ok v → length lines' < length lines).
Proof. unfold ask. destruct c; apply PromptBase_call_reads. Qed.

Lemma ask_events c label console default lines r evs lines' :
  ask c label console default lines = (r, evs, lines') →
  Forall (prompt_event c console label) evs.
Proof. unfold ask. destruct c; apply PromptBase_call_events. Qed.

Lemma _prompt_round_eq key validator default lines :
  _prompt_round key validator default lines =
  match PROMPTS !! key with
  | None => (Raise (KeyError key), [], lines)
  | Some label =>
      match ask (prompt_cls key) label error_console default lines with
      | (Raise e, evs, lines') => (Raise e, evs, lines')
      | (Ok value, evs, lines') =>
          match validation validator key value with
          | (printed, Ok _) =>
              (Ok (Return value), evs ++ print_events printed, lines')
          | (printed, Raise (RetryPrompt exc)) =>
              (Ok Continue, evs ++ print_events printed ++ [retry_line exc],
               lines')
          | (printed, Raise e) =>
              (Raise e, evs ++ print_events printed, lines')
          end
      end
  end.
Proof.
  unfold _prompt_round, getitem, validation.
  destruct (PROMPTS !! key) as [label|]; [|reflexivity].
  rewrite bind_ret_l. unfold bind at 1.
  destruct (ask _ _ _ _ _) as [[[value|e] evs] lines']; [|reflexivity].
  destruct validator as [validate|].
  - destruct (validate key value) as [printed [[]|e]];
      unfold prints; rewrite bind_emits; fold (print_events printed);
      [cbn [ret]; by rewrite app_nil_r|].
    destruct e; cbn [raise]; rewrite ?app_nil_r; reflexivity.
  - cbn [ret print_events map]. by rewrite !app_nil_r.
Qed.

Lemma _prompt_round_reads key validator default lines evs lines' :
  _prompt_round key validator default lines = (Ok Continue, evs, lines') →
  length lines' < length lines.
Proof.
  rewrite _prompt_round_eq.
  destruct (PROMPTS !! key) as [label|]; [|discriminate].
  destruct (ask _ _ _ _ _) as [[[value|e] evs0] lines0] eqn:Hask; [|discriminate].
  apply ask_reads in Hask as [_ Hask]. specialize (Hask _ eq_refl).
  destruct (validation _ _ _) as [printed [[]|e]]; [discriminate|].
  destruct e; intros ?; simplify_eq. done.
Qed.

Lemma _prompt_unfold key validator default lines :
  _prompt key validator default lines =
  match _prompt_round key validator default lines with
  | (Ok (Return value), evs, lines') => (Ok value, evs, lines')
  | (Ok Continue, evs, lines') =>
      match _prompt key validator default lines' with
      | (r, evs2, lines2) => (r, evs ++ evs2, lines2)
      end
  | (Raise e, evs, lines') => (Raise e, evs, lines')
  end.
Proof.
  unfold _prompt.
  rewrite while_true_unfold by apply _prompt_round_reads.
  unfold bind.
  destruct (_prompt_round _ _ _ _) as [[[[value|]|e] evs] lines']; try reflexivity.
  unfold ret. by rewrite app_nil_r.
Qed.

Section PromptInduction.
Context (key : string) (validator : option Validator)
        (default : option string).
Context (P : list string → result (option string) → list event →
             list string → Prop).

Hypothesis unknown_key : ∀ lines,
  PROMPTS !! key = None → P lines (Raise (KeyError key)) [] lines.
Hypothesis ask_raises : ∀ label lines e evs lines',
  PROMPTS !! key = Some label →
  ask (prompt_cls key) label error_console default lines
    = (Raise e, evs, lines') →
  P lines (Raise e) evs lines'.
Hypothesis accepted : ∀ label lines value evs lines' printed u,
  PROMPTS !! key = Some label →
  ask (prompt_cls key) label error_console default lines
    = (Ok value, evs, lines') →
  validation validator key value = (printed, Ok u) →
  P lines (Ok value) (evs ++ print_events printed) lines'.
Hypothesis validator_raises : ∀ label lines value evs lines' printed e,
  PROMPTS !! key = Some label →
  ask (prompt_cls key) label error_console default lines
    = (Ok value, evs, lines') →
  validation validator key value = (printed, Raise e) →
  (∀ exc, e ≠ RetryPrompt exc) →
  P lines (Raise e) (evs ++ print_events printed) lines'.
Hypothesis retried : ∀ label lines value evs lines' printed exc r evs2 lines2,
  PROMPTS !! key = Some label →
  ask (prompt_cls key) label error_console default lines
    = (Ok value, evs, lines') →
  validation validator key value = (printed, Raise (RetryPrompt exc)) →
  _prompt key validator default lines' = (r, evs2, lines2) →
  P lines' r evs2 lines2 →
  P lines r ((evs ++ print_events printed ++ [retry_line exc]) ++ evs2) lines2.

Lemma _prompt_induction lines r evs lines' :
  _prompt key validator default lines = (r, evs, lines') →
  P lines r evs lines'.
Proof using All.
  remember (length lines) as n eqn:Hn. revert lines r evs lines' Hn.
  induction n as [n IH] using lt_wf_ind. intros lines r evs lines' ->.
  rewrite _prompt_unfold.
  destruct (_prompt_round _ _ _ _) as [[rr evs1] lines1] eqn:Hround.
  pose proof Hround as Hreads. rewrite _prompt_round_eq in Hround.
  assert (∃ o, PROMPTS !! key = o) as [[label|] Hkey] by eauto;
    rewrite Hkey in Hround.
  2:{ simplify_eq. intros ?; simplify_eq. by apply unknown_key. }
  assert (∃ o, ask (prompt_cls key) label error_console default lines = o)
    as [[[[value|e] evs0] lines0] Hask] by eauto; rewrite Hask in Hround.
  2:{ simplify_eq. intros ?; simplify_eq. by eapply ask_raises. }
  assert (∃ o, validation validator key value = o)
    as [[printed [u|e]] Hval] by eauto; rewrite Hval in Hround.
  { simplify_eq. intros ?; simplify_eq. by eapply accepted. }
  destruct e; injection Hround as <- <- <-;
    try (intros [= <- <- <-];
         eapply validator_raises;
         [exact Hkey|exact Hask|exact Hval|discriminate]).
  destruct (_prompt key validator default lines0) as [[r2 evs2] lines2] eqn:Hrec.
  intros [= <- <- <-].
  eapply retried; [exact Hkey|exact Hask|exact Hval|exact Hrec|].
  eapply IH; [|reflexivity|exact Hrec].
  by apply _prompt_round_reads in Hreads.
Qed.
End PromptInduction.

(** ** Frames *)

Section Respects.
Context {S : Type} (R : S → S → Prop) `{!PreOrder R}.
Context (φ : event → Prop) (ψ : exn → Prop).

Local Abbreviation respects := (respects R φ ψ).

Lemma respects_ret {A} (a : A) : respects (ret a).
Proof. intros s r evs s' [= <- <- <-]. by split_and!. Qed.

Lemma respects_raise {A} e : ψ e → respects (@raise S A e).
Proof.
  intros He s r evs s' [= <- <- <-]. split_and!; [done..|].
  by intros ? [= <-].
Qed.

Lemma respects_bind {A B} (m : M S A) (k : A → M S B) :
  respects m → (∀ a, respects (k a)) → respects (bind m k).
Proof.
  intros Hm Hk s r evs s' Hb.
  apply bind_inv in Hb as [(e & Hms & ->)|(a & e1 & s1 & e2 & Hms & Hks & ->)].
  - apply Hm in Hms as (? & ? & He). split_and!; [done..|].
    intros ? [= <-]. by apply He.
  - apply Hm in Hms as (? & ? & _). apply Hk in Hks as (? & ? & ?).
    split_and!; [by etrans|by apply Forall_app|done].
Qed.

Lemma respects_emits es : Forall φ es → respects (emits es).
Proof. intros He s r evs s' [= <- <- <-]. by split_and!. Qed.

Lemma respects_emit e : φ e → respects (emit e).
Proof. intros He. apply respects_emits. by constructor. Qed.

Lemma respects_get : respects get.
Proof. intros s r evs s' [= <- <- <-]. by split_and!. Qed.

Lemma respects_modify f : (∀ s, R s (f s)) → respects (modify f).
Proof. intros Hf s r evs s' [= <- <- <-]. by split_and!. Qed.

Lemma respects_getitem {V} (d : gmap string V) key :
  ψ (KeyError key) → respects (getitem d key).
Proof.
  intros. unfold getitem. destruct (d !! key);
    [apply respects_ret|by apply respects_raise].
Qed.

Lemma respects_try_finally {A} (body : M S A) cleanup :
  respects body → respects cleanup → respects (try_finally body cleanup).
Proof.
  intros Hb Hc s r evs s'. unfold try_finally.
  destruct (body s) as [[rb e1] s1] eqn:Hbs.
  destruct (cleanup s1) as [[rc e2] s2] eqn:Hcs.
  apply Hb in Hbs as (? & ? & ?). apply Hc in Hcs as (? & ? & ?).
  destruct rc; intros ?; simplify_eq;
    (split_and!; [by etrans|by apply Forall_app|]); [done|].
  intros ? [= <-]. eauto.
Qed.
End Respects.

(** A weaker frame follows from a stronger one. *)
Lemma respects_weaken {S A} (R R' : S → S → Prop) (φ φ' : event → Prop)
    (ψ ψ' : exn → Prop) (m : M S A) :
  respects R φ ψ m →
  (∀ s s', R s s' → R' s s') → (∀ e, φ e → φ' e) → (∀ e, ψ e → ψ' e) →
  respects R' φ' ψ' m.
Proof.
  intros Hm HR Hφ Hψ s r evs s' Hms. apply Hm in Hms as (? & ? & ?).
  split_and!; [auto|by eapply Forall_impl|auto].
Qed.

Global Instance any_state_preorder {S} : PreOrder (@any_state S).
Proof. by split. Qed.

(** One step of a proof of [respects], following the shape of the
    computation; what is left are the conditions on states, events and
    exceptions. *)
Ltac respects_step :=
  lazymatch goal with
  | |- PreOrder _ => apply _
  | |- respects _ _ _ (bind _ _) =>
      first [ apply respects_bind; [apply _| |intros ?]
            | apply respects_bind; [|intros ?] ]
  | |- respects _ _ _ (ret _) =>
      first [ apply respects_ret; apply _ | apply respects_ret ]
  | |- respects _ _ _ (raise _) =>
      first [ apply respects_raise; [apply _|] | apply respects_raise ]
  | |- respects _ _ _ get =>
      first [ apply respects_get; apply _ | apply respects_get ]
  | |- respects _ _ _ (emit _) =>
      first [ apply respects_emit; [apply _|] | apply respects_emit ]
  | |- respects _ _ _ (ui_write _) =>
      first [ apply respects_emit; [apply _|] | apply respects_emit ]
  | |- respects _ _ _ (ui_error_write _) =>
      first [ apply respects_emit; [apply _|] | apply respects_emit ]
  | |- respects _ _ _ (getitem _ _) =>
      first [ apply respects_getitem; [apply _|] | apply respects_getitem ]
  | |- respects _ _ _ (try_finally _ _) =>
      first [ apply respects_try_finally; [apply _| |]
            | apply respects_try_finally ]
  | |- respects _ _ _ (if ?b then _ else _) => destruct b eqn:?
  | |- respects _ _ _ (match ?x with _ => _ end) => destruct x eqn:?
  end.

Lemma ask_raises_eof c label console default lines e evs lines' :
  ask c label console default lines = (Raise e, evs, lines') → e = EOFError.
Proof.
  unfold ask. intros Hask.
  assert (∀ pr : string → result (option string),
            (∀ line e, pr line = Raise e → ∃ msg, e = InvalidResponse msg) →
            PromptBase_call c pr console label (Some <$> default) lines
              = (Raise e, evs, lines') → e = EOFError) as Hpr.
  { intros pr Hinv Hcall.
    apply PromptBase_call_raises in Hcall as [?|(line & Hl & Hne)]; [done|].
    apply Hinv in Hl as [msg ->]. by destruct (Hne msg). }
  assert (∀ line e, RequiredPrompt_process_response line = Raise e →
                    ∃ msg, e = InvalidResponse msg) as Hreq.
  { intros line e0. unfold RequiredPrompt_process_response, Prompt_process_response.
    destruct (truthy _); [discriminate|]. intros [= <-]. eauto. }
  destruct c; (eapply Hpr; [|exact Hask]); intros line e0;
    unfold SkippablePrompt_process_response;
    destruct (RequiredPrompt_process_response line) eqn:Hr; try discriminate;
    intros [= <-]; eauto.
Qed.

(** The frame of [_prompt]: its events are those of its prompt and the
    prints of the validator; it raises the end of the input, an unknown
    key, or what the validator raised. *)
Lemma _prompt_respects key validator default (φ : event → Prop) (ψ : exn → Prop) :
  (∀ label e, PROMPTS !! key = Some label →
              prompt_event (prompt_cls key) Stderr label e → φ e) →
  (∀ value printed r, validation validator key value = (printed, r) →
     Forall φ (print_events printed) ∧
     ∀ e, r = Raise e → (∀ exc, e ≠ RetryPrompt exc) → ψ e) →
  ψ EOFError → (PROMPTS !! key = None → ψ (KeyError key)) →
  respects any_state φ ψ (_prompt key validator default).
Proof.
  intros Hprompt Hval Heof Hkey lines r evs lines'.
  apply (_prompt_induction key validator default
           (λ lines r evs lines',
              any_state lines lines' ∧ Forall φ evs ∧
              ∀ e, r = Raise e → ψ e)); clear lines r evs lines'.
  - intros lines Hnone. split_and!; [done..|]. intros ? [= <-]. auto.
  - intros label lines e evs lines' Hl Hask.
    pose proof (ask_raises_eof _ _ _ _ _ _ _ _ Hask) as ->.
    apply ask_events in Hask. split_and!; [done| |by intros ? [= <-]].
    eapply Forall_impl; [exact Hask|]. intros e. by apply Hprompt.
  - intros label lines value evs lines' printed u Hl Hask Hv.
    apply ask_events in Hask. apply Hval in Hv as [Hv _].
    split_and!; [done| |done].
    apply Forall_app; split; [|done].
    eapply Forall_impl; [exact Hask|]. intros e. by apply Hprompt.
  - intros label lines value evs lines' printed e Hl Hask Hv Hne.
    apply ask_events in Hask. apply Hval in Hv as [Hv He].
    split_and!; [done| |].
    + apply Forall_app; split; [|done].
      eapply Forall_impl; [exact Hask|]. intros e0. by apply Hprompt.
    + intros e0 [= <-]. by apply He.
  - intros label lines value evs lines' printed exc r evs2 lines2
      Hl Hask Hv _ (_ & IH1 & IH2).
    apply ask_events in Hask. apply Hval in Hv as [Hv _].
    split_and!; [done| |done].
    rewrite !Forall_app. split_and!; [|done| |done].
    + eapply Forall_impl; [exact Hask|]. intros e0. by apply Hprompt.
    + constructor; [|constructor]. eapply Hprompt; [exact Hl|]. cbn. auto.
Qed.

Lemma _prompts_from_respects acc keys defaults validator
    (φ : event → Prop) (ψ : exn → Prop) :
  (∀ key, key ∈ keys →
     respects any_state φ ψ (_prompt key validator (defaults !! key))) →
  respects any_state φ ψ (_prompts_from acc keys defaults validator).
Proof.
  revert acc. induction keys as [|key keys IH]; intros acc Hkeys.
  - cbn [_prompts_from]. respects_step.
  - cbn [_prompts_from]. respects_step.
    + apply Hkeys. by left.
    + apply IH. intros k Hk. apply Hkeys. by right.
Qed.

(** ** The session *)

Lemma elem_of_lremove pred seq key : key ∈ lremove pred seq → key ∈ seq.
Proof.
  unfold lremove. rewrite !list_elem_of_In, filter_In. by intros [? _].
Qed.

Lemma lremove_pred pred seq key :
  key ∈ lremove pred seq → pred key = false.
Proof.
  unfold lremove. rewrite !list_elem_of_In, filter_In.
  intros [_ H]. by destruct (pred key).
Qed.

Lemma print_events_writes (P : event → Prop) printed :
  (∀ s objs, P (Wrote s objs)) → Forall P (print_events printed).
Proof.
  intros HP. unfold print_events. apply Forall_forall.
  intros e [p [-> _]]%list_elem_of_fmap. apply HP.
Qed.

Lemma session_keys_known live key :
  key ∈ session_keys live → is_Some (PROMPTS !! key).
Proof.
  unfold session_keys, primary_keys, secondary_keys.
  destruct live; cbn [app]; intros H;
    repeat (apply elem_of_cons in H as [->|H]);
    try (by apply elem_of_nil in H);
    eexists; vm_compute; reflexivity.
Qed.

Lemma _prompts_session_respects live keys defaults validator v :
  (∀ key, key ∈ keys → key ∈ session_keys live) →
  (∀ key value printed e, validation v key value = (printed, Raise e) →
     (∀ exc, e ≠ RetryPrompt exc) → session_exn validator e) →
  respects any_state (session_event live) (session_exn validator)
    (_prompts keys defaults v).
Proof.
  intros Hkeys Hv. apply _prompts_from_respects. intros key Hkey.
  apply Hkeys in Hkey. apply _prompt_respects.
  - intros label [s objs|s c l reply|s c l] Hl; cbn; [done|..];
      intros (-> & -> & ->); (split; [done|]); by exists key.
  - intros value printed r Hval. split.
    + by apply print_events_writes.
    + intros e -> Hne. by eapply Hv.
  - by left.
  - intros Hnone. apply session_keys_known in Hkey as [? ?]. congruence.
Qed.

Lemma session_respects name command defaults provided validator show_tree live :
  respects any_state (session_event live) (session_exn validator)
    (session name command defaults provided validator show_tree live).
Proof.
  unfold session, ask_command, show_workspace.
  repeat respects_step; try exact I;
    try (apply _prompts_session_respects).
  - intros key ->%list_elem_of_singleton. by left.
  - intros key value printed e [= _ ?].
  - intros key Hk%elem_of_lremove. right. apply elem_of_app. by left.
  - intros key value printed e Hv Hne. right. eauto.
  - intros key Hk%elem_of_lremove. right. apply elem_of_app. by right.
  - intros key value printed e Hv Hne. right. eauto.
Qed.

(** ** Frames of the operations on the state *)

Global Instance same_repo_preorder : PreOrder same_repo.
Proof. split; [done|]. intros x y z. unfold same_repo. congruence. Qed.

Global Instance same_store_preorder : PreOrder same_store.
Proof.
  split; [done|]. intros x y z [? ?] [? ?]. unfold same_store.
  split; congruence.
Qed.

Section StateFrames.
Context (R : State → State → Prop) `{!PreOrder R}.
Context (φ : event → Prop) (ψ : exn → Prop).

Lemma respects_console {A} (m : Console A) :
  (∀ st lines, R st (with_stdin lines st)) →
  respects any_state φ ψ m → respects R φ ψ (console m).
Proof.
  intros HR Hm st r evs st'. unfold console.
  destruct (m (stdin st)) as [[r0 evs0] lines] eqn:Hms.
  intros ?; simplify_eq. apply Hm in Hms as (_ & ? & ?). by split_and!.
Qed.

Lemma respects_deref l : ψ DanglingReference → respects R φ ψ (deref l).
Proof.
  intros Hd st r evs st'. unfold deref.
  destruct (heap st !! l); intros ?; simplify_eq; (split_and!; [done..|]);
    intros ? [= <-]; done.
Qed.

Lemma respects_assign l d :
  (∀ st h, R st (with_heap h st)) → respects R φ ψ (assign l d).
Proof. intros HR. apply respects_modify. intros st. apply HR. Qed.

Lemma respects_alloc d :
  (∀ st h, R st (with_heap h st)) → respects R φ ψ (alloc d).
Proof.
  intros HR st r evs st' [= <- <- <-]. split_and!; [apply HR|done..].
Qed.

Lemma respects_dict_pop l key :
  (∀ st h, R st (with_heap h st)) → ψ DanglingReference →
  respects R φ ψ (dict_pop l key).
Proof.
  intros HR Hd. unfold dict_pop. repeat respects_step.
  - by apply respects_deref.
  - by apply respects_assign.
Qed.

Lemma respects_or_empty d :
  (∀ st h, R st (with_heap h st)) → ψ DanglingReference →
  respects R φ ψ (or_empty d).
Proof.
  intros HR Hd. unfold or_empty. destruct d as [l|].
  - repeat respects_step; [by apply respects_deref|by apply respects_alloc].
  - by apply respects_alloc.
Qed.
End StateFrames.

Lemma init_interactive_respects name defaults provided validator show_tree live :
  respects same_repo (session_event live)
    (λ e, e = DanglingReference ∨ session_exn validator e)
    (init_interactive name defaults provided validator show_tree live).
Proof.
  unfold init_interactive. repeat respects_step.
  - apply respects_dict_pop; first [apply _|done|by left].
  - apply respects_deref; first [apply _|by left].
  - apply respects_deref; first [apply _|by left].
  - apply respects_console; [done|].
    eapply respects_weaken; [apply session_respects|auto..].
Qed.

(** ** Running the operations on the store *)

Lemma bind_ok {S A B} (m : M S A) (k : A → M S B) s a e1 s1 :
  m s = (Ok a, e1, s1) →
  bind m k s = match k a s1 with (r, e2, s2) => (r, e1 ++ e2, s2) end.
Proof. intros Hm. unfold bind. by rewrite Hm. Qed.

Lemma bind_fail {S A B} (m : M S A) (k : A → M S B) s e e1 s1 :
  m s = (Raise e, e1, s1) → bind m k s = (Raise e, e1, s1).
Proof. intros Hm. unfold bind. by rewrite Hm. Qed.

Lemma deref_eq l d st : heap st !! l = Some d → deref l st = (Ok d, [], st).
Proof. intros H. unfold deref. by rewrite H. Qed.

Lemma dict_pop_eq l key d st :
  heap st !! l = Some d →
  dict_pop l key st =
  (Ok (d !! key), [], with_heap (<[l := delete key d]> (heap st)) st).
Proof.
  intros H. unfold dict_pop.
  rewrite (bind_ok _ _ _ _ _ _ (deref_eq _ _ _ H)).
  unfold assign. by rewrite bind_modify.
Qed.

Lemma lremove_all pred seq :
  (∀ key, key ∈ seq → pred key = true) → lremove pred seq = [].
Proof.
  induction seq as [|key seq IH]; intros Hall; [done|].
  unfold lremove in *. cbn [List.filter].
  rewrite (Hall key) by by left. cbn [negb].
  apply IH. intros k Hk. apply Hall. by right.
Qed.

Lemma compact_cmd command :
  truthy command = true →
  compact (<["cmd" := Some command]> ∅) = {["cmd" := command]}.
Proof.
  intros Ht. unfold compact. rewrite insert_empty.
  apply omap_singleton_Some. cbn. by rewrite Ht.
Qed.

(** ** C1 *)

(** Claim C1, as the code has it.  When the overrides hold the command,
    every primary key and every secondary key of the output mode, the
    session renders no prompt and reads no input; it returns the mapping
    that holds the command under [cmd], and the empty mapping only when the
    command supplied is the empty string. *)
Theorem C1_all_supplied_no_prompts name defaults provided validator
    show_tree live st d command :
  heap st !! provided = Some d →
  is_Some (heap st !! defaults) →
  d !! "cmd" = Some command →
  (∀ key, key ∈ primary_keys ++ secondary_keys live → is_Some (d !! key)) →
  ∃ evs st',
    init_interactive name defaults provided validator show_tree live st
    = (Ok (if truthy command then {["cmd" := command]} else ∅), evs, st') ∧
    prompt_labels evs = [] ∧ stdin st' = stdin st.
Proof.
  intros Hp [dd Hd] Hcmd Hkeys.
  set (st1 := with_heap (<[provided := delete "cmd" d]> (heap st)) st).
  assert (heap st1 !! provided = Some (delete "cmd" d)) as Hp1.
  { cbn. apply list_lookup_insert_eq. by eapply lookup_lt_Some. }
  assert (∃ dd1, heap st1 !! defaults = Some dd1) as [dd1 Hd1].
  { apply lookup_lt_is_Some. cbn. rewrite length_insert.
    by eapply lookup_lt_Some. }
  assert (∀ key, key ∈ primary_keys ++ secondary_keys live →
                 contains (delete "cmd" d) key = true) as Hin.
  { intros key Hkey. unfold contains. apply bool_decide_eq_true.
    rewrite lookup_delete_ne; [by apply Hkeys|].
    intros <-. revert Hkey. unfold primary_keys, secondary_keys.
    destruct live; cbn [app]; rewrite !elem_of_cons, elem_of_nil;
      intros H; repeat destruct H as [H|H]; done. }
  unfold init_interactive.
  rewrite (bind_ok _ _ _ _ _ _ (dict_pop_eq _ "cmd" _ _ Hp)).
  fold st1. rewrite Hcmd.
  rewrite (bind_ok _ _ _ _ _ _ (deref_eq _ _ _ Hp1)).
  rewrite (bind_ok _ _ _ _ _ _ (deref_eq _ _ _ Hd1)).
  unfold console, session.
  rewrite !lremove_all;
    [|intros key Hk; apply Hin, elem_of_app; by right
     |intros key Hk; apply Hin, elem_of_app; by left].
  cbn [opt_truthy list_truthy orb].
  rewrite !orb_false_r.
  destruct (truthy command) eqn:Ht; cbn [negb].
  - unfold ui_error_write, ask_command, show_workspace, ui_write.
    cbn [opt_truthy negb]. rewrite Ht. cbn [negb].
    rewrite bind_emit, bind_ret_l, bind_assoc, bind_emit, bind_assoc.
    unfold _prompts. cbn [_prompts_from].
    destruct (show_tree && dict_truthy (delete "cmd" d ∪ dd1)).
    + unfold ui_error_write. rewrite !bind_emit.
      rewrite !bind_ret_l. cbn [ret app].
      rewrite !(left_id_L ∅ (∪)), compact_cmd by done.
      eexists _, _. split; [reflexivity|]. by split.
    + unfold ui_error_write. rewrite bind_ret_l, bind_emit.
      rewrite !bind_ret_l. cbn [ret app].
      rewrite !(left_id_L ∅ (∪)), compact_cmd by done.
      eexists _, _. split; [reflexivity|]. by split.
  - cbn [ret app]. eexists _, _. split; [reflexivity|]. by split.
Qed.

Lemma C1_all_supplied_witness :
  ∃ evs st',
    init_interactive "default" 0 1 None true false
      (example_state ["unread"] ∅ all_supplied)
    = (Ok {["cmd" := "python train.py"]}, evs, st') ∧
    prompt_labels evs = [] ∧ stdin st' = ["unread"].
Proof.
  refine (C1_all_supplied_no_prompts "default" 0 1 None true false
            (example_state ["unread"] ∅ all_supplied) all_supplied
            "python train.py" _ _ _ _).
  - reflexivity.
  - eexists. reflexivity.
  - vm_compute. reflexivity.
  - intros key H. cbn [primary_keys secondary_keys app] in H.
    repeat (apply elem_of_cons in H as [->|H]);
      try (by apply elem_of_nil in H); eexists; vm_compute; reflexivity.
Defined.

(** The claim C1 as stated fails: with everything supplied, the session
    returns the command under [cmd], not the empty mapping. *)
Lemma C1_counterexample :
  (init_interactive "default" 0 1 None true false
     (example_state [] ∅ all_supplied)).1.1
  = Ok {["cmd" := "python train.py"]} ∧
  ({["cmd" := "python train.py"]} : gmap string string) ≠ ∅.
Proof.
  split; [vm_compute; reflexivity|]. apply map_non_empty_singleton.
Qed.

(** ** C7 *)

Lemma PROMPTS_cmd : PROMPTS !! "cmd" = Some (label_of "cmd").
Proof. vm_compute. reflexivity. Qed.

Lemma RequiredPrompt_blank reply :
  strip reply = EmptyString →
  RequiredPrompt_process_response reply
  = Raise (InvalidResponse RESPONSE_REQUIRED).
Proof.
  intros H. unfold RequiredPrompt_process_response, Prompt_process_response.
  by rewrite H.
Qed.

Lemma RequiredPrompt_value reply ret :
  RequiredPrompt_process_response reply = Ok ret → ret ≠ EmptyString.
Proof.
  unfold RequiredPrompt_process_response, Prompt_process_response.
  destruct (truthy (strip reply)) eqn:Ht; [|discriminate].
  intros [= <-] Hs. by rewrite Hs in Ht.
Qed.

Lemma ask_required_blank label console reply rest :
  strip reply = EmptyString →
  ask Required label console None (reply :: rest) =
  match ask Required label console None rest with
  | (r, evs, lines') =>
      (r, Asked console Required label reply
          :: Wrote console [Text RESPONSE_REQUIRED] :: evs, lines')
  end.
Proof.
  intros H. unfold ask. rewrite PromptBase_call_line.
  cbn [fmap option_fmap option_map].
  assert (line_result
            (λ value, match RequiredPrompt_process_response value with
                      | Ok ret => Ok (Some ret)
                      | Raise e => Raise e
                      end) None reply
          = Raise (InvalidResponse RESPONSE_REQUIRED)) as ->; [|done].
  unfold line_result. rewrite (RequiredPrompt_blank _ H). by destruct reply.
Qed.

(** Claim C7, as the code has it.  When the prompt for [cmd] is given no
    default: a blank response makes the prompt print "Response required" on
    standard error and ask again, whatever the validator is, so the
    validator is not shown the response; and the run ends with a string
    that is not empty, with the end of the input, or with what the
    validator raised. *)
Theorem C7_cmd_never_empty validator :
  (∀ reply rest,
     strip reply = EmptyString →
     _prompt "cmd" validator None (reply :: rest) =
     match _prompt "cmd" validator None rest with
     | (r, evs, lines') =>
         (r, Asked Stderr Required (label_of "cmd") reply
             :: Wrote Stderr [Text RESPONSE_REQUIRED] :: evs, lines')
     end) ∧
  (∀ lines,
     prompt_outcome validator "cmd"
       (λ value, ∃ s, value = Some s ∧ s ≠ EmptyString)
       (_prompt "cmd" validator None lines).1.1).
Proof.
  split.
  - intros reply rest Hblank.
    rewrite (_prompt_unfold _ _ _ (reply :: rest)), (_prompt_unfold _ _ _ rest).
    rewrite !_prompt_round_eq, PROMPTS_cmd.
    change (prompt_cls "cmd") with Required. unfold error_console.
    rewrite (ask_required_blank _ _ _ _ Hblank).
    destruct (ask Required _ _ None rest) as [[[value|e] evs] lines']; [|done].
    destruct (validation validator "cmd" value) as [printed [u|e]]; [done|].
    destruct e; try done.
    by destruct (_prompt "cmd" validator None lines') as [[r evs2] lines2].
  - intros lines.
    destruct (_prompt "cmd" validator None lines) as [[r evs] lines'] eqn:Hrun.
    cbn [fst]. revert Hrun.
    apply (_prompt_induction "cmd" validator None
             (λ _ r _ _, prompt_outcome validator "cmd"
                (λ value, ∃ s, value = Some s ∧ s ≠ EmptyString) r));
      clear lines r evs lines'.
    + intros _ Hnone. by rewrite PROMPTS_cmd in Hnone.
    + intros label lines e evs lines' _ Hask.
      left. by eapply ask_raises_eof.
    + intros label lines value evs lines' printed u _ Hask _. cbn.
      unfold ask in Hask. change (prompt_cls "cmd") with Required in Hask.
      apply PromptBase_call_value in Hask as [?|[line Hline]]; [done|].
      destruct (RequiredPrompt_process_response line) as [ret|] eqn:Hreq;
        [|done].
      injection Hline as <-. exists ret. split; [done|].
      by eapply RequiredPrompt_value.
    + intros label lines value evs lines' printed e _ _ Hval _.
      right. eauto.
    + intros label lines value evs lines' printed exc r evs2 lines2
        _ _ _ _ IH. exact IH.
Qed.

Lemma C7_cmd_never_empty_witness :
  strip "  " = EmptyString ∧
  _prompt "cmd" (Some refuse_all) None [""; "  "; "python train.py"; "x"]
  = (Raise AssertionError,
     [ Asked Stderr Required (label_of "cmd") "";
       Wrote Stderr [Text RESPONSE_REQUIRED];
       Asked Stderr Required (label_of "cmd") "  ";
       Wrote Stderr [Text RESPONSE_REQUIRED];
       Asked Stderr Required (label_of "cmd") "python train.py" ],
     ["x"]).
Proof.
  split; [reflexivity|].
  rewrite (proj1 (C7_cmd_never_empty (Some refuse_all)) "" _ eq_refl).
  rewrite (proj1 (C7_cmd_never_empty (Some refuse_all)) "  " _ eq_refl).
  vm_compute. reflexivity.
Defined.

(** The claim C7 as stated fails when the defaults hold a command: the
    empty response is accepted as that default, with no message and no
    second prompt. *)
Lemma C7_counterexample :
  _prompts ["cmd"] {["cmd" := "python train.py"]} None [""]
  = (Ok {["cmd" := Some "python train.py"]},
     [Asked Stderr Required (label_of "cmd") ""], []).
Proof. vm_compute. reflexivity. Qed.

(** ** C6 *)

Lemma PROMPTS_params : PROMPTS !! "params" = Some (label_of "params").
Proof. vm_compute. reflexivity. Qed.

Lemma validate_params_missing fs value :
  fs value = Missing →
  validate_prompts_input fs "params" (Some value)
  = ([], Raise (RetryPrompt (retry_message value "does not exist"))).
Proof.
  intros H. unfold validate_prompts_input, loadd_params. by rewrite H.
Qed.

Lemma validate_params_directory fs value :
  fs value = Directory →
  validate_prompts_input fs "params" (Some value)
  = ([], Raise (RetryPrompt (retry_message value "is a directory"))).
Proof.
  intros H. unfold validate_prompts_input, loadd_params. by rewrite H.
Qed.

Lemma validate_params_accepts fs value printed u :
  validate_prompts_input fs "params" (Some value) = (printed, Ok u) →
  ∃ keys, fs value = File (Some keys).
Proof.
  unfold validate_prompts_input, loadd_params. cbn [String.eqb Ascii.eqb].
  change ("params" =? "params")%string with true. cbv iota.
  destruct (fs value) as [| |[keys|]|]; try discriminate. eauto.
Qed.

(** X27.  The validator of [init] answers a [params] value that names
    nothing in a directory that exists (opening it raises
    [FileNotFoundError]) with the retry condition "does not exist", and one
    that names a directory with "is a directory".  When the value the
    prompt obtained names either, [_prompt] prints that reason in red on
    standard error and asks for [params] again; and a run of the prompt
    ends with no value (the key was skipped), with a value that names a
    loadable file, with the end of the input, or with what the validator
    raised that is not a retry. *)
Theorem params_retry_reasons fs default :
  let validator := Some (validate_prompts_input fs) in
  (∀ value, fs value = Missing →
     validate_prompts_input fs "params" (Some value)
     = ([], Raise (RetryPrompt (retry_message value "does not exist")))) ∧
  (∀ value, fs value = Directory →
     validate_prompts_input fs "params" (Some value)
     = ([], Raise (RetryPrompt (retry_message value "is a directory")))) ∧
  (∀ lines value evs lines',
     ask Skippable (label_of "params") Stderr default lines
     = (Ok (Some value), evs, lines') →
     fs value = Missing ∨ fs value = Directory →
     ∃ reason,
       (fs value = Missing ∧ reason = "does not exist" ∨
        fs value = Directory ∧ reason = "is a directory") ∧
       _prompt "params" validator default lines =
       match _prompt "params" validator default lines' with
       | (r, evs2, lines2) =>
           (r, (evs ++ [retry_line (retry_message value reason)]) ++ evs2,
            lines2)
       end) ∧
  (∀ lines,
     prompt_outcome validator "params"
       (λ value, ∀ v, value = Some v → ∃ keys, fs v = File (Some keys))
       (_prompt "params" validator default lines).1.1).
Proof.
  intros validator. split_and!.
  - apply validate_params_missing.
  - apply validate_params_directory.
  - intros lines value evs lines' Hask Hbad.
    assert (∃ reason,
              (fs value = Missing ∧ reason = "does not exist" ∨
               fs value = Directory ∧ reason = "is a directory") ∧
              validate_prompts_input fs "params" (Some value)
              = ([], Raise (RetryPrompt (retry_message value reason))))
      as (reason & Hreason & Hval).
    { destruct Hbad as [Hm|Hd].
      - exists "does not exist". split; [by left|].
        by apply validate_params_missing.
      - exists "is a directory". split; [by right|].
        by apply validate_params_directory. }
    exists reason. split; [done|].
    rewrite _prompt_unfold, _prompt_round_eq, PROMPTS_params.
    change (prompt_cls "params") with Skippable. unfold error_console.
    rewrite Hask. unfold validator. cbn [validation]. rewrite Hval.
    cbn [print_events map app].
    by destruct (_prompt "params" _ default lines') as [[r evs2] lines2].
  - intros lines.
    destruct (_prompt "params" validator default lines)
      as [[r evs] lines'] eqn:Hrun.
    cbn [fst]. revert Hrun.
    apply (_prompt_induction "params" validator default
             (λ _ r _ _, prompt_outcome validator "params"
                (λ value, ∀ v, value = Some v →
                               ∃ keys, fs v = File (Some keys)) r));
      clear lines r evs lines'.
    + intros _ Hnone. by rewrite PROMPTS_params in Hnone.
    + intros label lines e evs lines' _ Hask.
      left. by eapply ask_raises_eof.
    + intros label lines value evs lines' printed u _ _ Hval v ->.
      by eapply validate_params_accepts.
    + intros label lines value evs lines' printed e _ _ Hval _.
      right. eauto.
    + intros label lines value evs lines' printed exc r evs2 lines2
        _ _ _ _ IH. exact IH.
Qed.

Lemma params_retry_reasons_witness :
  validate_prompts_input example_fs "params" (Some "missing.yaml")
  = ([], Raise (RetryPrompt
       "'missing.yaml' does not exist. Please retry with an existing parameters file.")) ∧
  validate_prompts_input example_fs "params" (Some "src")
  = ([], Raise (RetryPrompt
       "'src' is a directory. Please retry with an existing parameters file.")) ∧
  _prompt "params" (Some (validate_prompts_input example_fs)) None
    ["missing.yaml"; "src"; "params.yaml"; "x"]
  = (Ok (Some "params.yaml"),
     [ Asked Stderr Skippable (label_of "params") "missing.yaml";
       retry_line
         "'missing.yaml' does not exist. Please retry with an existing parameters file.";
       Asked Stderr Skippable (label_of "params") "src";
       retry_line
         "'src' is a directory. Please retry with an existing parameters file.";
       Asked Stderr Skippable (label_of "params") "params.yaml" ],
     ["x"]).
Proof.
  destruct (params_retry_reasons example_fs None) as (H1 & H2 & H3 & _).
  split; [exact (H1 "missing.yaml" eq_refl)|].
  split; [exact (H2 "src" eq_refl)|].
  destruct (H3 ["missing.yaml"; "src"; "params.yaml"; "x"] "missing.yaml"
              [Asked Stderr Skippable (label_of "params") "missing.yaml"]
              ["src"; "params.yaml"; "x"] eq_refl (or_introl eq_refl))
    as (reason & [[_ ->]|[Hd _]] & ->); [|discriminate Hd].
  vm_compute. reflexivity.
Defined.

Lemma validate_params_below_file fs value :
  fs value = BelowFile →
  validate_prompts_input fs "params" (Some value)
  = ([], Raise (NotADirectoryError value)).
Proof.
  intros H. unfold validate_prompts_input, loadd_params. by rewrite H.
Qed.

(** Claim C6.  Not every [params] answer that names a file that does not
    exist is asked again: for a path that runs through a file, such as
    [params.yaml/lr] beside a file [params.yaml], the loader raises
    [NotADirectoryError], which the validator of [init] does not turn into
    a retry.  The error leaves the validator, and [_prompt], having
    obtained that value, ends with it: nothing is printed after the prompt
    and no further line is read, although the path does not exist and is
    no directory. *)
Theorem C6_params_below_file fs default :
  let validator := Some (validate_prompts_input fs) in
  (∀ value, fs value = BelowFile →
     path_exists fs value = false ∧
     validate_prompts_input fs "params" (Some value)
     = ([], Raise (NotADirectoryError value))) ∧
  (∀ lines value evs lines',
     ask Skippable (label_of "params") Stderr default lines
     = (Ok (Some value), evs, lines') →
     fs value = BelowFile →
     _prompt "params" validator default lines
     = (Raise (NotADirectoryError value), evs, lines')).
Proof.
  intros validator. split.
  - intros value H. split; [|by apply validate_params_below_file].
    unfold path_exists. by rewrite H.
  - intros lines value evs lines' Hask Hbad.
    rewrite _prompt_unfold, _prompt_round_eq, PROMPTS_params.
    change (prompt_cls "params") with Skippable. unfold error_console.
    rewrite Hask. unfold validator. cbn [validation].
    rewrite (validate_params_below_file _ _ Hbad).
    cbn [print_events map app]. by rewrite app_nil_r.
Qed.

Lemma C6_params_below_file_witness :
  example_fs "params.yaml" = File (Some ["lr"; "epochs"]) ∧
  example_fs "params.yaml/lr" = BelowFile ∧
  path_exists example_fs "params.yaml/lr" = false ∧
  validate_prompts_input example_fs "params" (Some "params.yaml/lr")
  = ([], Raise (NotADirectoryError "params.yaml/lr")) ∧
  _prompt "params" (Some (validate_prompts_input example_fs)) None
    ["params.yaml/lr"; "params.yaml"]
  = (Raise (NotADirectoryError "params.yaml/lr"),
     [Asked Stderr Skippable (label_of "params") "params.yaml/lr"],
     ["params.yaml"]) ∧
  (init None "default" (Some 0) (Some 1) true false
     (example_state ["models"; "params.yaml/lr"; "params.yaml"] ∅
        command_code_data)).1.1
  = Raise (NotADirectoryError "params.yaml/lr").
Proof.
  destruct (C6_params_below_file example_fs None) as (H1 & H2).
  split; [reflexivity|]. split; [reflexivity|].
  destruct (H1 "params.yaml/lr" eq_refl) as (He & Hv).
  split; [exact He|]. split; [exact Hv|]. split.
  - exact (H2 ["params.yaml/lr"; "params.yaml"] "params.yaml/lr"
             [Asked Stderr Skippable (label_of "params") "params.yaml/lr"]
             ["params.yaml"] eq_refl eq_refl).
  - vm_compute. reflexivity.
Defined.

(** ** The course of a session *)

Lemma show_workspace_eq defaults provided show_tree live lines :
  show_workspace defaults provided show_tree live lines
  = (Ok tt, shown_events defaults provided show_tree live, lines).
Proof.
  unfold show_workspace, shown_events, ui_write, ui_error_write.
  rewrite bind_emit.
  destruct (show_tree && dict_truthy (provided ∪ defaults)).
  - by rewrite bind_emit.
  - by rewrite bind_ret_l.
Qed.

Lemma ask_command_inv command defaults lines r0 evs0 lines0 :
  ask_command command defaults lines = (r0, evs0, lines0) →
  (opt_truthy command = true ∧ r0 = Ok (<["cmd" := command]> ∅) ∧
   evs0 = [] ∧ lines0 = lines) ∨
  (opt_truthy command = false ∧
   ∃ rc evsc,
     _prompt "cmd" None (defaults !! "cmd") lines = (rc, evsc, lines0) ∧
     match rc with
     | Ok value =>
         r0 = Ok (<["cmd" := value]> ∅) ∧ evs0 = evsc ++ [Wrote Stdout []]
     | Raise e => r0 = Raise e ∧ evs0 = evsc
     end).
Proof.
  unfold ask_command. destruct (opt_truthy command); cbn [negb].
  - intros [= <- <- <-]. by left.
  - right. split; [done|]. revert H. unfold _prompts. cbn [_prompts_from].
    unfold bind at 1 2.
    destruct (_prompt "cmd" None (defaults !! "cmd") lines)
      as [[[value|e] evsc] lines1].
    + cbn [ret]. unfold ui_write. rewrite bind_emit. cbn [ret].
      intros [= <- <- <-]. eexists _, _. split; [done|].
      rewrite app_nil_r, (right_id_L ∅ (∪)). done.
    + intros [= <- <- <-]. by eexists _, _.
Qed.

Lemma session_inv name command defaults provided validator show_tree live
    lines r evs lines' :
  session name command defaults provided validator show_tree live lines
  = (r, evs, lines') →
  let primary := lremove (contains provided) primary_keys in
  let secondary := lremove (contains provided) (secondary_keys live) in
  let shown := shown_events defaults provided show_tree live in
  (r = Ok ∅ ∧ evs = [] ∧ lines' = lines ∧ opt_truthy command = false ∧
   primary = [] ∧ secondary = []) ∨
  ∃ r0 evs0 lines0,
    ask_command command defaults lines = (r0, evs0, lines0) ∧
    match r0 with
    | Raise e =>
        r = Raise e ∧ evs = Wrote Stderr (banner name) :: evs0 ∧
        lines' = lines0
    | Ok ret0 =>
        ∃ r1 evs1 lines1,
          _prompts primary defaults validator lines0 = (r1, evs1, lines1) ∧
          match r1 with
          | Raise e =>
              r = Raise e ∧
              evs = Wrote Stderr (banner name) :: evs0 ++ shown ++ evs1 ∧
              lines' = lines1
          | Ok answers1 =>
              ∃ r2 evs2,
                _prompts secondary defaults validator lines1
                = (r2, evs2, lines') ∧
                evs = Wrote Stderr (banner name)
                      :: evs0 ++ shown ++ evs1 ++ evs2 ∧
                r = match r2 with
                    | Ok answers2 =>
                        Ok (compact (answers2 ∪ (answers1 ∪ ret0)))
                    | Raise e => Raise e
                    end
          end
    end.
Proof.
  intros Hrun primary secondary shown. revert Hrun. unfold session.
  fold primary secondary.
  destruct (negb (opt_truthy command || list_truthy primary
                  || list_truthy secondary)) eqn:Hearly.
  - intros [= <- <- <-]. left.
    apply negb_true_iff in Hearly.
    apply orb_false_iff in Hearly as [[Hc Hp]%orb_false_iff Hs].
    split_and!; try done; [by destruct primary|by destruct secondary].
  - right. revert Hrun. unfold ui_error_write. rewrite bind_emit.
    unfold bind at 1.
    destruct (ask_command command defaults lines) as [[[ret0|e] evs0] lines0];
      [|intros [= <- <- <-]; by eexists _, _, _].
    rewrite (bind_ok _ _ _ _ _ _ (show_workspace_eq _ _ _ _ _)).
    fold shown. unfold bind at 1.
    destruct (_prompts primary defaults validator lines0)
      as [[[answers1|e] evs1] lines1] eqn:H1.
    2:{ intros [= <- <- <-]. eexists _, _, _. split; [done|].
        eexists _, _, _. split; [done|]. done. }
    unfold bind at 1.
    destruct (_prompts secondary defaults validator lines1)
      as [[[answers2|e] evs2] lines2] eqn:H2;
      cbn [ret]; intros [= <- <- <-];
      eexists _, _, _; (split; [done|]);
      eexists _, _, _; (split; [done|]);
      eexists _, _; (split; [exact H2|]);
      rewrite ?app_nil_r; done.
Qed.

(** ** C8 *)

Lemma PROMPTS_elem key label :
  PROMPTS !! key = Some label →
  (key, label) ∈
    [ ("cmd", "[b]Command[/b] to execute");
      ("code", "Path to a [b]code[/b] file/directory");
      ("data", "Path to a [b]data[/b] file/directory");
      ("models", "Path to a [b]model[/b] file/directory");
      ("params", "Path to a [b]parameters[/b] file");
      ("metrics", "Path to a [b]metrics[/b] file");
      ("plots", "Path to a [b]plots[/b] file/directory");
      ("live", "Path to log [b]dvclive[/b] outputs") ].
Proof. unfold PROMPTS. apply elem_of_list_to_map_2. Qed.

(** Different keys have different labels. *)
Lemma PROMPTS_inj key1 key2 label :
  PROMPTS !! key1 = Some label → PROMPTS !! key2 = Some label → key1 = key2.
Proof.
  intros H1%PROMPTS_elem H2%PROMPTS_elem.
  repeat (apply elem_of_cons in H1 as [[= -> ->]|H1]);
    try (by apply elem_of_nil in H1);
    repeat (apply elem_of_cons in H2 as [[= ->]|H2]);
    try (by apply elem_of_nil in H2); reflexivity.
Qed.

Lemma label_of_known key label :
  PROMPTS !! key = Some label → label_of key = label.
Proof. intros H. unfold label_of. by rewrite H. Qed.

Lemma prompt_cls_skippable key : key ≠ "cmd" → prompt_cls key = Skippable.
Proof.
  intros H. unfold prompt_cls.
  destruct (String.eqb_spec key "cmd"); [done|reflexivity].
Qed.

(** Every prompt that [_prompt] renders is the one of its key. *)
Lemma _prompt_asked key validator default lines r evs lines' s c l reply :
  _prompt key validator default lines = (r, evs, lines') →
  In (Asked s c l reply) evs →
  s = Stderr ∧ c = prompt_cls key ∧ PROMPTS !! key = Some l.
Proof.
  intros Hrun Hin.
  assert (respects any_state
            (λ e, match e with
                  | Asked s c l _ =>
                      s = Stderr ∧ c = prompt_cls key ∧ PROMPTS !! key = Some l
                  | _ => True
                  end)
            (λ _, True) (_prompt key validator default)) as Hr.
  { apply _prompt_respects; try done.
    - intros label [?|????|???] Hl; cbn; try done.
      by intros (-> & -> & ->).
    - intros value printed r0 _. split; [|done].
      by apply print_events_writes. }
  apply Hr in Hrun as (_ & Hall & _).
  rewrite Forall_forall in Hall. apply (Hall _ (proj2 (list_elem_of_In _ _) Hin)).
Qed.

Lemma ask_skippable_n label console default lines r evs lines' s c l :
  ask Skippable label console default lines = (r, evs, lines') →
  In (Asked s c l "n") evs → r = Ok None.
Proof.
  unfold ask. intros Hask Hin.
  eapply PromptBase_call_reply; [exact Hask|exact Hin|reflexivity|by left].
Qed.

Lemma in_print_events_asked printed s c l reply :
  ¬ In (Asked s c l reply) (print_events printed).
Proof.
  unfold print_events. rewrite in_map_iff. by intros (p & ? & _).
Qed.

(** A skippable prompt answered "n" ends without a value. *)
Lemma _prompt_skipped key validator default lines v evs lines' s c l :
  accepts_absent validator →
  prompt_cls key = Skippable →
  _prompt key validator default lines = (Ok v, evs, lines') →
  In (Asked s c l "n") evs → v = None.
Proof.
  intros Hacc Hcls Hrun. revert v Hrun.
  assert (∀ r, _prompt key validator default lines = (r, evs, lines') →
               ∀ v, r = Ok v → In (Asked s c l "n") evs → v = None) as H;
    [|by eauto].
  intros r.
  apply (_prompt_induction key validator default
           (λ _ r evs _, ∀ v, r = Ok v → In (Asked s c l "n") evs → v = None));
    clear lines r evs lines'; try done.
  - intros label lines value evs lines' printed u _ Hask _ v [= <-] Hin.
    apply in_app_or in Hin as [Hin|Hin];
      [|by apply in_print_events_asked in Hin].
    rewrite Hcls in Hask. apply ask_skippable_n with (s:=s) (c:=c) (l:=l) in Hask;
      [congruence|done].
  - intros label lines value evs lines' printed exc r evs2 lines2
      _ Hask Hval _ IH v -> Hin.
    apply in_app_or in Hin as [Hin|Hin]; [|by apply IH].
    apply in_app_or in Hin as [Hin|Hin].
    + rewrite Hcls in Hask.
      apply ask_skippable_n with (s:=s) (c:=c) (l:=l) in Hask; [|done].
      injection Hask as ->. destruct (Hacc key) as [p Hp]. congruence.
    + apply in_app_or in Hin as [Hin|[Hin|[]]];
        [by apply in_print_events_asked in Hin|discriminate].
Qed.

Lemma _prompts_from_inv acc key keys defaults validator lines r evs lines' :
  _prompts_from acc (key :: keys) defaults validator lines = (r, evs, lines') →
  ∃ rk evk linesk,
    _prompt key validator (defaults !! key) lines = (rk, evk, linesk) ∧
    match rk with
    | Raise e => r = Raise e ∧ evs = evk ∧ lines' = linesk
    | Ok value =>
        ∃ evs2,
          _prompts_from (<[key := value]> acc) keys defaults validator linesk
          = (r, evs2, lines') ∧
          evs = evk ++ evs2
    end.
Proof.
  cbn [_prompts_from]. unfold bind.
  destruct (_prompt key validator (defaults !! key) lines)
    as [[[value|e] evk] linesk].
  - destruct (_prompts_from _ keys defaults validator linesk)
      as [[r2 evs2] lines2] eqn:Hrest.
    intros [= <- <- <-]. eexists _, _, _. split; [done|]. by exists evs2.
  - intros [= <- <- <-]. by eexists _, _, _.
Qed.

(** The answers are those for the keys asked, on top of what was there. *)
Lemma _prompts_from_frame acc keys defaults validator lines m evs lines' k :
  _prompts_from acc keys defaults validator lines = (Ok m, evs, lines') →
  k ∉ keys → m !! k = acc !! k.
Proof.
  revert acc lines evs. induction keys as [|key keys IH]; intros acc lines evs.
  - cbn. by intros [= <- _ _] _.
  - intros Hrun Hnot.
    apply _prompts_from_inv in Hrun as (rk & evk & linesk & Hk & Hrest).
    apply not_elem_of_cons in Hnot as [Hne Hnot].
    destruct rk as [value|e]; [|by destruct Hrest].
    destruct Hrest as (evs2 & Hrest & _).
    rewrite (IH _ _ _ Hrest Hnot). by rewrite lookup_insert_ne.
Qed.

Lemma _prompts_from_lookup acc keys defaults validator lines m evs lines' k :
  _prompts_from acc keys defaults validator lines = (Ok m, evs, lines') →
  is_Some (m !! k) → k ∈ keys ∨ is_Some (acc !! k).
Proof.
  intros Hrun Hk. destruct (decide (k ∈ keys)); [by left|right].
  by rewrite <- (_prompts_from_frame _ _ _ _ _ _ _ _ _ Hrun).
Qed.

Lemma _prompts_from_skipped acc keys defaults validator lines m evs lines'
    key s c :
  accepts_absent validator →
  NoDup keys → (∀ k, k ∈ keys → k ≠ "cmd") →
  _prompts_from acc keys defaults validator lines = (Ok m, evs, lines') →
  is_Some (PROMPTS !! key) →
  In (Asked s c (label_of key) "n") evs →
  key ∈ keys ∧ m !! key = Some None.
Proof.
  intros Hacc Hnd Hcmd Hrun [label Hlabel].
  rewrite (label_of_known _ _ Hlabel).
  revert acc lines evs Hrun.
  induction keys as [|k keys IH]; intros acc lines evs.
  - cbn. by intros [= _ <- _] [].
  - intros Hrun Hin.
    apply _prompts_from_inv in Hrun as (rk & evk & linesk & Hk & Hrest).
    apply NoDup_cons in Hnd as [Hnotin Hnd].
    destruct rk as [value|e]; [|by destruct Hrest].
    destruct Hrest as (evs2 & Hrest & ->).
    apply in_app_or in Hin as [Hin|Hin].
    + pose proof (_prompt_asked _ _ _ _ _ _ _ _ _ _ _ Hk Hin) as (_ & _ & Hl).
      pose proof (PROMPTS_inj _ _ _ Hlabel Hl) as ->.
      split; [by left|].
      assert (prompt_cls k = Skippable) as Hcls.
      { apply prompt_cls_skippable, Hcmd. by left. }
      pose proof (_prompt_skipped _ _ _ _ _ _ _ _ _ _ Hacc Hcls Hk Hin) as ->.
      rewrite (_prompts_from_frame _ _ _ _ _ _ _ _ _ Hrest Hnotin).
      by rewrite lookup_insert_eq.
    + destruct (IH Hnd (λ k' Hk', Hcmd k' (list_elem_of_further _ _ _ Hk'))
                  _ _ _ Hrest Hin) as [? ?].
      split; [by right|done].
Qed.

(** What [init_interactive] does to the store, and the session it runs. *)
Lemma init_interactive_inv name defaults provided validator show_tree live
    st r evs st' :
  init_interactive name defaults provided validator show_tree live st
  = (r, evs, st') →
  (r = Raise DanglingReference ∧ evs = [] ∧
   (heap st !! provided = None ∨ heap st !! defaults = None)) ∨
  ∃ d dd lines',
    heap st !! provided = Some d ∧
    <[provided := delete "cmd" d]> (heap st) !! defaults = Some dd ∧
    session name (d !! "cmd") dd (delete "cmd" d) validator show_tree live
      (stdin st) = (r, evs, lines') ∧
    st' = mkState lines' (<[provided := delete "cmd" d]> (heap st)) (repo st).
Proof.
  unfold init_interactive.
  destruct (heap st !! provided) as [d|] eqn:Hp.
  2:{ unfold dict_pop, bind, deref. rewrite Hp. intros [= <- <- _].
      left. auto. }
  rewrite (bind_ok _ _ _ _ _ _ (dict_pop_eq _ "cmd" _ _ Hp)).
  set (st1 := with_heap _ st).
  assert (heap st1 !! provided = Some (delete "cmd" d)) as Hp1.
  { cbn. apply list_lookup_insert_eq. by eapply lookup_lt_Some. }
  rewrite (bind_ok _ _ _ _ _ _ (deref_eq _ _ _ Hp1)).
  destruct (heap st1 !! defaults) as [dd|] eqn:Hd.
  2:{ unfold bind, deref. rewrite Hd. intros [= <- <- _].
      left. split_and!; [done..|]. right.
      apply lookup_ge_None. apply lookup_ge_None in Hd.
      cbn in Hd. by rewrite length_insert in Hd. }
  rewrite (bind_ok _ _ _ _ _ _ (deref_eq _ _ _ Hd)).
  unfold console. cbn [app].
  destruct (session _ _ _ _ _ _ _ _) as [[r0 evs0] lines'] eqn:Hs.
  intros [= <- <- <-]. right. exists d, dd, lines'. done.
Qed.

Lemma in_shown_events_asked defaults provided show_tree live s c l reply :
  ¬ In (Asked s c l reply) (shown_events defaults provided show_tree live).
Proof.
  unfold shown_events.
  destruct (show_tree && dict_truthy (provided ∪ defaults)); cbn;
    intuition discriminate.
Qed.

Lemma NoDup_lremove pred seq : NoDup seq → NoDup (lremove pred seq).
Proof.
  unfold lremove. rewrite !NoDup_ListNoDup. apply List.NoDup_filter.
Qed.

Lemma compact_lookup_None (m : gmap string (option string)) key :
  m !! key = Some None → compact m !! key = None.
Proof. intros H. unfold compact. by rewrite lookup_omap, H. Qed.

(** Case analysis on membership in a list that is written out. *)
Ltac elem_cases H :=
  repeat (apply elem_of_cons in H as [H|H]; [try subst; try done|]);
  try (apply elem_of_nil in H; destruct H).

Lemma validate_accepts_absent fs :
  accepts_absent (Some (validate_prompts_input fs)).
Proof. intros key. by exists []. Qed.

(** Claim C8.  For a validator that returns normally when it is shown no
    value (the one of [init] does) and a skippable key: answered "n", the
    prompt of the key yields no value instead of the string "n"; and a key
    whose prompt was answered "n" is absent from the mapping the
    interactive session returns. *)
Theorem C8_skipped_key_absent validator key :
  accepts_absent validator →
  is_Some (PROMPTS !! key) →
  key ≠ "cmd" →
  (∀ default rest,
     ∃ printed,
       _prompt key validator default ("n" :: rest)
       = (Ok None,
          Asked Stderr Skippable (label_of key) "n" :: print_events printed,
          rest)) ∧
  (∀ name defaults provided show_tree live st ret evs st',
     init_interactive name defaults provided validator show_tree live st
     = (Ok ret, evs, st') →
     In (Asked Stderr Skippable (label_of key) "n") evs →
     ret !! key = None).
Proof.
  intros Hacc [label Hlabel] Hcmd. split.
  - intros default rest. destruct (Hacc key) as [printed Hprinted].
    exists printed.
    rewrite _prompt_unfold, _prompt_round_eq, Hlabel.
    rewrite (prompt_cls_skippable _ Hcmd), (label_of_known _ _ Hlabel).
    unfold ask. rewrite PromptBase_call_line.
    assert (line_result SkippablePrompt_process_response (Some <$> default) "n"
            = Ok None) as -> by by destruct default.
    by rewrite Hprinted.
  - intros name defaults provided show_tree live st ret evs st' Hrun Hin.
    apply init_interactive_inv in Hrun
      as [(? & _)|(d & dd & lines' & _ & _ & Hrun & _)]; [done|].
    apply session_inv in Hrun as [(_ & -> & _)|(r0 & evs0 & lines0 & H0 & Hrun)];
      [done|].
    destruct r0 as [ret0|e]; [|by destruct Hrun].
    destruct Hrun as (r1 & evs1 & lines1 & H1 & Hrun).
    destruct r1 as [answers1|e]; [|by destruct Hrun].
    destruct Hrun as (r2 & evs2 & H2 & -> & Hret).
    destruct r2 as [answers2|e]; [|done]. injection Hret as ->.
    assert (NoDup primary_keys) as Hnd1.
    { apply (bool_decide_unpack _). by vm_compute. }
    assert (NoDup (secondary_keys live)) as Hnd2.
    { destruct live; apply (bool_decide_unpack _); by vm_compute. }
    assert (∀ k, k ∈ primary_keys ++ secondary_keys live → k ≠ "cmd") as Hne.
    { intros k Hk ->. destruct live; cbn in Hk; elem_cases Hk. }
    assert (ret0 !! key = None) as Hret0.
    { apply ask_command_inv in H0
        as [(_ & [= ->] & _)|(_ & rc & evsc & _ & Hrc)].
      - by rewrite lookup_insert_ne.
      - destruct rc; [|by destruct Hrc]. destruct Hrc as [[= ->] _].
        by rewrite lookup_insert_ne. }
    destruct Hin as [?|Hin]; [done|].
    apply in_app_or in Hin as [Hin|Hin].
    { exfalso. apply ask_command_inv in H0
        as [(_ & _ & -> & _)|(_ & rc & evsc & Hc & Hrc)]; [done|].
      assert (In (Asked Stderr Skippable (label_of key) "n") evsc) as Hin'.
      { destruct rc; destruct Hrc as [_ ->]; [|done].
        apply in_app_or in Hin as [?|[?|[]]]; done. }
      by pose proof (_prompt_asked _ _ _ _ _ _ _ _ _ _ _ Hc Hin')
        as (_ & ? & _). }
    apply in_app_or in Hin as [Hin|Hin];
      [by apply in_shown_events_asked in Hin|].
    apply compact_lookup_None.
    apply in_app_or in Hin as [Hin|Hin].
    + eapply _prompts_from_skipped in Hin as [Hkey Hans]; [|done| | |exact H1|by eexists].
      2:{ by apply NoDup_lremove. }
      2:{ intros k Hk%elem_of_lremove. apply Hne, elem_of_app. by left. }
      apply elem_of_lremove in Hkey.
      assert (key ∉ lremove (contains (delete "cmd" d)) (secondary_keys live))
        as Hnot.
      { intros Hk%elem_of_lremove. unfold primary_keys in Hkey.
        destruct live; cbn in Hk; elem_cases Hkey; elem_cases Hk. }
      rewrite lookup_union_r;
        [|by rewrite (_prompts_from_frame _ _ _ _ _ _ _ _ _ H2 Hnot)].
      by apply lookup_union_Some_l.
    + eapply _prompts_from_skipped in Hin as [Hkey Hans]; [|done| | |exact H2|by eexists].
      2:{ by apply NoDup_lremove. }
      2:{ intros k Hk%elem_of_lremove. apply Hne, elem_of_app. by right. }
      by apply lookup_union_Some_l.
Qed.

Lemma C8_skipped_key_absent_witness :
  In (Asked Stderr Skippable (label_of "plots") "n")
    (init_interactive "default" 0 1
       (Some (validate_prompts_input example_fs)) true false
       (example_state ["models"; "n"; "metrics.json"; "n"] ∅
          command_code_data)).1.2 ∧
  ∃ ret,
    (init_interactive "default" 0 1
       (Some (validate_prompts_input example_fs)) true false
       (example_state ["models"; "n"; "metrics.json"; "n"] ∅
          command_code_data)).1.1 = Ok ret ∧
    ret !! "plots" = None.
Proof.
  assert (In (Asked Stderr Skippable (label_of "plots") "n")
            (init_interactive "default" 0 1
               (Some (validate_prompts_input example_fs)) true false
               (example_state ["models"; "n"; "metrics.json"; "n"] ∅
                  command_code_data)).1.2) as Hin.
  { vm_compute. do 7 right. left. reflexivity. }
  assert ((init_interactive "default" 0 1
             (Some (validate_prompts_input example_fs)) true false
             (example_state ["models"; "n"; "metrics.json"; "n"] ∅
                command_code_data)).1.1
          = Ok (list_to_map [ ("cmd", "python train.py");
                              ("models", "models");
                              ("metrics", "metrics.json") ])) as Hret.
  { vm_compute. reflexivity. }
  split; [exact Hin|]. eexists. split; [exact Hret|].
  destruct (init_interactive "default" 0 1
              (Some (validate_prompts_input example_fs)) true false
              (example_state ["models"; "n"; "metrics.json"; "n"] ∅
                 command_code_data)) as [[r evs] st'] eqn:Hrun.
  cbn [fst snd] in Hin, Hret. subst r.
  refine (proj2 (C8_skipped_key_absent
                   (Some (validate_prompts_input example_fs)) "plots"
                   (validate_accepts_absent example_fs) _ _)
            _ _ _ _ _ _ _ _ _ Hrun Hin).
  - eexists. vm_compute. reflexivity.
  - discriminate.
Defined.

(** ** C2 *)

Lemma collapse_cons_same a l : collapse (a :: a :: l) = collapse (a :: l).
Proof. cbn [collapse]. by rewrite String.eqb_refl. Qed.

Lemma collapse_replicate_app a n l :
  collapse (replicate (S n) a ++ l) = collapse (a :: l).
Proof.
  induction n as [|n IH]; [done|].
  change (replicate (S (S n)) a ++ l) with (a :: a :: replicate n a ++ l).
  rewrite collapse_cons_same. exact IH.
Qed.

Lemma collapse_cons a l :
  collapse (a :: l) =
  match head l with
  | Some b => if String.eqb a b then collapse l else a :: collapse l
  | None => [a]
  end.
Proof. by destruct l. Qed.

Lemma head_collapse l : head (collapse l) = head l.
Proof.
  induction l as [|a l IH]; [done|].
  rewrite collapse_cons. destruct l as [|b l]; [done|]. cbn [head].
  destruct (String.eqb_spec a b) as [->|]; [|done]. by rewrite IH.
Qed.

Lemma collapse_cons_eq a l1 l2 :
  collapse l1 = collapse l2 → collapse (a :: l1) = collapse (a :: l2).
Proof.
  intros H. rewrite !collapse_cons.
  rewrite <- (head_collapse l1), <- (head_collapse l2), H.
  destruct (head (collapse l2)) as [b|]; [|done].
  by destruct (String.eqb a b).
Qed.

Lemma expand_app runs1 runs2 :
  expand (runs1 ++ runs2) = expand runs1 ++ expand runs2.
Proof. unfold expand. apply bind_app. Qed.

(** Collapsing sees only which labels follow one another. *)
Lemma collapse_expand runs : collapse (expand runs) = collapse runs.*1.
Proof.
  induction runs as [|[a n] runs IH]; [done|].
  change (expand ((a, n) :: runs)) with (replicate (S n) a ++ expand runs).
  rewrite collapse_replicate_app. cbn [fmap list_fmap fst].
  by apply collapse_cons_eq.
Qed.

Lemma prompt_labels_app evs1 evs2 :
  prompt_labels (evs1 ++ evs2) = prompt_labels evs1 ++ prompt_labels evs2.
Proof. apply omap_app. Qed.

Lemma prompt_labels_print_events printed :
  prompt_labels (print_events printed) = [].
Proof. by induction printed. Qed.

Lemma prompt_labels_shown_events defaults provided show_tree live :
  prompt_labels (shown_events defaults provided show_tree live) = [].
Proof.
  unfold shown_events.
  by destruct (show_tree && dict_truthy (provided ∪ defaults)).
Qed.

Lemma PromptBase_call_labels {A} c (pr : string → result A) console label
    default lines r evs lines' :
  PromptBase_call c pr console label default lines = (r, evs, lines') →
  ∃ n, prompt_labels evs = replicate (S n) label.
Proof.
  revert r evs lines'. induction lines as [|line rest IH]; intros r evs lines'.
  - rewrite PromptBase_call_nil. intros [= <- <- <-]. by exists 0.
  - rewrite PromptBase_call_line.
    destruct (PromptBase_call c pr console label default rest)
      as [[r0 evs0] lines0].
    destruct (IH _ _ _ eq_refl) as [n Hn].
    destruct (line_result pr default line) as [v|[]];
      intros [= <- <- <-]; try (by exists 0).
    exists (S n).
    change (prompt_labels (Asked console c label line
                           :: Wrote console [Text msg] :: evs0))
      with (label :: prompt_labels evs0).
    by rewrite Hn.
Qed.

Lemma ask_labels c label console default lines r evs lines' :
  ask c label console default lines = (r, evs, lines') →
  ∃ n, prompt_labels evs = replicate (S n) label.
Proof. unfold ask. destruct c; apply PromptBase_call_labels. Qed.

(** [_prompt] renders the prompt of its key, once or more. *)
Lemma _prompt_labels key validator default label lines r evs lines' :
  PROMPTS !! key = Some label →
  _prompt key validator default lines = (r, evs, lines') →
  ∃ n, prompt_labels evs = replicate (S n) label.
Proof.
  intros Hlabel.
  apply (_prompt_induction key validator default
           (λ _ _ evs _, ∃ n, prompt_labels evs = replicate (S n) label));
    clear lines r evs lines'.
  - congruence.
  - intros l lines e evs lines' Hl Hask. simplify_eq. by eapply ask_labels.
  - intros l lines value evs lines' printed u Hl Hask _. simplify_eq.
    apply ask_labels in Hask as [n Hn]. exists n.
    by rewrite prompt_labels_app, prompt_labels_print_events, app_nil_r.
  - intros l lines value evs lines' printed e Hl Hask _ _. simplify_eq.
    apply ask_labels in Hask as [n Hn]. exists n.
    by rewrite prompt_labels_app, prompt_labels_print_events, app_nil_r.
  - intros l lines value evs lines' printed exc r evs2 lines2
      Hl Hask _ _ [m Hm]. simplify_eq.
    apply ask_labels in Hask as [n Hn]. exists (n + S m).
    rewrite !prompt_labels_app, prompt_labels_print_events, Hn, Hm.
    cbn [prompt_labels omap list_omap retry_line event_label app].
    rewrite app_nil_r, <- replicate_add. f_equal.
Qed.

(** [_prompts] renders the prompts of its keys in order, each once or
    more, up to the key at which it raises. *)
Lemma _prompts_from_labels acc keys defaults validator lines r evs lines' :
  (∀ k, k ∈ keys → is_Some (PROMPTS !! k)) →
  _prompts_from acc keys defaults validator lines = (r, evs, lines') →
  ∃ ns,
    prompt_labels evs = expand (zip (label_of <$> keys) ns) ∧
    match r with
    | Ok _ => length ns = length keys
    | Raise _ => 0 < length ns ≤ length keys
    end.
Proof.
  revert acc lines evs. induction keys as [|k keys IH]; intros acc lines evs Hk.
  - cbn. intros [= <- <- _]. by exists [].
  - intros Hrun.
    apply _prompts_from_inv in Hrun as (rk & evk & linesk & Hrk & Hrest).
    destruct (Hk k) as [label Hlabel]; [by left|].
    destruct (_prompt_labels _ _ _ _ _ _ _ _ Hlabel Hrk) as [n Hn].
    rewrite <- (label_of_known _ _ Hlabel) in Hn.
    destruct rk as [value|e].
    + destruct Hrest as (evs2 & Hrest & ->).
      apply IH in Hrest as (ns & Hns & Hlen);
        [|intros k' Hk'; apply Hk; by right].
      exists (n :: ns). split.
      * rewrite prompt_labels_app, Hn, Hns. done.
      * destruct r; cbn [length]; lia.
    + destruct Hrest as (-> & -> & _). exists [n]. split.
      * rewrite Hn. destruct keys; cbn; by rewrite app_nil_r.
      * cbn [length]. lia.
Qed.

(** Claim C2, as the code has it.  With the overrides
    [{cmd: "python train.py", code: "src", data: "data"}] and the output
    mode that is not live, the session renders the prompts of [models],
    [params], [metrics] and [plots], in that order and of no other key:
    all four when it returns, and the first ones of them, at least one,
    when the input ends or the validator raises before. *)
Theorem C2_prompted_keys name defaults provided validator show_tree
    st r evs st' :
  heap st !! provided = Some command_code_data →
  is_Some (heap st !! defaults) →
  init_interactive name defaults provided validator show_tree false st
  = (r, evs, st') →
  ∃ n, 0 < n ∧
    asked_labels evs
    = take n (label_of <$> ["models"; "params"; "metrics"; "plots"]) ∧
    (∀ ret, r = Ok ret → n = 4).
Proof.
  intros Hp [dd0 Hd] Hrun.
  apply init_interactive_inv in Hrun
    as [(_ & _ & [Hn|Hn])|(d & dd & lines' & Hp' & _ & Hrun & _)];
    [congruence..|].
  rewrite Hp in Hp'. injection Hp' as <-.
  apply session_inv in Hrun
    as [(_ & _ & _ & Hc & _)|(r0 & evs0 & lines0 & H0 & Hrun)];
    [by vm_compute in Hc|].
  apply ask_command_inv in H0 as [(_ & -> & -> & ->)|(Hc & _)];
    [|by vm_compute in Hc].
  replace (lremove (contains (delete "cmd" command_code_data)) primary_keys)
    with ["models"; "params"] in Hrun by (vm_compute; reflexivity).
  replace (lremove (contains (delete "cmd" command_code_data))
             (secondary_keys false))
    with ["metrics"; "plots"] in Hrun by (vm_compute; reflexivity).
  destruct Hrun as (r1 & evs1 & lines1 & H1 & Hrun).
  apply _prompts_from_labels in H1 as (ns1 & Hl1 & Hlen1).
  2:{ intros k Hk. elem_cases Hk; eexists; vm_compute; reflexivity. }
  unfold asked_labels.
  destruct r1 as [answers1|e].
  - destruct Hrun as (r2 & evs2 & H2 & -> & ->).
    apply _prompts_from_labels in H2 as (ns2 & Hl2 & Hlen2).
    2:{ intros k Hk. elem_cases Hk; eexists; vm_compute; reflexivity. }
    exists (2 + length ns2).
    change (prompt_labels (Wrote Stderr (banner name) :: [] ++ ?l))
      with (prompt_labels l).
    rewrite !prompt_labels_app, prompt_labels_shown_events, Hl1, Hl2.
    rewrite app_nil_l.
    destruct ns1 as [|a [|b [|]]]; try done.
    destruct ns2 as [|c [|d [|]]], r2; cbn [length] in Hlen2; try lia;
      (split; [lia|]); (split; [|by intros ? [= <-] || done]).
    all: rewrite <- expand_app, collapse_expand; vm_compute; reflexivity.
  - destruct Hrun as (-> & -> & _). exists (length ns1).
    change (prompt_labels (Wrote Stderr (banner name) :: [] ++ ?l))
      with (prompt_labels l).
    rewrite !prompt_labels_app, prompt_labels_shown_events, Hl1.
    rewrite app_nil_l.
    destruct ns1 as [|a [|b [|]]]; cbn [length] in Hlen1; try lia;
      (split; [cbn [length]; lia|]); (split; [|done]).
    all: rewrite collapse_expand; vm_compute; reflexivity.
Qed.

Lemma C2_prompted_keys_witness :
  ∃ n, 0 < n ∧
    asked_labels
      (init_interactive "default" 0 1
         (Some (validate_prompts_input example_fs)) true false
         (example_state ["models"; ""; "n"; "metrics.json"; "plots"] ∅
            command_code_data)).1.2
    = take n (label_of <$> ["models"; "params"; "metrics"; "plots"]) ∧
    (∀ ret,
       (init_interactive "default" 0 1
          (Some (validate_prompts_input example_fs)) true false
          (example_state ["models"; ""; "n"; "metrics.json"; "plots"] ∅
             command_code_data)).1.1 = Ok ret →
       n = 4).
Proof.
  destruct (init_interactive "default" 0 1
              (Some (validate_prompts_input example_fs)) true false
              (example_state ["models"; ""; "n"; "metrics.json"; "plots"] ∅
                 command_code_data)) as [[r evs] st'] eqn:Hrun.
  exact (C2_prompted_keys "default" 0 1
           (Some (validate_prompts_input example_fs)) true
           (example_state ["models"; ""; "n"; "metrics.json"; "plots"] ∅
              command_code_data) r evs st' eq_refl
           (ex_intro _ ∅ eq_refl) Hrun).
Defined.

(** The claim C2 as stated fails: [params] is not among the overrides, so
    its prompt is rendered too, between those of [models] and [metrics]. *)
Lemma C2_counterexample :
  asked_labels
    (init_interactive "default" 0 1
       (Some (validate_prompts_input example_fs)) true false
       (example_state ["models"; "n"; "metrics.json"; "plots"] ∅
          command_code_data)).1.2
  = label_of <$> ["models"; "params"; "metrics"; "plots"] ∧
  label_of <$> ["models"; "params"; "metrics"; "plots"]
  ≠ label_of <$> ["models"; "metrics"; "plots"].
Proof. split; [vm_compute; reflexivity|vm_compute; discriminate]. Qed.

(** ** C3 *)

(** Claim C3 fails on the code.  In an interactive run that the operator
    confirms, the heading of the questions and the rule above the review of
    the stage go to standard output: they are printed with [ui.write],
    where everything else uses [ui.error_write] or the console of standard
    error. *)
Theorem C3_stdout_is_written :
  stdout_events
    (init None "default" (Some 0) (Some 1) true false
       (example_state ["models"; "n"; "metrics.json"; "plots"; "y"] ∅
          command_code_data)).1.2
  = [ Wrote Stdout
        [Text "Enter the paths for dependencies and outputs of the command."];
      Wrote Stdout [Rule] ].
Proof. vm_compute. reflexivity. Qed.

(** ** The store during [init] *)

Lemma dict_truthy_false d : dict_truthy d = false → d = ∅.
Proof.
  unfold dict_truthy. intros H%negb_false_iff. by apply bool_decide_eq_true in H.
Qed.

(** [d or {}]: the caller's dictionary, or a new empty one when the caller
    passed none or an empty one. *)
Lemma or_empty_cases d st :
  valid_ref st d →
  ∃ l st1,
    or_empty d st = (Ok l, [], st1) ∧
    stdin st1 = stdin st ∧ repo st1 = repo st ∧
    heap st1 !! l = Some (caller_dict st d) ∧
    (∃ h, heap st1 = heap st ++ h) ∧
    (∀ l0, d = Some l0 →
           l = l0 ∨ (caller_dict st d = ∅ ∧ length (heap st) ≤ l)).
Proof.
  assert (∃ l st1,
            alloc ∅ st = (Ok l, [], st1) ∧
            stdin st1 = stdin st ∧ repo st1 = repo st ∧
            heap st1 !! l = Some ∅ ∧
            (∃ h, heap st1 = heap st ++ h) ∧ length (heap st) ≤ l)
    as (l & st1 & Ha & Hs & Hr & Hl & Hh & Hlen).
  { eexists _, _. split; [reflexivity|]. cbn. split_and!; try done.
    - rewrite lookup_app_r by done. by rewrite Nat.sub_diag.
    - by eexists. }
  destruct d as [l0|]; cbn [valid_ref caller_dict or_empty].
  - intros [m Hm]. rewrite Hm. cbn [default].
    rewrite (bind_ok _ _ _ _ _ _ (deref_eq _ _ _ Hm)).
    destruct (dict_truthy m) eqn:Ht.
    + exists l0, st. cbn [ret app]. split_and!; try done.
      * by exists []; rewrite app_nil_r.
      * intros ? [= <-]. by left.
    + apply dict_truthy_false in Ht as ->. exists l, st1. rewrite Ha.
      cbn [app]. split_and!; try done. intros ? _. by right.
  - intros _. exists l, st1. by split_and!.
Qed.

Lemma insert_insert_same {A} (l : list A) i x y :
  <[i := y]> (<[i := x]> l) = <[i := y]> l.
Proof. apply list_insert_insert_eq. Qed.

Lemma merge_inv name live validate ld lo interactive st d o r evs st' :
  heap st !! ld = Some d → heap st !! lo = Some o →
  merge name live validate ld lo interactive st = (r, evs, st') →
  repo st' = repo st ∧
  if interactive then
    ∃ dd rs lines',
      session name (o !! "cmd") dd (delete "cmd" o) (Some validate) true live
        (stdin st) = (rs, evs, lines') ∧
      stdin st' = lines' ∧
      match rs with
      | Ok answers =>
          heap st' = <[lo := delete "cmd" o]> (heap st) ++ [answers] ∧
          r = (if contains (delete "cmd" o ∪ answers) "cmd"
               then Ok (delete "cmd" o ∪ answers) else Raise AssertionError)
      | Raise e => heap st' = <[lo := delete "cmd" o]> (heap st) ∧ r = Raise e
      end
  else
    evs = [] ∧ stdin st' = stdin st ∧
    heap st' = <[ld := suppress live d]> (heap st) ∧
    ∃ o', heap st' !! lo = Some o' ∧ (o' = o ∨ o' = suppress live d) ∧
      r = (if contains (o' ∪ suppress live d) "cmd"
           then Ok (o' ∪ suppress live d) else Raise AssertionError).
Proof.
  intros Hd Ho. unfold merge. destruct interactive.
  - rewrite bind_assoc. unfold bind at 1.
    destruct (init_interactive name ld lo (Some validate) true live st)
      as [[rs evs0] st1] eqn:Hrun.
    apply init_interactive_inv in Hrun
      as [(_ & _ & [?|?])|(d0 & dd & lines' & Ho' & Hdd & Hrun & ->)];
      [congruence..|].
    rewrite Ho in Ho'. injection Ho' as <-.
    destruct rs as [answers|e].
    + set (st1 := mkState lines' _ _).
      rewrite (bind_ok (alloc answers) _ st1 _ _ _ eq_refl).
      set (st2 := with_heap (heap st1 ++ [answers]) st1).
      assert (lo < length (heap st)) as Hlo by by eapply lookup_lt_Some.
      assert (heap st2 !! length (<[lo := delete "cmd" o]> (heap st))
              = Some answers) as Ha.
      { cbn. rewrite lookup_app_r by done. by rewrite Nat.sub_diag. }
      assert (heap st2 !! lo = Some (delete "cmd" o)) as Hl.
      { cbn. rewrite lookup_app_l by by rewrite length_insert.
        by apply list_lookup_insert_eq. }
      cbn [heap] in Ha.
      rewrite (bind_ok _ _ _ _ _ _ (deref_eq _ _ _ Ha)).
      rewrite (bind_ok _ _ _ _ _ _ (deref_eq _ _ _ Hl)).
      destruct (contains (delete "cmd" o ∪ answers) "cmd") eqn:Hc;
        cbn [negb ret raise app]; intros [= <- <- <-];
        (split; [done|]); exists dd, (Ok answers), lines';
        rewrite app_nil_r, ?Hc; by split_and!.
    + intros [= <- <- <-]. split; [done|].
      exists dd, (Raise e), lines'. by split_and!.
  - assert (ld < length (heap st)) as Hld by by eapply lookup_lt_Some.
    assert (∃ st1, (if live
                    then let* _ := dict_pop ld "metrics" in
                         let* _ := dict_pop ld "plots" in ret ()
                    else let* _ := dict_pop ld "live" in ret ()) st
                   = (Ok tt, [], st1) ∧
                   st1 = with_heap (<[ld := suppress live d]> (heap st)) st)
      as (st1 & Hpops & Hst1).
    { eexists. split; [|reflexivity]. destruct live; cbn [suppress].
      - rewrite (bind_ok _ _ _ _ _ _ (dict_pop_eq _ "metrics" _ _ Hd)).
        set (st1 := with_heap _ st).
        assert (heap st1 !! ld = Some (delete "metrics" d)) as Hd1
          by by apply list_lookup_insert_eq.
        rewrite (bind_ok _ _ _ _ _ _ (dict_pop_eq _ "plots" _ _ Hd1)).
        cbn. by rewrite insert_insert_same.
      - by rewrite (bind_ok _ _ _ _ _ _ (dict_pop_eq _ "live" _ _ Hd)). }
    rewrite bind_assoc, (bind_ok _ _ _ _ _ _ Hpops), bind_ret_l.
    assert (heap st1 !! ld = Some (suppress live d)) as Hd1.
    { subst st1. by apply list_lookup_insert_eq. }
    assert (∃ o', heap st1 !! lo = Some o' ∧ (o' = o ∨ o' = suppress live d))
      as (o' & Ho1 & Ho').
    { subst st1. cbn. destruct (decide (ld = lo)) as [->|Hne].
      - exists (suppress live d). split; [|by right].
        by apply list_lookup_insert_eq.
      - exists o. split; [|by left]. by rewrite list_lookup_insert_ne. }
    rewrite (bind_ok _ _ _ _ _ _ (deref_eq _ _ _ Hd1)).
    rewrite (bind_ok _ _ _ _ _ _ (deref_eq _ _ _ Ho1)).
    destruct (contains (o' ∪ suppress live d) "cmd") eqn:Hc;
      cbn [negb ret raise app]; intros [= <- <- <-]; subst st1;
      (split; [done|]); split_and!; try done;
      exists o'; rewrite Hc; by split_and!.
Qed.

Lemma merged_context_inv name type defaults overrides interactive
    st r evs st' :
  valid_ref st defaults → valid_ref st overrides →
  merged_context name type defaults overrides interactive st = (r, evs, st') →
  ∃ ld lo st2,
    heap st2 !! ld = Some (caller_dict st defaults) ∧
    heap st2 !! lo = Some (caller_dict st overrides) ∧
    stdin st2 = stdin st ∧ repo st2 = repo st ∧
    (∃ h, heap st2 = heap st ++ h) ∧
    (∀ l0, defaults = Some l0 →
           ld = l0 ∨ (caller_dict st defaults = ∅ ∧ length (heap st) ≤ ld)) ∧
    (∀ l0, overrides = Some l0 →
           lo = l0 ∨ (caller_dict st overrides = ∅ ∧ length (heap st) ≤ lo)) ∧
    merge name (String.eqb type "live")
      (validate_prompts_input (fs (repo st))) ld lo interactive st2
    = (r, evs, st').
Proof.
  intros Hvd Hvo. unfold merged_context. rewrite bind_get.
  destruct (or_empty_cases defaults st Hvd)
    as (ld & st1 & Hor1 & Hs1 & Hr1 & Hl1 & [h1 Hh1] & Hc1).
  rewrite (bind_ok _ _ _ _ _ _ Hor1). cbn [app].
  assert (valid_ref st1 overrides) as Hvo1.
  { destruct overrides as [l0|]; [|done]. cbn in *.
    destruct Hvo as [m Hm]. exists m. rewrite Hh1. by apply lookup_app_l_Some. }
  assert (caller_dict st1 overrides = caller_dict st overrides) as Hcd.
  { destruct overrides as [l0|]; [|done]. cbn in *.
    destruct Hvo as [m Hm]. rewrite Hm, Hh1.
    by rewrite (lookup_app_l_Some _ _ _ _ Hm). }
  destruct (or_empty_cases overrides st1 Hvo1)
    as (lo & st2 & Hor2 & Hs2 & Hr2 & Hl2 & [h2 Hh2] & Hc2).
  rewrite (bind_ok _ _ _ _ _ _ Hor2). cbn [app].
  destruct (merge _ _ _ ld lo interactive st2) as [[r0 evs0] st0] eqn:Hm.
  intros [= <- <- <-]. exists ld, lo, st2. split_and!.
  - rewrite Hh2. by apply lookup_app_l_Some.
  - by rewrite Hl2, Hcd.
  - congruence.
  - congruence.
  - exists (h1 ++ h2). by rewrite Hh2, Hh1, app_assoc.
  - done.
  - intros l0 Hl0. destruct (Hc2 l0 Hl0) as [?|[? ?]]; [by left|right].
    rewrite <- Hcd. split; [done|]. rewrite Hh1, length_app in *. lia.
  - done.
Qed.

(** The validator of [init] raises a retry or the failure of a loader. *)
Lemma validate_raises fs key value printed e :
  validate_prompts_input fs key value = (printed, Raise e) →
  (∃ exc, e = RetryPrompt exc) ∨ (∃ path, e = LoaderError path) ∨
  ∃ path, e = NotADirectoryError path.
Proof.
  unfold validate_prompts_input, loadd_params.
  destruct value as [value|]; [|discriminate].
  destruct (String.eqb key "params").
  - destruct (fs value) as [| |[keys|]|]; intros [= <- <-]; eauto.
  - destruct (String.eqb key "code" || String.eqb key "data");
      [destruct (negb (path_exists fs value))|]; discriminate.
Qed.

Lemma merge_respects name live fs ld lo interactive :
  respects same_repo (session_event live) context_exn
    (merge name live (validate_prompts_input fs) ld lo interactive).
Proof.
  unfold merge. repeat respects_step;
    try (apply respects_deref; first [apply _|by right; left]);
    try (apply respects_dict_pop; first [apply _|done|by right; left]);
    try (apply respects_alloc; first [apply _|done]);
    try (by right; right; left).
  eapply respects_weaken; [apply init_interactive_respects|done..|].
  intros e [->|[->|(key & value & printed & Hv & Hne)]];
    [by right; left|by left|].
  cbn in Hv. apply validate_raises in Hv as [[exc ->]|[?|?]];
    [by destruct (Hne exc)|by right; right; right; left
    |by right; right; right; right].
Qed.

Lemma merged_context_respects name type defaults overrides interactive :
  respects same_repo (session_event (String.eqb type "live")) context_exn
    (merged_context name type defaults overrides interactive).
Proof.
  unfold merged_context. repeat respects_step;
    try (apply respects_or_empty; first [apply _|done|by right; left]).
  apply merge_respects.
Qed.

(** ** The course of [init] *)

Lemma duplicate_stage_bool st name force :
  negb force && bool_decide (is_Some (pipeline (repo st)))
  && contains (default ∅ (pipeline (repo st))) name = true
  ↔ duplicate_stage st name force.
Proof.
  unfold duplicate_stage, contains.
  rewrite !andb_true_iff, negb_true_iff, !bool_decide_eq_true. split.
  - intros [[-> [stages Hs]] Hin]. split; [done|]. exists stages.
    by rewrite Hs in Hin.
  - intros [-> (stages & Hs & Hin)]. rewrite Hs. by split_and!.
Qed.

Lemma check_stage_exists_eq {S} (s : S) st name force :
  (duplicate_stage st name force ∧
   _check_stage_exists (pipeline (repo st)) name force s
   = (Raise (DuplicateStageName (duplicate_message name)), [], s)) ∨
  (¬ duplicate_stage st name force ∧
   _check_stage_exists (pipeline (repo st)) name force s = (Ok tt, [], s)).
Proof.
  unfold _check_stage_exists.
  destruct (negb force && bool_decide (is_Some (pipeline (repo st)))
            && contains (default ∅ (pipeline (repo st))) name) eqn:Hb.
  - left. split; [by apply duplicate_stage_bool|done].
  - right. split; [|done]. intros H%duplicate_stage_bool. congruence.
Qed.

(** [assemble] prints nothing and leaves the state as it is; it raises a
    duplicate-stage error only under the condition of the pre-check. *)
Lemma assemble_inv name context force st r evs st' :
  assemble name context force st = (r, evs, st') →
  evs = [] ∧ st' = st ∧
  ∀ msg, r = Raise (DuplicateStageName msg) → duplicate_stage st name force.
Proof.
  unfold assemble. rewrite bind_get.
  assert (∀ cmd deps params m p live outs checkpoints r evs st',
            stage_create name cmd deps params m p live force outs checkpoints st
            = (r, evs, st') →
            evs = [] ∧ st' = st ∧
            ∀ msg, r = Raise (DuplicateStageName msg) →
                   duplicate_stage st name force) as Hcreate.
  { intros cmd deps params m p live outs checkpoints r0 evs0 st0.
    unfold stage_create. rewrite bind_get.
    destruct (check_stage_exists_eq st st name force) as [[Hd Hc]|[Hd Hc]].
    - rewrite (bind_fail _ _ _ _ _ _ Hc). intros [= <- <- <-]. done.
    - rewrite (bind_ok _ _ _ _ _ _ Hc). cbn [app].
      destruct (refuses (repo st) _); intros [= <- <- <-];
        split_and!; try done. }
  assert (∀ kv : list (string * list string),
            (let* cmd := getitem context "cmd" in
             stage_create name cmd
               (compact_list [context !! "code"; context !! "data"]) kv
               (compact_list [context !! "metrics"])
               (compact_list [context !! "plots"]) (context !! "live") force
               (if opt_truthy (context !! "live") then []
                else compact_list [context !! "models"])
               (if opt_truthy (context !! "live")
                then compact_list [context !! "models"] else [])) st
            = (r, evs, st') →
            evs = [] ∧ st' = st ∧
            ∀ msg, r = Raise (DuplicateStageName msg) →
                   duplicate_stage st name force) as Hrest.
  { intros kv. unfold getitem. destruct (context !! "cmd") as [cmd|].
    - rewrite bind_ret_l. apply Hcreate.
    - intros [= <- <- <-]. done. }
  destruct (opt_truthy (context !! "params")).
  - destruct (loadd_params _ _) as [kv|e] eqn:Hload.
    + rewrite bind_ret_l. apply Hrest.
    + intros [= <- <- <-]. split_and!; try done. intros msg [= ->].
      revert Hload. unfold loadd_params.
      by destruct (fs (repo st) _) as [| |[keys|]|].
  - rewrite bind_ret_l. apply Hrest.
Qed.

Lemma commit_eq stage params st :
  commit stage params st = (Ok tt, [], committed stage params st).
Proof.
  unfold commit, commit_with, commit_steps, _disable_logging,
    scm_track_file_changes, try_finally,
    committed.
  rewrite bind_get. unfold logging_disable_set, update_repo at 1.
  rewrite bind_modify. destruct st as [lines h [f pl ig ftt sg lg rf]].
  unfold stage_ignore_outs.
  destruct (opt_truthy params), (list_truthy (stage_outputs stage)) eqn:Ho;
    cbn; rewrite ?app_nil_r; try reflexivity.
  all: by destruct (stage_outputs stage); [rewrite ?app_nil_r|].
Qed.

Lemma ConfirmationPrompt_ask_raises label console default lines e evs lines' :
  ConfirmationPrompt_ask label console default lines = (Raise e, evs, lines') →
  e = EOFError.
Proof.
  unfold ConfirmationPrompt_ask.
  intros [?|(line & Hl & Hne)]%PromptBase_call_raises; [done|].
  revert Hl. unfold Confirm_process_response.
  destruct (String.eqb _ "y"); [discriminate|].
  destruct (String.eqb _ "n"); [discriminate|].
  intros [= <-]. by destruct (Hne "[prompt.invalid]Please enter Y or N").
Qed.

Lemma init_inv name type defaults overrides interactive force st r evs st' :
  init name type defaults overrides interactive force st = (r, evs, st') →
  let name' := name_or_type name type in
  (duplicate_stage st name' force ∧
   r = Raise (DuplicateStageName (duplicate_message name')) ∧
   evs = [] ∧ st' = st) ∨
  (¬ duplicate_stage st name' force ∧
   ∃ rc evs1 st1,
     merged_context name' type defaults overrides interactive st
     = (rc, evs1, st1) ∧
     match rc with
     | Raise e => r = Raise e ∧ evs = evs1 ∧ st' = st1
     | Ok context =>
         ∃ ra,
           assemble name' context force st1 = (ra, [], st1) ∧
           match ra with
           | Raise e => r = Raise e ∧ evs = evs1 ∧ st' = st1
           | Ok stage =>
               if interactive then
                 ∃ rq evsq lines',
                   ConfirmationPrompt_ask CONFIRM Stderr true (stdin st1)
                   = (rq, evsq, lines') ∧
                   evs = evs1 ++ Wrote Stdout [Rule]
                              :: Wrote Stderr [Syntax stage] :: evsq ∧
                   match rq with
                   | Raise e => r = Raise e ∧ st' = with_stdin lines' st1
                   | Ok false =>
                       r = Raise (DvcException "Aborting ...") ∧
                       st' = with_stdin lines' st1
                   | Ok true =>
                       r = Ok stage ∧
                       st' = committed stage (context !! "params")
                               (with_stdin lines' st1)
                   end
               else
                 r = Ok stage ∧ evs = evs1 ∧
                 st' = committed stage (context !! "params") st1
           end
     end).
Proof.
  intros Hrun name'. revert Hrun. unfold init. rewrite bind_get.
  fold name'.
  destruct (check_stage_exists_eq st st name' force) as [[Hd Hc]|[Hd Hc]].
  { rewrite (bind_fail _ _ _ _ _ _ Hc). intros [= <- <- <-]. by left. }
  rewrite (bind_ok _ _ _ _ _ _ Hc). cbn [app]. right. split; [done|].
  revert Hrun. unfold bind at 1.
  destruct (merged_context name' type defaults overrides interactive st)
    as [[[context|e] evs1] st1] eqn:Hctx;
    [|intros [= <- <- <-]; by eexists _, _, _].
  unfold bind at 1.
  destruct (assemble name' context force st1) as [[ra evsa] sta] eqn:Ha.
  pose proof (assemble_inv _ _ _ _ _ _ _ Ha) as (-> & -> & _).
  destruct ra as [stage|e].
  2:{ intros [= <- <- <-]. eexists _, _, _. split; [done|].
      exists (Raise e). rewrite app_nil_r. done. }
  destruct interactive; cbn [negb].
  - unfold ui_write, ui_error_write.
    rewrite bind_assoc, bind_emit, bind_emit. unfold bind at 1, console.
    destruct (ConfirmationPrompt_ask CONFIRM error_console true (stdin st1))
      as [[[[|]|e] evsq] lines'] eqn:Hq.
    + rewrite (bind_ok _ _ _ _ _ _ (commit_eq _ _ _)). cbn [ret app].
      intros [= <- <- <-]. eexists _, _, _. split; [done|].
      exists (Ok stage). split; [done|]. eexists _, _, _.
      split; [exact Hq|]. by rewrite !app_nil_r.
    + cbn [raise app]. intros [= <- <- <-]. eexists _, _, _. split; [done|].
      exists (Ok stage). split; [done|]. eexists _, _, _.
      split; [exact Hq|]. by rewrite !app_nil_r.
    + intros [= <- <- <-]. eexists _, _, _. split; [done|].
      exists (Ok stage). split; [done|]. eexists _, _, _.
      split; [exact Hq|]. done.
  - rewrite !bind_ret_l.
    rewrite (bind_ok _ _ _ _ _ _ (commit_eq _ _ _)). cbn [ret app].
    intros [= <- <- <-]. eexists _, _, _. split; [done|].
    exists (Ok stage). split; [done|]. by rewrite !app_nil_r.
Qed.

Lemma assemble_raises name context force st e evs st' :
  assemble name context force st = (Raise e, evs, st') → init_exn e.
Proof.
  unfold assemble. rewrite bind_get.
  assert (∀ cmd deps params m p live outs checkpoints evs st',
            stage_create name cmd deps params m p live force outs checkpoints st
            = (Raise e, evs, st') → init_exn e) as Hcreate.
  { intros cmd deps params m p live outs checkpoints evs0 st0.
    unfold stage_create. rewrite bind_get.
    destruct (check_stage_exists_eq st st name force) as [[Hd Hc]|[Hd Hc]].
    - rewrite (bind_fail _ _ _ _ _ _ Hc). intros [= <- _ _].
      right. left. eauto.
    - rewrite (bind_ok _ _ _ _ _ _ Hc). cbn [app].
      destruct (refuses (repo st) _) as [msg|]; [|done].
      intros [= <- _ _]. do 2 right. left. eauto. }
  assert (∀ (kv : list (string * list string)) outs checkpoints,
            (let* cmd := getitem context "cmd" in
             stage_create name cmd
               (compact_list [context !! "code"; context !! "data"]) kv
               (compact_list [context !! "metrics"])
               (compact_list [context !! "plots"]) (context !! "live") force
               outs checkpoints) st
            = (Raise e, evs, st') → init_exn e) as Hrest.
  { intros kv outs checkpoints. unfold getitem.
    destruct (context !! "cmd") as [cmd|].
    - rewrite bind_ret_l. apply Hcreate.
    - intros [= <- _ _]. do 5 right. left. eauto. }
  destruct (opt_truthy (context !! "params")).
  - destruct (loadd_params _ _) as [kv|e0] eqn:Hload.
    + rewrite bind_ret_l. apply Hrest.
    + intros [= <- _ _]. revert Hload. unfold loadd_params.
      destruct (fs (repo st) _) as [| |[keys|]|]; intros [= <-].
      * do 3 right. left. eauto.
      * do 4 right. left. eauto.
      * left. do 3 right. left. eauto.
      * left. do 4 right. eauto.
  - rewrite bind_ret_l. apply Hrest.
Qed.

(** The bound on the iterations of the loops is never reached: [init]
    returns a stage or raises one of the errors of the program. *)
Lemma init_raises name type defaults overrides interactive force
    st e evs st' :
  init name type defaults overrides interactive force st = (Raise e, evs, st') →
  init_exn e ∧ e ≠ OutOfFuel.
Proof.
  intros Hrun.
  assert (init_exn e) as He; [|split; [done|]].
  { apply init_inv in Hrun
      as [(_ & [= ->] & _)|(_ & rc & evs1 & st1 & Hctx & Hrun)].
    { right. left. eauto. }
    apply merged_context_respects in Hctx as (_ & _ & Hexn).
    destruct rc as [context|e0].
    2:{ destruct Hrun as ([= <-] & _). left. by apply Hexn. }
    destruct Hrun as (ra & Ha & Hrun).
    destruct ra as [stage|e0].
    2:{ destruct Hrun as ([= <-] & _). by eapply assemble_raises. }
    destruct interactive; [|by destruct Hrun].
    destruct Hrun as (rq & evsq & lines' & Hq & _ & Hrun).
    destruct rq as [[|]|e0]; destruct Hrun as [Hr _]; try discriminate.
    - injection Hr as ->. do 6 right. done.
    - injection Hr as <-.
      apply ConfirmationPrompt_ask_raises in Hq as ->. left. by left. }
  intros ->.
  destruct He
    as [[?|[?|[?|[[? ?]|[? ?]]]]]|[[? ?]|[[? ?]|[[? ?]|[[? ?]|[[? ?]|?]]]]]];
    discriminate.
Qed.

(** ** C9 *)

(** Claim C9.  [init] raises the duplicate-stage error exactly when the
    caller did not ask to overwrite and the pipeline file has a stage of
    the name requested ([name], or the type when no name is given);
    otherwise the pre-check passes. *)
Theorem C9_duplicate_stage_iff name type defaults overrides interactive force
    st :
  let requested := name_or_type name type in
  ((∃ msg,
      (init name type defaults overrides interactive force st).1.1
      = Raise (DuplicateStageName msg))
   ↔ duplicate_stage st requested force) ∧
  (¬ duplicate_stage st requested force →
   _check_stage_exists (pipeline (repo st)) requested force st
   = (Ok tt, [], st)).
Proof.
  intros requested. split; [split|].
  - intros [msg Hmsg].
    destruct (init name type defaults overrides interactive force st)
      as [[r evs] st'] eqn:Hrun.
    cbn [fst] in Hmsg. subst r.
    apply init_inv in Hrun
      as [(Hd & _)|(Hnd & rc & evs1 & st1 & Hctx & Hrun)]; [done|].
    exfalso. fold requested in Hnd, Hctx, Hrun.
    pose proof (merged_context_respects _ _ _ _ _ _ _ _ _ Hctx)
      as (Hrepo & _ & Hexn).
    destruct rc as [context|e].
    2:{ destruct Hrun as ([= <-] & _).
        destruct (Hexn _ eq_refl) as [?|[?|[?|[[? ?]|[? ?]]]]];
          discriminate. }
    destruct Hrun as (ra & Ha & Hrun).
    apply assemble_inv in Ha as (_ & _ & Hdup).
    destruct ra as [stage|e].
    2:{ destruct Hrun as ([= <-] & _). apply Hnd.
        destruct (Hdup _ eq_refl) as [Hf (stages & Hs & Hin)].
        split; [done|]. exists stages. by rewrite <- Hrepo. }
    destruct interactive; [|by destruct Hrun].
    destruct Hrun as (rq & evsq & lines' & Hq & _ & Hrun).
    destruct rq as [[|]|e]; destruct Hrun as [Hr _]; try discriminate.
    injection Hr as <-. by apply ConfirmationPrompt_ask_raises in Hq.
  - intros Hd. exists (duplicate_message requested).
    unfold init. rewrite bind_get. fold requested.
    destruct (check_stage_exists_eq st st requested force) as [[_ Hc]|[? _]];
      [|done].
    by rewrite (bind_fail _ _ _ _ _ _ Hc).
  - intros Hnd.
    by destruct (check_stage_exists_eq st st requested force) as [[? _]|[_ Hc]].
Qed.

Lemma C9_duplicate_stage_witness :
  duplicate_stage (taken_state [] ∅ command_code_data) "default" false ∧
  ∃ msg,
    (init None "default" (Some 0) (Some 1) true false
       (taken_state [] ∅ command_code_data)).1.1
    = Raise (DuplicateStageName msg).
Proof.
  assert (duplicate_stage (taken_state [] ∅ command_code_data) "default" false)
    as Hd.
  { split; [done|]. eexists. split; [reflexivity|].
    eexists. vm_compute. reflexivity. }
  split; [exact Hd|].
  exact (proj2 (proj1 (C9_duplicate_stage_iff None "default" (Some 0) (Some 1)
                         true false (taken_state [] ∅ command_code_data)))
           Hd).
Defined.

(** ** C4 *)

Lemma session_event_not_confirmation live s label reply :
  ¬ session_event live (Asked s Confirmation label reply).
Proof.
  intros (_ & key & _ & _ & Hc). unfold prompt_cls in Hc.
  by destruct (String.eqb key "cmd").
Qed.

(** Claim C4.  In an interactive run in which the operator answers the
    final confirmation with no, [init] raises the cancellation error and
    the repository is as it was: the pipeline file, the ignore list and
    what is registered with version control are unchanged. *)
Theorem C4_decline_aborts name type defaults overrides force
    st r evs st' reply :
  init name type defaults overrides true force st = (r, evs, st') →
  In (Asked Stderr Confirmation CONFIRM reply) evs →
  Confirm_process_response reply = Ok false →
  r = Raise (DvcException "Aborting ...") ∧ repo st' = repo st.
Proof.
  intros Hrun Hin Hno.
  apply init_inv in Hrun
    as [(_ & _ & -> & _)|(_ & rc & evs1 & st1 & Hctx & Hrun)]; [done|].
  pose proof (merged_context_respects _ _ _ _ _ _ _ _ _ Hctx)
    as (Hrepo & Hevs & _).
  assert (¬ In (Asked Stderr Confirmation CONFIRM reply) evs1) as Hnot.
  { intros H. rewrite Forall_forall in Hevs.
    apply (session_event_not_confirmation _ _ _ _
             (Hevs _ (proj2 (list_elem_of_In _ _) H))). }
  destruct rc as [context|e]; [|by destruct Hrun as (_ & -> & _)].
  destruct Hrun as (ra & _ & Hrun).
  destruct ra as [stage|e]; [|by destruct Hrun as (_ & -> & _)].
  destruct Hrun as (rq & evsq & lines' & Hq & -> & Hrun).
  apply in_app_or in Hin as [?|[?|[?|Hin]]]; try done.
  unfold ConfirmationPrompt_ask in Hq.
  assert (reply ≠ EmptyString) as Hne by by intros ->.
  pose proof (PromptBase_call_reply _ _ _ _ _ _ _ _ _ _ _ _ _ _
                Hq Hin Hno (or_introl Hne)) as ->.
  destruct Hrun as [-> ->]. split; [done|]. exact Hrepo.
Qed.

Lemma C4_decline_aborts_witness :
  (init None "default" (Some 0) (Some 1) true false
     (example_state ["models"; "n"; "metrics.json"; "plots"; " N "] ∅
        command_code_data)).1.1
  = Raise (DvcException "Aborting ...") ∧
  repo (init None "default" (Some 0) (Some 1) true false
          (example_state ["models"; "n"; "metrics.json"; "plots"; " N "] ∅
             command_code_data)).2
  = example_repo.
Proof.
  assert (In (Asked Stderr Confirmation CONFIRM " N ")
            (init None "default" (Some 0) (Some 1) true false
               (example_state ["models"; "n"; "metrics.json"; "plots"; " N "]
                  ∅ command_code_data)).1.2) as Hin.
  { vm_compute. do 10 right. left. reflexivity. }
  destruct (init None "default" (Some 0) (Some 1) true false
              (example_state ["models"; "n"; "metrics.json"; "plots"; " N "]
                 ∅ command_code_data)) as [[r evs] st'] eqn:Hrun.
  exact (C4_decline_aborts _ _ _ _ _ _ _ _ _ _ Hrun Hin eq_refl).
Defined.

(** ** The keys of the other output mode *)





Lemma suppress_lookup live d key :
  key ∈ secondary_keys (negb live) → suppress live d !! key = None.
Proof.
  intros Hk. unfold suppress.
  destruct live; cbn in Hk; elem_cases Hk.
  - by rewrite lookup_delete_ne, lookup_delete_eq.
  - by rewrite lookup_delete_eq.
  - by rewrite lookup_delete_eq.
Qed.

(** ** C10 *)

(** The caller's dictionary after an update in place of the dictionary
    [init] works on, which is the caller's own unless that was empty. *)
Lemma caller_lookup_after (h0 h t : list (gmap string string)) l0 l' m
    (f : gmap string string → gmap string string) :
  h0 !! l0 = Some m →
  l' = l0 ∨ (m = ∅ ∧ length h0 ≤ l') →
  f ∅ = ∅ →
  (<[l' := f m]> (h0 ++ h) ++ t) !! l0 = Some (f m).
Proof.
  intros Hm Hl Hf.
  assert (l0 < length h0) as Hlt by by eapply lookup_lt_Some.
  rewrite lookup_app_l by (rewrite length_insert, length_app; lia).
  destruct Hl as [->|[-> Hge]].
  - apply list_lookup_insert_eq. rewrite length_app. lia.
  - rewrite list_lookup_insert_ne by lia.
    rewrite lookup_app_l by done. by rewrite Hm, Hf.
Qed.

Lemma suppress_empty live : suppress live ∅ = ∅.
Proof. unfold suppress. destruct live; by rewrite !delete_empty. Qed.

(** Claim C10, as the code has it.  When the pre-check passes, [init]
    updates the caller's dictionaries in place: an interactive run removes
    [cmd] from the overrides the caller passed, and a run that is not
    interactive removes [metrics] and [plots] (live) or [live] (otherwise)
    from the defaults the caller passed; whatever the run does next. *)
Theorem C10_caller_mappings name type defaults overrides interactive force
    st r evs st' :
  valid_ref st defaults → valid_ref st overrides →
  ¬ duplicate_stage st (name_or_type name type) force →
  init name type defaults overrides interactive force st = (r, evs, st') →
  (interactive = true →
   ∀ lo, overrides = Some lo →
         heap st' !! lo = Some (delete "cmd" (caller_dict st overrides))) ∧
  (interactive = false →
   ∀ ld, defaults = Some ld →
         heap st' !! ld
         = Some (suppress (String.eqb type "live") (caller_dict st defaults))).
Proof.
  intros Hvd Hvo Hnd Hrun.
  apply init_inv in Hrun
    as [(Hd & _)|(_ & rc & evs1 & st1 & Hctx & Hrun)]; [done|].
  assert (heap st' = heap st1) as ->.
  { destruct rc as [context|e]; [|by destruct Hrun as (_ & _ & ->)].
    destruct Hrun as (ra & _ & Hrun).
    destruct ra as [stage|e]; [|by destruct Hrun as (_ & _ & ->)].
    destruct interactive.
    - destruct Hrun as (rq & evsq & lines' & _ & _ & Hrun).
      by destruct rq as [[|]|e]; destruct Hrun as [_ ->].
    - by destruct Hrun as (_ & _ & ->). }
  clear Hrun.
  apply merged_context_inv in Hctx
    as (ld' & lo' & st2 & Hld & Hlo & _ & _ & [h Hh] & Hcd & Hco & Hrun);
    [|done..].
  apply (merge_inv _ _ _ _ _ _ _ _ _ _ _ _ Hld Hlo) in Hrun as [_ Hrun].
  split; intros -> l0 ->; cbn [valid_ref caller_dict] in *.
  - destruct Hvo as [m Hm]. rewrite Hm in *. cbn [default] in *.
    destruct Hrun as (dd & rs & lines' & _ & _ & Hrun).
    specialize (Hco _ eq_refl).
    destruct rs as [answers|e]; destruct Hrun as [-> _]; rewrite Hh.
    + by apply caller_lookup_after; [..|apply delete_empty].
    + rewrite <- (app_nil_r (<[lo':=_]> _)).
      by apply caller_lookup_after; [..|apply delete_empty].
  - destruct Hvd as [m Hm]. rewrite Hm in *. cbn [default] in *.
    destruct Hrun as (_ & _ & -> & _).
    specialize (Hcd _ eq_refl). rewrite Hh.
    rewrite <- (app_nil_r (<[ld':=_]> _)).
    by apply caller_lookup_after; [..|apply suppress_empty].
Qed.

Lemma C10_caller_mappings_witness :
  command_code_data !! "cmd" = Some "python train.py" ∧
  heap (init None "default" (Some 0) (Some 1) true false
          (example_state ["models"] ∅ command_code_data)).2 !! 1
  = Some (delete "cmd" command_code_data) ∧
  all_supplied !! "live" = None ∧
  heap (init None "default" (Some 0) (Some 1) false false
          (example_state [] (<["live" := "dvclive"]> all_supplied)
             command_code_data)).2 !! 0
  = Some (delete "live" (<["live" := "dvclive"]> all_supplied)).
Proof.
  split; [vm_compute; reflexivity|]. split; [|split; [vm_compute; reflexivity|]].
  - destruct (init None "default" (Some 0) (Some 1) true false
                (example_state ["models"] ∅ command_code_data))
      as [[r evs] st'] eqn:Hrun.
    refine (proj1 (C10_caller_mappings _ _ _ _ _ _ _ _ _ _ _ _ _ Hrun)
              eq_refl 1 eq_refl).
    + by eexists.
    + by eexists.
    + intros [_ (stages & Hs & _)]. discriminate Hs.
  - destruct (init None "default" (Some 0) (Some 1) false false
                (example_state [] (<["live" := "dvclive"]> all_supplied)
                   command_code_data))
      as [[r evs] st'] eqn:Hrun.
    refine (proj2 (C10_caller_mappings _ _ _ _ _ _ _ _ _ _ _ _ _ Hrun)
              eq_refl 0 eq_refl).
    + by eexists.
    + by eexists.
    + intros [_ (stages & Hs & _)]. discriminate Hs.
Defined.

(** The claim C10 as stated fails for an interactive run that the
    pre-check stops: the duplicate-stage error is raised before the session
    starts, and the overrides of the caller still hold [cmd]. *)
Lemma C10_counterexample :
  (init None "default" (Some 0) (Some 1) true false
     (taken_state ["models"] ∅ command_code_data)).1.1
  = Raise (DuplicateStageName (duplicate_message "default")) ∧
  heap (init None "default" (Some 0) (Some 1) true false
          (taken_state ["models"] ∅ command_code_data)).2 !! 1
  = Some command_code_data ∧
  command_code_data !! "cmd" = Some "python train.py".
Proof. split_and!; vm_compute; reflexivity. Qed.

(** * Further properties *)

(** ** One line of input at a prompt *)

Lemma ask_process_response c label console default :
  ask c label console default
  = PromptBase_call c (process_response c) console label (Some <$> default).
Proof. by destruct c. Qed.

Lemma PROMPTS_label_of key :
  is_Some (PROMPTS !! key) → PROMPTS !! key = Some (label_of key).
Proof. intros [label H]. by rewrite (label_of_known _ _ H). Qed.

(** What [_prompt] does with the first line of its input. *)
Lemma _prompt_line key validator default line rest :
  is_Some (PROMPTS !! key) →
  _prompt key validator default (line :: rest) =
  match line_result (process_response (prompt_cls key)) (Some <$> default) line
  with
  | Ok value =>
      match validation validator key value with
      | (printed, Ok _) =>
          (Ok value, asked key line :: print_events printed, rest)
      | (printed, Raise (RetryPrompt exc)) =>
          match _prompt key validator default rest with
          | (r, evs, lines') =>
              (r, asked key line
                  :: (print_events printed ++ [retry_line exc]) ++ evs, lines')
          end
      | (printed, Raise e) =>
          (Raise e, asked key line :: print_events printed, rest)
      end
  | Raise (InvalidResponse msg) =>
      match _prompt key validator default rest with
      | (r, evs, lines') =>
          (r, asked key line :: Wrote Stderr [Text msg] :: evs, lines')
      end
  | Raise e => (Raise e, [asked key line], rest)
  end.
Proof.
  intros Hkey. apply PROMPTS_label_of in Hkey.
  pose proof (_prompt_unfold key validator default rest) as Hrest.
  rewrite _prompt_round_eq, Hkey, ask_process_response in Hrest.
  rewrite (_prompt_unfold _ _ _ (line :: rest)).
  rewrite _prompt_round_eq, Hkey, ask_process_response.
  unfold error_console, asked in *. rewrite PromptBase_call_line.
  destruct (line_result _ _ line) as [value|e].
  - destruct (validation validator key value) as [printed [u|e]]; [done|].
    by destruct e.
  - destruct e; try done. rewrite Hrest.
    destruct (PromptBase_call _ _ _ _ _ rest) as [[[value|e] evs] lines'];
      [|done].
    destruct (validation validator key value) as [printed [u|e]]; [done|].
    destruct e; try done.
    by destruct (_prompt key validator default lines') as [[r evs2] lines2].
Qed.

(** X1.  [_prompt] for a key that has no entry in [PROMPTS] raises
    [KeyError] at once: no prompt is rendered, no input is read and the
    validator is not called. *)
Theorem prompt_unknown_key key validator default lines :
  PROMPTS !! key = None →
  _prompt key validator default lines = (Raise (KeyError key), [], lines).
Proof.
  intros Hkey. by rewrite _prompt_unfold, _prompt_round_eq, Hkey.
Qed.

Lemma prompt_unknown_key_witness :
  _prompt "name" (Some refuse_all) (Some "x") ["train"]
  = (Raise (KeyError "name"), [], ["train"]).
Proof. apply prompt_unknown_key. vm_compute. reflexivity. Defined.

(** X2.  At the end of the input, [_prompt] renders the prompt of its key
    on standard error, writes the blank line of [RichInputMixin.get_input]
    on standard error and passes [EOFError] on; the validator is not
    called. *)
Theorem prompt_end_of_input key validator default :
  is_Some (PROMPTS !! key) →
  _prompt key validator default []
  = (Raise EOFError,
     [AskedEOF Stderr (prompt_cls key) (label_of key); Wrote Stderr []], []).
Proof.
  intros Hkey. apply PROMPTS_label_of in Hkey.
  rewrite _prompt_unfold, _prompt_round_eq, Hkey, ask_process_response.
  unfold error_console. by rewrite PromptBase_call_nil.
Qed.

Lemma prompt_end_of_input_witness :
  _prompt "models" (Some refuse_all) (Some "models") []
  = (Raise EOFError,
     [AskedEOF Stderr Skippable (label_of "models"); Wrote Stderr []], []).
Proof.
  apply (prompt_end_of_input "models"). eexists. vm_compute. reflexivity.
Defined.

(** X3.  With a default, the empty line yields the default as it is: it is
    not stripped, not checked for being empty and not compared with the
    skip value; the validator is shown the default. *)
Theorem prompt_empty_line_default key validator d rest printed :
  is_Some (PROMPTS !! key) →
  validation validator key (Some d) = (printed, Ok tt) →
  _prompt key validator (Some d) ("" :: rest)
  = (Ok (Some d), asked key "" :: print_events printed, rest).
Proof.
  intros Hkey Hval. rewrite (_prompt_line _ _ _ _ _ Hkey).
  cbn [line_result fmap option_fmap option_map]. by rewrite Hval.
Qed.

Lemma prompt_empty_line_default_witness :
  _prompt "plots" (Some (validate_prompts_input example_fs)) (Some "n")
    [""; "plots"]
  = (Ok (Some "n"), [asked "plots" ""], ["plots"]).
Proof.
  apply (prompt_empty_line_default "plots" _ "n" ["plots"] []).
  - eexists. vm_compute. reflexivity.
  - reflexivity.
Defined.

Lemma process_response_blank c line :
  strip line = "" →
  process_response c line = Raise (InvalidResponse RESPONSE_REQUIRED).
Proof.
  intros Hblank. unfold process_response, SkippablePrompt_process_response.
  rewrite (RequiredPrompt_blank _ Hblank). by destruct c.
Qed.

Lemma process_response_typed c line :
  strip line ≠ "" →
  c ≠ Skippable ∨ strip line ≠ skip_value →
  process_response c line = Ok (Some (strip line)).
Proof.
  intros Hne Hskip.
  unfold process_response, SkippablePrompt_process_response,
    RequiredPrompt_process_response, Prompt_process_response, truthy.
  destruct (String.eqb_spec (strip line) "") as [|_]; [done|]. cbn [negb].
  destruct c; try done.
  destruct Hskip as [|Hskip]; [done|].
  by destruct (String.eqb_spec (strip line) skip_value).
Qed.

Lemma strip_empty_line line : strip line ≠ "" → line ≠ "".
Proof. by intros H ->. Qed.

(** X4.  A response of white space only is rejected by the prompt of any
    key, skippable ones included, also when a default was given (only the
    empty line stands for the default): "Response required" is printed on
    standard error and the prompt is rendered again, the validator not
    being called. *)
Theorem prompt_blank_rejected key validator default line rest :
  is_Some (PROMPTS !! key) →
  strip line = "" →
  line ≠ "" ∨ default = None →
  _prompt key validator default (line :: rest)
  = match _prompt key validator default rest with
    | (r, evs, lines') =>
        (r, asked key line :: response_required :: evs, lines')
    end.
Proof.
  intros Hkey Hblank Hline. rewrite (_prompt_line _ _ _ _ _ Hkey).
  assert (line_result (process_response (prompt_cls key)) (Some <$> default)
            line = Raise (InvalidResponse RESPONSE_REQUIRED)) as ->; [|done].
  unfold line_result. rewrite (process_response_blank _ _ Hblank).
  destruct line; [|done]. destruct Hline as [?| ->]; done.
Qed.

Lemma prompt_blank_rejected_witness :
  _prompt "data" None (Some "data") ["  "; "n"]
  = (Ok None,
     [asked "data" "  "; response_required; asked "data" "n"], []).
Proof.
  apply (prompt_blank_rejected "data" None (Some "data") "  " ["n"]).
  - eexists. vm_compute. reflexivity.
  - vm_compute. reflexivity.
  - left. discriminate.
Defined.

(** X5.  A response that is not blank is taken stripped of the white space
    around it, whatever the default; for [cmd] that holds for the skip
    value too, which is a command like any other there. *)
Theorem prompt_typed_value key validator default line rest printed :
  is_Some (PROMPTS !! key) →
  strip line ≠ "" →
  key = "cmd" ∨ strip line ≠ skip_value →
  validation validator key (Some (strip line)) = (printed, Ok tt) →
  _prompt key validator default (line :: rest)
  = (Ok (Some (strip line)), asked key line :: print_events printed, rest).
Proof.
  intros Hkey Hne Hskip Hval. rewrite (_prompt_line _ _ _ _ _ Hkey).
  rewrite (line_result_accept _ _ _ (Some (strip line))).
  - by rewrite Hval.
  - apply process_response_typed; [done|].
    destruct Hskip as [->|?]; [by left|by right].
  - left. by apply strip_empty_line.
Qed.

Lemma prompt_typed_value_witness :
  _prompt "cmd" None (Some "python train.py") ["  n "; "x"]
  = (Ok (Some "n"), [asked "cmd" "  n "], ["x"]).
Proof.
  apply (prompt_typed_value "cmd" None (Some "python train.py") "  n " ["x"] []).
  - eexists. vm_compute. reflexivity.
  - vm_compute. discriminate.
  - by left.
  - reflexivity.
Defined.

(** X6.  The validator of [init] never refuses a value for [code] or
    [data]: a response that names no path of the workspace is accepted at
    once, after a warning on standard error, and one that names a path is
    accepted silently. *)
Theorem prompt_missing_path_warned fs key default line rest :
  key = "code" ∨ key = "data" →
  strip line ≠ "" →
  strip line ≠ skip_value →
  _prompt key (Some (validate_prompts_input fs)) default (line :: rest)
  = (Ok (Some (strip line)),
     asked key line
     :: (if path_exists fs (strip line) then []
         else [missing_path_warning (strip line)]),
     rest).
Proof.
  intros Hkey Hne Hskip.
  assert (is_Some (PROMPTS !! key)) as Hknown.
  { destruct Hkey as [-> | ->]; eexists; vm_compute; reflexivity. }
  rewrite (_prompt_line _ _ _ _ _ Hknown).
  rewrite (line_result_accept _ _ _ (Some (strip line)));
    [|apply process_response_typed; [done|by right]
     |left; by apply strip_empty_line].
  unfold missing_path_warning.
  destruct Hkey as [-> | ->]; cbn; by destruct (path_exists fs (strip line)).
Qed.

Lemma prompt_missing_path_warned_witness :
  _prompt "code" (Some (validate_prompts_input example_fs)) None
    [" train.py"; "x"]
  = (Ok (Some "train.py"),
     [asked "code" " train.py"; missing_path_warning "train.py"], ["x"]).
Proof.
  apply (prompt_missing_path_warned example_fs "code" None " train.py" ["x"]).
  - by left.
  - vm_compute. discriminate.
  - vm_compute. discriminate.
Defined.

(** ** What a prompt returns *)

Lemma process_response_ok c line v :
  process_response c line = Ok v →
  (v = Some (strip line) ∧ strip line ≠ "" ∧
   (c = Skippable → strip line ≠ skip_value)) ∨
  (v = None ∧ c = Skippable).
Proof.
  unfold process_response, SkippablePrompt_process_response,
    RequiredPrompt_process_response, Prompt_process_response, truthy.
  destruct (String.eqb_spec (strip line) "") as [|Hne]; cbn [negb].
  { by destruct c. }
  destruct c; try (intros [= <-]; left; by split_and!).
  destruct (String.eqb_spec (strip line) skip_value) as [|Hskip];
    intros [= <-]; [by right|left; by split_and!].
Qed.

(** A run of [_prompt] reads at least one line when it returns, and never
    gives lines back. *)
Lemma _prompt_reads key validator default lines r evs lines' :
  _prompt key validator default lines = (r, evs, lines') →
  length lines' ≤ length lines ∧
  (∀ v, r = Ok v → length lines' < length lines).
Proof.
  apply (_prompt_induction key validator default
           (λ lines r _ lines',
              length lines' ≤ length lines ∧
              (∀ v, r = Ok v → length lines' < length lines)));
    clear lines r evs lines'.
  - done.
  - intros label lines e evs lines' _ Hask.
    apply ask_reads in Hask as [? _]. by split.
  - intros label lines value evs lines' printed u _ Hask _.
    apply ask_reads in Hask as [? Hlt]. split; [done|]. intros v _.
    by eapply Hlt.
  - intros label lines value evs lines' printed e _ Hask _ _.
    apply ask_reads in Hask as [? _]. by split.
  - intros label lines value evs lines' printed exc r evs2 lines2
      _ Hask _ _ [Hle Hlt].
    apply ask_reads in Hask as [? _]. split; [lia|].
    intros v Hv. specialize (Hlt v Hv). lia.
Qed.

(** X7.  The value [_prompt] returns is the default it was given, or a
    response stripped of the white space around it, which is not empty and,
    for a skippable key, not the skip value, or, for a skippable key only,
    no value; at least one line of the input has been read. *)
Theorem prompt_value_forms key validator default lines value evs lines' :
  _prompt key validator default lines = (Ok value, evs, lines') →
  length lines' < length lines ∧
  (value = None → key ≠ "cmd") ∧
  ∀ v, value = Some v →
       default = Some v ∨
       ∃ line, v = strip line ∧ v ≠ "" ∧ (key ≠ "cmd" → v ≠ skip_value).
Proof.
  intros Hrun. split; [by eapply _prompt_reads|].
  refine (_prompt_induction key validator default
            (λ _ r _ _,
               ∀ value, r = Ok value →
                 (value = None → key ≠ "cmd") ∧
                 ∀ v, value = Some v →
                   default = Some v ∨
                   ∃ line, v = strip line ∧ v ≠ "" ∧
                           (key ≠ "cmd" → v ≠ skip_value))
            _ _ _ _ _ _ _ _ _ Hrun value eq_refl);
    [done|done| |done|]; clear.
  - intros label lines0 value0 evs0 lines0' printed u _ Hask _ ? [= <-].
    rewrite ask_process_response in Hask.
    apply PromptBase_call_value in Hask as [Hd|[line Hline]].
    + split.
      * intros ->. by destruct default.
      * intros v ->. left. destruct default; by simplify_eq/=.
    + apply process_response_ok in Hline as [(-> & Hne & Hskip)|[-> Hc]].
      * split; [done|]. intros v [= <-]. right. exists line.
        split_and!; [done..|].
        intros Hkey. apply Hskip. by apply prompt_cls_skippable.
      * split; [|done]. intros _ ->. by vm_compute in Hc.
  - intros label lines0 value0 evs0 lines0' printed exc r evs2 lines2
      _ _ _ _ IH value1 ->. by apply IH.
Qed.

Lemma prompt_value_forms_witness :
  length ["x"] < length ["  "; " src "; "x"] ∧
  (Some "src" = None → "code" ≠ "cmd") ∧
  ∀ v, Some "src" = Some v →
       Some "code" = Some v ∨
       ∃ line, v = strip line ∧ v ≠ "" ∧ ("code" ≠ "cmd" → v ≠ skip_value).
Proof.
  apply (prompt_value_forms "code" (Some (validate_prompts_input example_fs))
           (Some "code") ["  "; " src "; "x"] (Some "src")
           [asked "code" "  "; response_required; asked "code" " src "]).
  vm_compute. reflexivity.
Defined.

(** ** [_prompts] *)

Lemma _prompts_from_keys acc keys defaults validator lines m evs lines' :
  _prompts_from acc keys defaults validator lines = (Ok m, evs, lines') →
  (∀ key, is_Some (m !! key) ↔ key ∈ keys ∨ is_Some (acc !! key)) ∧
  (∀ key, key ∈ keys → is_Some (PROMPTS !! key)) ∧
  length lines' + length keys ≤ length lines.
Proof.
  revert acc lines evs. induction keys as [|k keys IH]; intros acc lines evs.
  - cbn. intros [= <- _ <-]. split_and!; [|by intros ? ?%elem_of_nil|lia].
    intros key. split; [by right|]. by intros [?%elem_of_nil|].
  - intros Hrun.
    apply _prompts_from_inv in Hrun as (rk & evk & linesk & Hk & Hrest).
    destruct rk as [value|e]; [|by destruct Hrest].
    destruct Hrest as (evs2 & Hrest & _).
    apply IH in Hrest as (Hdom & Hknown & Hlen).
    pose proof (_prompt_reads _ _ _ _ _ _ _ Hk) as [_ Hlt].
    specialize (Hlt _ eq_refl).
    split_and!.
    + intros key. rewrite Hdom, elem_of_cons.
      destruct (decide (key = k)) as [->|Hne].
      * rewrite lookup_insert_eq. split; [by left; left|by right].
      * rewrite lookup_insert_ne by done.
        split; [intros [?|?]; [by left; right|by right]|].
        intros [[?|?]|?]; [done|by left|by right].
    + intros key [->|Hkey]%elem_of_cons; [|by apply Hknown].
      destruct (PROMPTS !! k) eqn:Hp; [done|].
      by rewrite _prompt_unfold, _prompt_round_eq, Hp in Hk.
    + cbn [length]. lia.
Qed.

(** X8.  When [_prompts] returns, the mapping has an entry, possibly
    without a value, for exactly the keys it was given, every one of which
    has a prompt text, and at least one line of input has been read for
    each key of the list. *)
Theorem prompts_keys keys defaults validator lines ret evs lines' :
  _prompts keys defaults validator lines = (Ok ret, evs, lines') →
  (∀ key, is_Some (ret !! key) ↔ key ∈ keys) ∧
  (∀ key, key ∈ keys → is_Some (PROMPTS !! key)) ∧
  length lines' + length keys ≤ length lines.
Proof.
  intros Hrun. apply _prompts_from_keys in Hrun as (Hdom & Hknown & Hlen).
  split_and!; [|done..].
  intros key. rewrite Hdom, lookup_empty. split; [|by left].
  by intros [?|[? ?]].
Qed.

Lemma prompts_keys_witness :
  (∀ key,
     is_Some ((list_to_map [("models", Some "models"); ("params", None)]
               : gmap string (option string)) !! key)
     ↔ key ∈ ["models"; "params"]) ∧
  (∀ key, key ∈ ["models"; "params"] → is_Some (PROMPTS !! key)) ∧
  length ["x"] + length ["models"; "params"] ≤ length [" "; "models"; "n"; "x"].
Proof.
  apply (prompts_keys ["models"; "params"] ∅ None [" "; "models"; "n"; "x"]
           (list_to_map [("models", Some "models"); ("params", None)])
           [asked "models" " "; response_required; asked "models" "models";
            asked "params" "n"]).
  vm_compute. reflexivity.
Defined.

(** ** The interactive session *)

Lemma compact_lookup_Some (m : gmap string (option string)) key v :
  compact m !! key = Some v → m !! key = Some (Some v) ∧ v ≠ "".
Proof.
  unfold compact. rewrite lookup_omap.
  destruct (m !! key) as [[s|]|]; try done. cbn. unfold truthy.
  destruct (String.eqb_spec s ""); [done|]. by intros [= <-].
Qed.

Lemma not_contains {V} (d : gmap string V) key :
  contains d key = false → d !! key = None.
Proof.
  unfold contains. intros H%bool_decide_eq_false.
  by apply eq_None_not_Some.
Qed.

Lemma session_key_not_cmd live key :
  key ∈ primary_keys ++ secondary_keys live → key ≠ "cmd".
Proof.
  intros Hk ->. unfold primary_keys in Hk.
  destruct live; cbn in Hk; elem_cases Hk.
Qed.

(** Where an entry of the result of the session comes from. *)
Lemma session_result_lookup name command defaults provided validator show_tree
    live lines ret evs lines' key v :
  session name command defaults provided validator show_tree live lines
  = (Ok ret, evs, lines') →
  ret !! key = Some v →
  v ≠ "" ∧
  ((key = "cmd" ∧ (opt_truthy command = true → command = Some v)) ∨
   (key ∈ primary_keys ++ secondary_keys live ∧ provided !! key = None)).
Proof.
  intros Hrun Hkey.
  apply session_inv in Hrun
    as [([= ->] & _)|(r0 & evs0 & lines0 & H0 & Hrun)].
  { by rewrite lookup_empty in Hkey. }
  destruct r0 as [ret0|e]; [|by destruct Hrun].
  destruct Hrun as (r1 & evs1 & lines1 & H1 & Hrun).
  destruct r1 as [answers1|e]; [|by destruct Hrun].
  destruct Hrun as (r2 & evs2 & H2 & _ & Hret).
  destruct r2 as [answers2|e]; [|done]. injection Hret as ->.
  apply compact_lookup_Some in Hkey as [Hkey Hne]. split; [done|].
  apply lookup_union_Some_raw in Hkey as [Hkey|[_ Hkey]];
    [|apply lookup_union_Some_raw in Hkey as [Hkey|[_ Hkey]]].
  - right.
    destruct (_prompts_from_lookup _ _ _ _ _ _ _ _ _ H2 (mk_is_Some _ _ Hkey))
      as [Hin|[? Hin]]; [|by rewrite lookup_empty in Hin].
    split; [apply elem_of_app; right; by eapply elem_of_lremove|].
    apply not_contains. by eapply lremove_pred.
  - right.
    destruct (_prompts_from_lookup _ _ _ _ _ _ _ _ _ H1 (mk_is_Some _ _ Hkey))
      as [Hin|[? Hin]]; [|by rewrite lookup_empty in Hin].
    split; [apply elem_of_app; left; by eapply elem_of_lremove|].
    apply not_contains. by eapply lremove_pred.
  - left.
    apply ask_command_inv in H0
      as [(Hc & [= ->] & _)|(Hc & rc & evsc & _ & Hrc)].
    + apply lookup_insert_Some in Hkey as [[<- ->]|[_ Hkey]];
        [done|by rewrite lookup_empty in Hkey].
    + destruct rc as [value|e]; [|by destruct Hrc].
      destruct Hrc as [[= ->] _].
      apply lookup_insert_Some in Hkey as [[<- _]|[_ Hkey]];
        [|by rewrite lookup_empty in Hkey].
      split; [done|]. by rewrite Hc.
Qed.

(** X9.  The mapping the interactive session returns holds no empty value;
    its command is the one the overrides supplied when that is not empty;
    and every other entry is for a primary key or a secondary key of the
    output mode that the overrides did not supply. *)
Theorem session_answers name defaults provided validator show_tree live
    st d ret evs st' key v :
  heap st !! provided = Some d →
  init_interactive name defaults provided validator show_tree live st
  = (Ok ret, evs, st') →
  ret !! key = Some v →
  v ≠ "" ∧
  ((key = "cmd" ∧ ∀ c, d !! "cmd" = Some c → c ≠ "" → v = c) ∨
   (key ∈ primary_keys ++ secondary_keys live ∧ d !! key = None)).
Proof.
  intros Hp Hrun Hkey.
  apply init_interactive_inv in Hrun
    as [(? & _)|(d' & dd & lines' & Hp' & _ & Hrun & _)]; [done|].
  rewrite Hp in Hp'. injection Hp' as <-.
  destruct (session_result_lookup _ _ _ _ _ _ _ _ _ _ _ _ _ Hrun Hkey)
    as (Hne & [[-> Hc]|[Hin Hnone]]).
  - split; [done|]. left. split; [done|]. intros c Hd Hcne.
    rewrite Hd in Hc. cbn in Hc. unfold truthy in Hc.
    destruct (String.eqb_spec c ""); [done|].
    by specialize (Hc eq_refl) as [= ->].
  - split; [done|]. right. split; [done|].
    by rewrite lookup_delete_ne in Hnone
      by (symmetry; by eapply session_key_not_cmd).
Qed.

Lemma session_answers_witness :
  "metrics.json" ≠ "" ∧
  (("metrics" = "cmd" ∧
    ∀ c, command_code_data !! "cmd" = Some c → c ≠ "" → "metrics.json" = c) ∨
   ("metrics" ∈ primary_keys ++ secondary_keys false ∧
    command_code_data !! "metrics" = None)).
Proof.
  assert ((init_interactive "default" 0 1
             (Some (validate_prompts_input example_fs)) true false
             (example_state ["models"; "n"; "metrics.json"; "n"] ∅
                command_code_data)).1.1
          = Ok (list_to_map [("cmd", "python train.py"); ("models", "models");
                             ("metrics", "metrics.json")])) as Hret.
  { vm_compute. reflexivity. }
  destruct (init_interactive "default" 0 1
              (Some (validate_prompts_input example_fs)) true false
              (example_state ["models"; "n"; "metrics.json"; "n"] ∅
                 command_code_data)) as [[r evs] st'] eqn:Hrun.
  cbn [fst] in Hret. subst r.
  refine (session_answers _ _ _ _ _ _ _ command_code_data _ _ _
            "metrics" "metrics.json" _ Hrun _).
  - reflexivity.
  - vm_compute. reflexivity.
Defined.

Lemma _prompts_from_reads acc keys defaults validator lines r evs lines' :
  _prompts_from acc keys defaults validator lines = (r, evs, lines') →
  length lines' ≤ length lines.
Proof.
  revert acc lines evs. induction keys as [|k keys IH]; intros acc lines evs.
  - cbn. by intros [= _ _ <-].
  - intros Hrun.
    apply _prompts_from_inv in Hrun as (rk & evk & linesk & Hk & Hrest).
    apply _prompt_reads in Hk as [Hle _].
    destruct rk as [value|e].
    + destruct Hrest as (evs2 & Hrest & _). apply IH in Hrest. lia.
    + by destruct Hrest as (_ & _ & ->).
Qed.

Lemma session_reads name command defaults provided validator show_tree live
    lines r evs lines' :
  session name command defaults provided validator show_tree live lines
  = (r, evs, lines') →
  length lines' ≤ length lines.
Proof.
  intros Hrun.
  apply session_inv in Hrun
    as [(_ & _ & -> & _)|(r0 & evs0 & lines0 & H0 & Hrun)]; [done|].
  assert (length lines0 ≤ length lines) as Hle0.
  { apply ask_command_inv in H0
      as [(_ & _ & _ & ->)|(_ & rc & evsc & Hc & _)]; [done|].
    by apply _prompt_reads in Hc as [? _]. }
  destruct r0 as [ret0|e]; [|by destruct Hrun as (_ & _ & ->)].
  destruct Hrun as (r1 & evs1 & lines1 & H1 & Hrun).
  apply _prompts_from_reads in H1.
  destruct r1 as [answers1|e]; [|destruct Hrun as (_ & _ & ->); lia].
  destruct Hrun as (r2 & evs2 & H2 & _).
  apply _prompts_from_reads in H2. lia.
Qed.

(** X10.  However the interactive session ends, the one update it makes to
    the dictionaries it is given is the removal of [cmd] from the overrides;
    it leaves the defaults and the repository as they are and only
    consumes input. *)
Theorem session_frame name defaults provided validator show_tree live
    st d r evs st' :
  heap st !! provided = Some d →
  is_Some (heap st !! defaults) →
  init_interactive name defaults provided validator show_tree live st
  = (r, evs, st') →
  heap st' = <[provided := delete "cmd" d]> (heap st) ∧
  (defaults ≠ provided → heap st' !! defaults = heap st !! defaults) ∧
  repo st' = repo st ∧
  length (stdin st') ≤ length (stdin st).
Proof.
  intros Hp Hd Hrun.
  pose proof (init_interactive_respects _ _ _ _ _ _ _ _ _ _ Hrun) as [Hrepo _].
  apply init_interactive_inv in Hrun
    as [(_ & _ & [Hn|Hn])|(d' & dd & lines' & Hp' & _ & Hrun & ->)].
  { by rewrite Hp in Hn. }
  { rewrite Hn in Hd. by destruct Hd. }
  rewrite Hp in Hp'. injection Hp' as <-. cbn [heap stdin].
  split_and!; [done| |done|].
  - intros Hne. by rewrite list_lookup_insert_ne.
  - by eapply session_reads.
Qed.

Lemma session_frame_witness :
  heap (init_interactive "default" 0 1 None true false
          (example_state ["models"] all_supplied command_code_data)).2
  = <[1 := delete "cmd" command_code_data]> [all_supplied; command_code_data] ∧
  (0 ≠ 1 →
   heap (init_interactive "default" 0 1 None true false
           (example_state ["models"] all_supplied command_code_data)).2 !! 0
   = Some all_supplied) ∧
  repo (init_interactive "default" 0 1 None true false
          (example_state ["models"] all_supplied command_code_data)).2
  = example_repo ∧
  length (stdin (init_interactive "default" 0 1 None true false
                   (example_state ["models"] all_supplied command_code_data)).2)
  ≤ 1.
Proof.
  destruct (init_interactive "default" 0 1 None true false
              (example_state ["models"] all_supplied command_code_data))
    as [[r evs] st'] eqn:Hrun.
  exact (session_frame "default" 0 1 None true false
           (example_state ["models"] all_supplied command_code_data)
           command_code_data r evs st' eq_refl (ex_intro _ all_supplied eq_refl)
           Hrun).
Defined.

(** ** The order of the prompts *)

Lemma fst_zip_take {A B} (l : list A) (k : list B) :
  (zip l k).*1 = take (length k) l.
Proof.
  revert k. induction l as [|a l IH]; intros [|b k]; try done.
  cbn. by rewrite IH.
Qed.

Lemma zip_app_short {A B} (l1 l2 : list A) (k : list B) :
  length k ≤ length l1 → zip (l1 ++ l2) k = zip l1 k.
Proof.
  revert k. induction l1 as [|a l1 IH]; intros [|b k] Hlen; cbn in *;
    try done; try lia.
  - by destruct l2.
  - f_equal. apply IH. lia.
Qed.

Lemma collapse_NoDup l : NoDup l → collapse l = l.
Proof.
  induction 1 as [|a l Ha _ IH]; [done|].
  rewrite collapse_cons, IH. destruct l as [|b l]; [done|]. cbn [head].
  destruct (String.eqb_spec a b) as [->|]; [|done].
  exfalso. apply Ha. by left.
Qed.

Lemma sublist_lremove pred seq : lremove pred seq `sublist_of` seq.
Proof.
  induction seq as [|a seq IH]; [done|]. cbn.
  destruct (negb (pred a)); by constructor.
Qed.

Lemma keys_to_ask_sublist command provided live :
  keys_to_ask command provided live `sublist_of` session_keys live.
Proof.
  unfold keys_to_ask, session_keys.
  assert (lremove (contains provided) primary_keys
          ++ lremove (contains provided) (secondary_keys live)
          `sublist_of` primary_keys ++ secondary_keys live) as Hsub.
  { apply sublist_app; apply sublist_lremove. }
  destruct (opt_truthy command); [by apply sublist_cons|].
  destruct (_ || _); [by apply sublist_skip|apply sublist_nil_l].
Qed.

Lemma NoDup_session_labels live : NoDup (label_of <$> session_keys live).
Proof. apply (bool_decide_unpack _). by destruct live; vm_compute. Qed.

Lemma NoDup_keys_to_ask_labels command provided live n :
  NoDup (label_of <$> take n (keys_to_ask command provided live)).
Proof.
  eapply sublist_NoDup; [apply (NoDup_session_labels live)|].
  apply fmap_sublist. etrans; [apply sublist_take|apply keys_to_ask_sublist].
Qed.

Lemma expand_zip_app (l1 l2 : list string) (n1 n2 : list nat) :
  length n1 = length l1 →
  expand (zip (l1 ++ l2) (n1 ++ n2))
  = expand (zip l1 n1) ++ expand (zip l2 n2).
Proof.
  intros Hlen. rewrite zip_with_app by done. apply expand_app.
Qed.

Lemma expand_zip_short (l1 l2 : list string) (ns : list nat) :
  length ns ≤ length l1 →
  expand (zip (l1 ++ l2) ns) = expand (zip l1 ns).
Proof. intros Hlen. by rewrite zip_app_short. Qed.

Lemma length_nonempty {A B} (l : list A) (k : list B) :
  length l = length k → k ≠ [] → l ≠ [].
Proof. by destruct l, k. Qed.

(** The labels a session renders: those of the keys to ask, in order, each
    once or more, up to the key at which the session stops. *)
Lemma session_labels name command defaults provided validator show_tree live
    lines r evs lines' :
  session name command defaults provided validator show_tree live lines
  = (r, evs, lines') →
  let keys := keys_to_ask command provided live in
  ∃ ns,
    prompt_labels evs = expand (zip (label_of <$> keys) ns) ∧
    length ns ≤ length keys ∧
    (∀ ret, r = Ok ret → length ns = length keys) ∧
    (keys ≠ [] → ns ≠ []).
Proof.
  intros Hrun keys. subst keys.
  set (primary := lremove (contains provided) primary_keys).
  set (secondary := lremove (contains provided) (secondary_keys live)).
  destruct (opt_truthy command || list_truthy primary || list_truthy secondary)
    eqn:Hcond.
  2:{ apply orb_false_iff in Hcond as [[Hc Hp]%orb_false_iff Hs].
      unfold session in Hrun. fold primary secondary in Hrun.
      rewrite Hc, Hp, Hs in Hrun. injection Hrun as <- <- <-.
      unfold keys_to_ask. fold primary secondary. rewrite Hc, Hp, Hs.
      exists []. by split_and!. }
  apply session_inv in Hrun
    as [(_ & _ & _ & Hc & Hp & Hs)|(r0 & evs0 & lines0 & H0 & Hrun)].
  { fold primary in Hp. fold secondary in Hs. by rewrite Hc, Hp, Hs in Hcond. }
  fold primary secondary in Hrun.
  assert (∀ k, k ∈ primary → is_Some (PROMPTS !! k)) as Hknown1.
  { intros k Hk%elem_of_lremove. apply (session_keys_known live).
    right. apply elem_of_app. by left. }
  assert (∀ k, k ∈ secondary → is_Some (PROMPTS !! k)) as Hknown2.
  { intros k Hk%elem_of_lremove. apply (session_keys_known live).
    right. apply elem_of_app. by right. }
  assert (∃ ks0,
            keys_to_ask command provided live = ks0 ++ primary ++ secondary ∧
            (if opt_truthy command then ks0 = [] else ks0 = ["cmd"]))
    as (ks0 & -> & Hks0).
  { unfold keys_to_ask. fold primary secondary.
    destruct (opt_truthy command); [by exists []|].
    cbn [orb] in Hcond. rewrite Hcond. by exists ["cmd"]. }
  assert (∃ ns0,
            prompt_labels evs0 = expand (zip (label_of <$> ks0) ns0) ∧
            length ns0 ≤ length ks0 ∧
            (∀ ret0, r0 = Ok ret0 → length ns0 = length ks0) ∧
            (∀ e, r0 = Raise e → ns0 ≠ [])) as (ns0 & Hl0 & Hle0 & Hok0 & Hne0).
  { apply ask_command_inv in H0
      as [(Hc & -> & -> & _)|(Hc & rc & evsc & Hc0 & Hrc)];
      rewrite Hc in Hks0; subst ks0.
    - exists []. by split_and!.
    - apply (_prompt_labels _ _ _ _ _ _ _ _ PROMPTS_cmd) in Hc0 as [n Hn].
      exists [n]. split_and!; try done.
      destruct rc as [value|e]; destruct Hrc as [_ ->];
        [|by rewrite Hn; cbn; rewrite app_nil_r].
      rewrite prompt_labels_app, Hn. cbn. by rewrite !app_nil_r. }
  rewrite !fmap_app.
  destruct r0 as [ret0|e].
  2:{ destruct Hrun as (-> & -> & _). exists ns0.
      change (prompt_labels (Wrote Stderr (banner name) :: evs0))
        with (prompt_labels evs0).
      rewrite expand_zip_short by by rewrite length_fmap.
      split_and!; [done| |done|intros _; by eapply Hne0].
      rewrite ?length_app, ?length_fmap. lia. }
  specialize (Hok0 _ eq_refl).
  destruct Hrun as (r1 & evs1 & lines1 & H1 & Hrun).
  apply (_prompts_from_labels _ _ _ _ _ _ _ _ Hknown1) in H1
    as (ns1 & Hl1 & Hlen1).
  destruct r1 as [answers1|e].
  2:{ destruct Hrun as (-> & -> & _). exists (ns0 ++ ns1).
      change (prompt_labels (Wrote Stderr (banner name) :: ?l))
        with (prompt_labels l).
      rewrite !prompt_labels_app, prompt_labels_shown_events, Hl0, Hl1.
      rewrite expand_zip_app by by rewrite length_fmap.
      rewrite expand_zip_short by (rewrite length_fmap; lia).
      split_and!; [done| |done|].
      - rewrite ?length_app, ?length_fmap. lia.
      - intros _ [_ ->]%app_eq_nil. cbn in Hlen1. lia. }
  destruct Hrun as (r2 & evs2 & H2 & -> & ->).
  apply (_prompts_from_labels _ _ _ _ _ _ _ _ Hknown2) in H2
    as (ns2 & Hl2 & Hlen2).
  exists (ns0 ++ ns1 ++ ns2).
  change (prompt_labels (Wrote Stderr (banner name) :: ?l))
    with (prompt_labels l).
  rewrite !prompt_labels_app, prompt_labels_shown_events, Hl0, Hl1, Hl2.
  rewrite !expand_zip_app by by rewrite length_fmap.
  assert (length ns2 ≤ length secondary ∧
          (∀ ret, r2 = Ok ret → length ns2 = length secondary) ∧
          (secondary ≠ [] → ns2 ≠ [])) as (Hle2 & Hok2 & Hne2).
  { destruct r2 as [answers2|e2].
    - split_and!; [lia|intros ? _; lia|].
      by apply length_nonempty.
    - split_and!; [lia|done|]. intros _ ->. cbn in Hlen2. lia. }
  split_and!; [done| | |].
  - rewrite ?length_app, ?length_fmap. lia.
  - intros ret Hret. destruct r2; [|done].
    rewrite ?length_app, ?length_fmap. specialize (Hok2 _ eq_refl). lia.
  - intros Hkeys Hns. apply app_eq_nil in Hns as [-> [-> ->]%app_eq_nil].
    clearbody primary secondary. cbn in Hok0, Hlen1.
    destruct ks0; [|done]. destruct primary; [|done].
    destruct secondary; [done|]. by apply Hne2.
Qed.

Lemma prompt_labels_take_zip (keys : list string) (ns : list nat) :
  NoDup (label_of <$> take (length ns) keys) →
  collapse (expand (zip (label_of <$> keys) ns))
  = label_of <$> take (length ns) keys.
Proof.
  intros Hdup.
  by rewrite collapse_expand, fst_zip_take, <- fmap_take, collapse_NoDup.
Qed.

(** X11.  The session renders its prompts in a fixed order: the command
    unless the overrides supplied one, then [code], [data], [models] and
    [params], then [metrics] and [plots] (or [live] in the live mode),
    leaving out every key the overrides supplied; the renderings of one key
    follow one another; all keys are reached when the session returns and,
    when it is cut short, the first ones of them. *)
Theorem session_prompt_order name defaults provided validator show_tree live
    st d r evs st' :
  heap st !! provided = Some d →
  is_Some (heap st !! defaults) →
  init_interactive name defaults provided validator show_tree live st
  = (r, evs, st') →
  let keys := keys_to_ask (d !! "cmd") (delete "cmd" d) live in
  ∃ n, n ≤ length keys ∧
    asked_labels evs = label_of <$> take n keys ∧
    (∀ ret, r = Ok ret → n = length keys) ∧
    (keys ≠ [] → 0 < n).
Proof.
  intros Hp Hd Hrun keys.
  apply init_interactive_inv in Hrun
    as [(_ & _ & [Hn|Hn])|(d' & dd & lines' & Hp' & _ & Hrun & _)].
  { by rewrite Hp in Hn. }
  { rewrite Hn in Hd. by destruct Hd. }
  rewrite Hp in Hp'. injection Hp' as <-.
  apply session_labels in Hrun as (ns & Hl & Hle & Hok & Hne).
  fold keys in Hl, Hle, Hok, Hne.
  exists (length ns). split_and!; [done| |done|].
  - unfold asked_labels. rewrite Hl. apply prompt_labels_take_zip.
    apply NoDup_keys_to_ask_labels.
  - intros Hkeys. specialize (Hne Hkeys). destruct ns; [done|]. cbn. lia.
Qed.

Lemma session_prompt_order_witness :
  ∃ n, n ≤ length (keys_to_ask (command_code_data !! "cmd")
                     (delete "cmd" command_code_data) true) ∧
    asked_labels
      (init_interactive "live" 0 1 None true true
         (example_state ["models"; " "; "n"] ∅ command_code_data)).1.2
    = label_of <$> take n (keys_to_ask (command_code_data !! "cmd")
                             (delete "cmd" command_code_data) true) ∧
    (∀ ret,
       (init_interactive "live" 0 1 None true true
          (example_state ["models"; " "; "n"] ∅ command_code_data)).1.1
       = Ok ret →
       n = length (keys_to_ask (command_code_data !! "cmd")
                     (delete "cmd" command_code_data) true)) ∧
    (keys_to_ask (command_code_data !! "cmd")
       (delete "cmd" command_code_data) true ≠ [] → 0 < n).
Proof.
  destruct (init_interactive "live" 0 1 None true true
              (example_state ["models"; " "; "n"] ∅ command_code_data))
    as [[r evs] st'] eqn:Hrun.
  exact (session_prompt_order "live" 0 1 None true true
           (example_state ["models"; " "; "n"] ∅ command_code_data)
           command_code_data r evs st' eq_refl (ex_intro _ ∅ eq_refl) Hrun).
Defined.

(** ** C5 *)







(** ** The stage [init] makes *)

Lemma compact_list_truthy l v : v ∈ compact_list l → v ≠ "".
Proof.
  unfold compact_list. intros (o & _ & Ho)%list_elem_of_omap.
  destruct o as [s|]; [|done]. cbn in Ho. unfold truthy in Ho.
  destruct (String.eqb_spec s ""); [done|]. by injection Ho as <-.
Qed.

Lemma length_compact_list l : length (compact_list l) ≤ length l.
Proof.
  unfold compact_list. induction l as [|o l IH]; [done|]. cbn.
  destruct (keep_truthy o); cbn; lia.
Qed.

(** The stage [assemble] returns, field by field. *)
Lemma assemble_ok name context force st stage evs st' :
  assemble name context force st = (Ok stage, evs, st') →
  ∃ cmd params_kv,
    context !! "cmd" = Some cmd ∧
    (if opt_truthy (context !! "params")
     then ∃ p keys, context !! "params" = Some p ∧
                    fs (repo st) p = File (Some keys) ∧
                    params_kv = [(p, keys)]
     else params_kv = []) ∧
    stage = mkStage name cmd
              (compact_list [context !! "code"; context !! "data"])
              params_kv
              (compact_list [context !! "metrics"])
              (compact_list [context !! "plots"])
              (context !! "live")
              (if opt_truthy (context !! "live") then []
               else compact_list [context !! "models"])
              (if opt_truthy (context !! "live")
               then compact_list [context !! "models"] else []).
Proof.
  unfold assemble. rewrite bind_get.
  assert (∀ kv : list (string * list string),
            (let* cmd := getitem context "cmd" in
             stage_create name cmd
               (compact_list [context !! "code"; context !! "data"]) kv
               (compact_list [context !! "metrics"])
               (compact_list [context !! "plots"]) (context !! "live") force
               (if opt_truthy (context !! "live") then []
                else compact_list [context !! "models"])
               (if opt_truthy (context !! "live")
                then compact_list [context !! "models"] else [])) st
            = (Ok stage, evs, st') →
            ∃ cmd, context !! "cmd" = Some cmd ∧
              stage = mkStage name cmd
                        (compact_list [context !! "code"; context !! "data"])
                        kv
                        (compact_list [context !! "metrics"])
                        (compact_list [context !! "plots"])
                        (context !! "live")
                        (if opt_truthy (context !! "live") then []
                         else compact_list [context !! "models"])
                        (if opt_truthy (context !! "live")
                         then compact_list [context !! "models"] else []))
    as Hrest.
  { intros kv. unfold getitem. destruct (context !! "cmd") as [cmd|]; [|done].
    rewrite bind_ret_l. unfold stage_create. rewrite bind_get.
    destruct (check_stage_exists_eq st st name force) as [[_ Hc]|[_ Hc]].
    - by rewrite (bind_fail _ _ _ _ _ _ Hc).
    - rewrite (bind_ok _ _ _ _ _ _ Hc). cbn [app].
      destruct (refuses (repo st) _); [done|].
      intros [= <- _ _]. by exists cmd. }
  destruct (opt_truthy (context !! "params")) eqn:Hp.
  - destruct (context !! "params") as [p|] eqn:Hparams; [|done].
    change (default "" (Some p)) with p. unfold loadd_params.
    destruct (fs (repo st) p) as [| |[keys|]|] eqn:Hfs; try done.
    rewrite bind_ret_l. intros (cmd & Hcmd & ->)%Hrest.
    exists cmd, [(p, keys)]. split_and!; [done| |done]. by exists p, keys.
  - rewrite bind_ret_l. intros (cmd & Hcmd & ->)%Hrest. by exists cmd, [].
Qed.

(** What [assemble] raises when the context holds a command. *)
Lemma assemble_raises_cmd name context force st e evs st' :
  is_Some (context !! "cmd") →
  assemble name context force st = (Raise e, evs, st') →
  (∃ msg, e = DuplicateStageName msg ∨ e = StageError msg) ∨
  ∃ path, e = FileNotFoundError path ∨ e = IsADirectoryError path ∨
          e = LoaderError path ∨ e = NotADirectoryError path.
Proof.
  intros [cmd Hcmd]. unfold assemble. rewrite bind_get.
  assert (∀ (kv : list (string * list string)) outs checkpoints,
            (let* cmd := getitem context "cmd" in
             stage_create name cmd
               (compact_list [context !! "code"; context !! "data"]) kv
               (compact_list [context !! "metrics"])
               (compact_list [context !! "plots"]) (context !! "live") force
               outs checkpoints) st
            = (Raise e, evs, st') →
            ∃ msg, e = DuplicateStageName msg ∨ e = StageError msg)
    as Hrest.
  { intros kv outs checkpoints. unfold getitem. rewrite Hcmd, bind_ret_l.
    unfold stage_create. rewrite bind_get.
    destruct (check_stage_exists_eq st st name force) as [[_ Hc]|[_ Hc]].
    - rewrite (bind_fail _ _ _ _ _ _ Hc). intros [= <- _ _]. eauto.
    - rewrite (bind_ok _ _ _ _ _ _ Hc). cbn [app].
      destruct (refuses (repo st) _) as [msg|]; [|done].
      intros [= <- _ _]. eauto. }
  destruct (opt_truthy (context !! "params")).
  - destruct (loadd_params _ _) as [kv|e0] eqn:Hload.
    + rewrite bind_ret_l. intros ?%Hrest. by left.
    + intros [= <- _ _]. right. revert Hload. unfold loadd_params.
      destruct (fs (repo st) _) as [| |[keys|]|]; intros [= <-]; eauto 6.
  - rewrite bind_ret_l. intros ?%Hrest. by left.
Qed.

(** The stage of a run of [init] that returns one. *)
Lemma init_ok_inv name type defaults overrides interactive force
    st stage evs st' :
  init name type defaults overrides interactive force st = (Ok stage, evs, st') →
  ∃ context evs1 st1 lines',
    merged_context (name_or_type name type) type defaults overrides
      interactive st = (Ok context, evs1, st1) ∧
    assemble (name_or_type name type) context force st1 = (Ok stage, [], st1) ∧
    st' = committed stage (context !! "params") (with_stdin lines' st1) ∧
    repo st1 = repo st.
Proof.
  intros Hrun.
  apply init_inv in Hrun as [(_ & ? & _)|(_ & rc & evs1 & st1 & Hctx & Hrun)];
    [done|].
  pose proof (merged_context_respects _ _ _ _ _ _ _ _ _ Hctx) as (Hrepo & _).
  destruct rc as [context|e]; [|by destruct Hrun].
  destruct Hrun as (ra & Ha & Hrun).
  destruct ra as [stage'|e]; [|by destruct Hrun].
  destruct interactive.
  - destruct Hrun as (rq & evsq & lines' & _ & _ & Hrun).
    destruct rq as [[|]|e]; destruct Hrun as [[= ->] ->].
    by exists context, evs1, st1, lines'.
  - destruct Hrun as ([= ->] & _ & ->).
    exists context, evs1, st1, (stdin st1). by destruct st1.
Qed.

(** X12.  The stage [init] returns is named by the name given or, without
    one, by the type.  Its model path is a checkpoint when it logs live
    outputs and an ordinary output otherwise, never both; it has at most
    one parameters file, which the workspace holds with the keys recorded;
    and no dependency, output, metrics or plots path of it is empty. *)
Theorem init_stage_shape name type defaults overrides interactive force
    st stage evs st' :
  init name type defaults overrides interactive force st = (Ok stage, evs, st') →
  stage_name stage = name_or_type name type ∧
  (if opt_truthy (stage_live stage)
   then stage_outs stage = [] ∧ length (stage_checkpoints stage) ≤ 1
   else stage_checkpoints stage = [] ∧ length (stage_outs stage) ≤ 1) ∧
  length (stage_params stage) ≤ 1 ∧
  (∀ path keys, (path, keys) ∈ stage_params stage →
                fs (repo st) path = File (Some keys)) ∧
  (∀ path, path ∈ stage_deps stage ++ stage_outs stage
                  ++ stage_checkpoints stage ++ stage_metrics_no_cache stage
                  ++ stage_plots_no_cache stage →
           path ≠ "").
Proof.
  intros (context & evs1 & st1 & lines' & _ & Ha & _ & Hrepo)%init_ok_inv.
  apply assemble_ok in Ha as (cmd & kv & _ & Hkv & ->).
  cbn [stage_name stage_deps stage_params stage_metrics_no_cache
       stage_plots_no_cache stage_live stage_outs stage_checkpoints].
  split_and!.
  - done.
  - destruct (opt_truthy (context !! "live")); (split; [done|]);
      apply (length_compact_list [_]).
  - destruct (opt_truthy (context !! "params")).
    + by destruct Hkv as (p & keys & _ & _ & ->).
    + subst kv. cbn. lia.
  - intros path keys Hin. rewrite <- Hrepo.
    destruct (opt_truthy (context !! "params")).
    + destruct Hkv as (p & keys' & _ & Hfs & ->).
      by apply list_elem_of_singleton in Hin as [= -> ->].
    + subst kv. by apply elem_of_nil in Hin.
  - intros path Hin.
    repeat (apply elem_of_app in Hin as [Hin|Hin]);
      try (by eapply compact_list_truthy);
      destruct (opt_truthy (context !! "live"));
      try (by eapply compact_list_truthy); by apply elem_of_nil in Hin.
Qed.

Lemma init_stage_shape_witness :
  ∃ stage,
    (init None "live" (Some 0) (Some 1) false false
       (example_state [] (<["live" := "dvclive"]> all_supplied)
          command_code_data)).1.1 = Ok stage ∧
    stage_name stage = name_or_type None "live" ∧
    (if opt_truthy (stage_live stage)
     then stage_outs stage = [] ∧ length (stage_checkpoints stage) ≤ 1
     else stage_checkpoints stage = [] ∧ length (stage_outs stage) ≤ 1) ∧
    length (stage_params stage) ≤ 1 ∧
    (∀ path keys, (path, keys) ∈ stage_params stage →
                  example_fs path = File (Some keys)) ∧
    (∀ path, path ∈ stage_deps stage ++ stage_outs stage
                    ++ stage_checkpoints stage ++ stage_metrics_no_cache stage
                    ++ stage_plots_no_cache stage →
             path ≠ "").
Proof.
  assert ((init None "live" (Some 0) (Some 1) false false
             (example_state [] (<["live" := "dvclive"]> all_supplied)
                command_code_data)).1.1
          = Ok (mkStage "live" "python train.py" ["src"; "data"]
                  [("params.yaml", ["lr"; "epochs"])] [] [] (Some "dvclive")
                  [] ["models"])) as Hret.
  { vm_compute. reflexivity. }
  eexists. split; [exact Hret|].
  destruct (init None "live" (Some 0) (Some 1) false false
              (example_state [] (<["live" := "dvclive"]> all_supplied)
                 command_code_data)) as [[r evs] st'] eqn:Hrun.
  cbn [fst] in Hret. subst r.
  exact (init_stage_shape _ _ _ _ _ _ _ _ _ _ Hrun).
Defined.

(** ** Failures of [init] *)

Lemma PromptBase_call_accepts {A} c (pr : string → result A) console label
    default lines v evs lines' :
  PromptBase_call c pr console label default lines = (Ok v, evs, lines') →
  ∃ reply,
    In (Asked console c label reply) evs ∧
    line_result pr default reply = Ok v.
Proof.
  revert evs lines'. induction lines as [|line rest IH]; intros evs lines'.
  - rewrite PromptBase_call_nil. discriminate.
  - rewrite PromptBase_call_line.
    destruct (PromptBase_call c pr console label default rest)
      as [[r0 evs0] lines0].
    destruct (line_result pr default line) as [v0|e0] eqn:Hl.
    + intros [= <- <- <-]. exists line. split; [by left|done].
    + destruct e0; try discriminate. intros [= -> <- <-].
      destruct (IH _ _ eq_refl) as (reply & Hin & Hr).
      exists reply. split; [by right; right|done].
Qed.

(** X13.  An interactive run of [init] commits nothing unless the final
    confirmation is answered: when no reply to it is the empty line or
    reads as yes (the prompts before it ended the run, the input ended, or
    the operator declined), [init] raises, and the pipeline file, the
    ignore list, what is registered with version control and the logging
    level are as they were before the run. *)
Theorem init_commit_needs_yes name type defaults overrides force
    st r evs st' :
  init name type defaults overrides true force st = (r, evs, st') →
  (∀ reply, In (Asked Stderr Confirmation CONFIRM reply) evs →
            reply ≠ "" ∧ Confirm_process_response reply ≠ Ok true) →
  (∃ e, r = Raise e) ∧ repo st' = repo st.
Proof.
  intros Hrun Hno.
  apply init_inv in Hrun
    as [(_ & -> & _ & ->)|(_ & rc & evs1 & st1 & Hctx & Hrun)]; [by eauto|].
  pose proof (merged_context_respects _ _ _ _ _ _ _ _ _ Hctx) as (Hrepo & _).
  destruct rc as [context|e0]; [|destruct Hrun as (-> & _ & ->); by eauto].
  destruct Hrun as (ra & _ & Hrun).
  destruct ra as [stage|e0]; [|destruct Hrun as (-> & _ & ->); by eauto].
  destruct Hrun as (rq & evsq & lines' & Hq & -> & Hrun).
  destruct rq as [[|]|e0]; try (destruct Hrun as [-> ->]; by eauto).
  exfalso. apply PromptBase_call_accepts in Hq as (reply & Hin & Hline).
  destruct (Hno reply) as [Hne Hyes].
  { apply in_or_app. right. right. by right. }
  apply Hyes. unfold line_result in Hline. by destruct reply.
Qed.

Lemma init_commit_needs_yes_witness :
  (∃ e,
     (init None "default" (Some 0) (Some 1) true false
        (example_state ["n"; "n"; "n"; "n"; "maybe"] ∅ command_code_data)).1.1
     = Raise e) ∧
  repo (init None "default" (Some 0) (Some 1) true false
          (example_state ["n"; "n"; "n"; "n"; "maybe"] ∅ command_code_data)).2
  = example_repo.
Proof.
  assert (∀ reply,
            In (Asked Stderr Confirmation CONFIRM reply)
              (init None "default" (Some 0) (Some 1) true false
                 (example_state ["n"; "n"; "n"; "n"; "maybe"] ∅
                    command_code_data)).1.2 →
            reply ≠ "" ∧ Confirm_process_response reply ≠ Ok true) as Hno.
  { intros reply Hin. vm_compute in Hin.
    repeat (destruct Hin as [Hin|Hin]; [try discriminate Hin|]);
      [|destruct Hin].
    injection Hin as <-. split; vm_compute; discriminate. }
  destruct (init None "default" (Some 0) (Some 1) true false
              (example_state ["n"; "n"; "n"; "n"; "maybe"] ∅ command_code_data))
    as [[r evs] st'] eqn:Hrun.
  exact (init_commit_needs_yes _ _ _ _ _ _ _ _ _ Hrun Hno).
Defined.

(** ** Runs without interaction *)

(** X15.  A run of [init] that is not interactive prints nothing, renders
    no prompt and reads no input, whether it returns a stage or raises. *)
Theorem init_batch_silent name type defaults overrides force st r evs st' :
  valid_ref st defaults → valid_ref st overrides →
  init name type defaults overrides false force st = (r, evs, st') →
  evs = [] ∧ stdin st' = stdin st.
Proof.
  intros Hvd Hvo Hrun.
  apply init_inv in Hrun
    as [(_ & _ & -> & ->)|(_ & rc & evs1 & st1 & Hctx & Hrun)]; [done|].
  apply merged_context_inv in Hctx
    as (ld & lo & st2 & Hld & Hlo & Hin & _ & _ & _ & _ & Hctx); [|done..].
  apply (merge_inv _ _ _ _ _ _ _ _ _ _ _ _ Hld Hlo) in Hctx
    as (_ & -> & Hin' & _).
  rewrite Hin in Hin'.
  destruct rc as [context|e]; [|by destruct Hrun as (_ & -> & ->)].
  destruct Hrun as (ra & _ & Hrun).
  destruct ra as [stage|e]; [|by destruct Hrun as (_ & -> & ->)].
  by destruct Hrun as (_ & -> & ->).
Qed.

Lemma init_batch_silent_witness :
  (init None "default" (Some 0) (Some 1) false false
     (example_state ["unread"] all_supplied command_code_data)).1.2 = [] ∧
  stdin (init None "default" (Some 0) (Some 1) false false
           (example_state ["unread"] all_supplied command_code_data)).2
  = ["unread"].
Proof.
  destruct (init None "default" (Some 0) (Some 1) false false
              (example_state ["unread"] all_supplied command_code_data))
    as [[r evs] st'] eqn:Hrun.
  exact (init_batch_silent None "default" (Some 0) (Some 1) false
           (example_state ["unread"] all_supplied command_code_data) r evs st'
           (ex_intro _ all_supplied eq_refl)
           (ex_intro _ command_code_data eq_refl) Hrun).
Defined.

(** ** The streams of [init] *)

Lemma validate_prints_stderr fs key value printed r :
  validate_prompts_input fs key value = (printed, r) →
  Forall expected_stream (print_events printed).
Proof.
  unfold validate_prompts_input. destruct value as [value|].
  2:{ intros [= <- _]. constructor. }
  destruct (String.eqb key "params").
  { destruct (loadd_params fs value) as [?|[]]; intros [= <- _]; constructor. }
  destruct (String.eqb key "code" || String.eqb key "data");
    [destruct (negb (path_exists fs value))|]; intros [= <- _];
    repeat constructor.
Qed.

Lemma _prompt_expected_stream key validator default :
  validator = None ∨ (∃ fs, validator = Some (validate_prompts_input fs)) →
  respects any_state expected_stream (λ _, True)
    (_prompt key validator default).
Proof.
  intros Hv. apply _prompt_respects; try done.
  - intros label [s objs|s c l reply|s c l] _; cbn.
    + by intros [-> | ->].
    + by intros (-> & _).
    + by intros (-> & _).
  - intros value printed r Hval. split; [|done].
    destruct Hv as [->|[fs ->]].
    + injection Hval as <- _. constructor.
    + by eapply validate_prints_stderr.
Qed.

Lemma _prompts_expected_stream keys defaults validator :
  validator = None ∨ (∃ fs, validator = Some (validate_prompts_input fs)) →
  respects any_state expected_stream (λ _, True)
    (_prompts keys defaults validator).
Proof.
  intros Hv. apply _prompts_from_respects. intros key _.
  by apply _prompt_expected_stream.
Qed.

Lemma session_expected_stream name command defaults provided fs show_tree live :
  respects any_state expected_stream (λ _, True)
    (session name command defaults provided
       (Some (validate_prompts_input fs)) show_tree live).
Proof.
  unfold session, ask_command, show_workspace.
  repeat respects_step;
    try (apply _prompts_expected_stream; by eauto);
    try exact I.
  - by left.
  - right. by left.
Qed.

Lemma merged_context_expected_stream name type defaults overrides interactive :
  respects any_state expected_stream (λ _, True)
    (merged_context name type defaults overrides interactive).
Proof.
  unfold merged_context, merge, init_interactive.
  repeat respects_step;
    try (apply respects_or_empty; first [apply _|done]);
    try (apply respects_deref; first [apply _|done]);
    try (apply respects_dict_pop; first [apply _|done]);
    try (apply respects_alloc; first [apply _|done]);
    try done.
  apply respects_console; [done|]. apply session_expected_stream.
Qed.

Lemma PromptBase_call_expected_stream {A} c (pr : string → result A) label
    default :
  respects any_state expected_stream (λ _, True)
    (PromptBase_call c pr Stderr label default).
Proof.
  intros lines r evs lines' Hcall. split_and!; [done| |done].
  apply PromptBase_call_events in Hcall.
  eapply Forall_impl; [exact Hcall|].
  intros [s objs|s c' l reply|s c' l]; cbn.
  - by intros [-> | ->].
  - by intros (-> & _).
  - by intros (-> & _).
Qed.

(** X16.  Whatever the input, [init] renders every prompt on standard
    error, and all it prints goes to standard error too, except the three
    things it prints with [ui.write]: the blank line after the prompt of
    the command, the heading of the questions and the rule above the review
    of the stage. *)
Theorem init_streams name type defaults overrides interactive force
    st r evs st' :
  init name type defaults overrides interactive force st = (r, evs, st') →
  Forall expected_stream evs.
Proof.
  revert st r evs st'.
  cut (respects any_state expected_stream (λ _, True)
         (init name type defaults overrides interactive force)).
  { intros H st r evs st' Hrun. by apply H in Hrun as (_ & ? & _). }
  unfold init, _check_stage_exists.
  apply respects_bind; [apply _|apply respects_get; apply _|intros st].
  apply respects_bind; [apply _| |intros _].
  { repeat respects_step; done. }
  apply respects_bind; [apply _|apply merged_context_expected_stream|].
  intros context.
  apply respects_bind; [apply _| |intros stage].
  { unfold assemble, stage_create, _check_stage_exists.
    repeat respects_step; done. }
  apply respects_bind; [apply _| |intros _].
  { repeat respects_step; try done. right. by right. }
  apply respects_bind; [apply _| |intros confirmed].
  { destruct (negb interactive); [apply respects_ret; apply _|].
    apply respects_console; [done|].
    apply PromptBase_call_expected_stream. }
  unfold commit, commit_with, commit_steps, _disable_logging,
    scm_track_file_changes, stage_dump,
    stage_ignore_outs, scm_track_file, logging_disable_set, update_repo.
  repeat respects_step;
    try (apply respects_modify; first [apply _|done]); done.
Qed.

Lemma init_streams_witness :
  Forall expected_stream
    (init None "default" (Some 0) (Some 1) true false
       (example_state [""; "train"; "src"; "n"; "n"; "n"; "n"; "n"; "n"; "maybe"]
          ∅ ∅)).1.2.
Proof.
  destruct (init None "default" (Some 0) (Some 1) true false
              (example_state
                 [""; "train"; "src"; "n"; "n"; "n"; "n"; "n"; "n"; "maybe"]
                 ∅ ∅)) as [[r evs] st'] eqn:Hrun.
  exact (init_streams _ _ _ _ _ _ _ _ _ _ Hrun).
Defined.

(** ** The commit *)





(** ** The final confirmation *)

Lemma PromptBase_call_answer {A} c (pr : string → result A) console label
    default lines r evs lines' s c' l reply v :
  PromptBase_call c pr console label default lines = (r, evs, lines') →
  In (Asked s c' l reply) evs →
  line_result pr default reply = Ok v →
  r = Ok v.
Proof.
  intros Hcall Hin Hl. revert r evs lines' Hcall Hin.
  induction lines as [|line rest IH]; intros r evs lines'.
  - rewrite PromptBase_call_nil. intros [= <- <- <-] [?|[?|[]]]; discriminate.
  - rewrite PromptBase_call_line.
    destruct (PromptBase_call c pr console label default rest)
      as [[r0 evs0] lines0].
    specialize (IH _ _ _ eq_refl).
    destruct (line_result pr default line) as [v0|e0] eqn:Hline.
    + intros [= <- <- <-] [[= _ _ _ <-]|[]]. congruence.
    + destruct e0; intros [= <- <- <-] [[= _ _ _ <-]|Hin]; try congruence;
        try done.
      destruct Hin as [?|Hin]; [discriminate|]. auto.
Qed.

(** X18.  In an interactive run, the empty line at the final confirmation
    stands for yes, like a reply that reads as yes: [init] returns the
    stage and has committed it to the pipeline file. *)
Theorem init_confirm_commits name type defaults overrides force
    st r evs st' reply :
  init name type defaults overrides true force st = (r, evs, st') →
  In (Asked Stderr Confirmation CONFIRM reply) evs →
  reply = "" ∨ Confirm_process_response reply = Ok true →
  ∃ stage,
    r = Ok stage ∧
    ∃ stages, pipeline (repo st') = Some stages ∧
              stages !! stage_name stage = Some stage.
Proof.
  intros Hrun Hin Hyes.
  apply init_inv in Hrun
    as [(_ & _ & -> & _)|(_ & rc & evs1 & st1 & Hctx & Hrun)]; [done|].
  pose proof (merged_context_respects _ _ _ _ _ _ _ _ _ Hctx)
    as (_ & Hevs & _).
  assert (¬ In (Asked Stderr Confirmation CONFIRM reply) evs1) as Hnot.
  { intros H. rewrite Forall_forall in Hevs.
    apply (session_event_not_confirmation _ _ _ _
             (Hevs _ (proj2 (list_elem_of_In _ _) H))). }
  destruct rc as [context|e]; [|by destruct Hrun as (_ & -> & _)].
  destruct Hrun as (ra & _ & Hrun).
  destruct ra as [stage|e]; [|by destruct Hrun as (_ & -> & _)].
  destruct Hrun as (rq & evsq & lines' & Hq & -> & Hrun).
  apply in_app_or in Hin as [?|[?|[?|Hin]]]; try done.
  unfold ConfirmationPrompt_ask in Hq.
  assert (line_result Confirm_process_response (Some true) reply = Ok true)
    as Hline.
  { destruct Hyes as [->|Hyes]; [done|]. apply line_result_accept; [done|].
    left. by intros ->. }
  pose proof (PromptBase_call_answer _ _ _ _ _ _ _ _ _ _ _ _ _ _
                Hq Hin Hline) as ->.
  destruct Hrun as [-> ->]. exists stage. split; [done|].
  eexists. split; [done|]. by rewrite lookup_insert_eq.
Qed.

Lemma init_confirm_commits_witness :
  ∃ stage,
    (init None "default" (Some 0) (Some 1) true false
       (example_state ["n"; "n"; "n"; "n"; ""] ∅ command_code_data)).1.1
    = Ok stage ∧
    ∃ stages,
      pipeline (repo (init None "default" (Some 0) (Some 1) true false
                        (example_state ["n"; "n"; "n"; "n"; ""] ∅
                           command_code_data)).2) = Some stages ∧
      stages !! stage_name stage = Some stage.
Proof.
  assert (In (Asked Stderr Confirmation CONFIRM "")
            (init None "default" (Some 0) (Some 1) true false
               (example_state ["n"; "n"; "n"; "n"; ""] ∅
                  command_code_data)).1.2) as Hin.
  { vm_compute. do 10 right. left. reflexivity. }
  destruct (init None "default" (Some 0) (Some 1) true false
              (example_state ["n"; "n"; "n"; "n"; ""] ∅ command_code_data))
    as [[r evs] st'] eqn:Hrun.
  exact (init_confirm_commits _ _ _ _ _ _ _ _ _ _ Hrun Hin (or_introl eq_refl)).
Defined.

(** ** Overrides and defaults *)

Lemma suppress_lookup_ne live d key :
  key ∉ secondary_keys (negb live) → suppress live d !! key = d !! key.
Proof.
  intros Hk. unfold suppress.
  destruct live; cbn in Hk; rewrite ?lookup_delete_ne; try done;
    intros <-; apply Hk; repeat constructor.
Qed.

Lemma setting_lookup live d o key :
  (o ∪ suppress live d) !! key = setting live d o key.
Proof.
  unfold setting. rewrite lookup_union.
  destruct (o !! key) as [v|] eqn:Ho.
  { by destruct (suppress live d !! key). }
  rewrite (left_id None _).
  destruct (bool_decide_reflect (key ∈ secondary_keys (negb live))).
  - by apply suppress_lookup.
  - by apply suppress_lookup_ne.
Qed.

(** The context of a run that is not interactive. *)
Lemma batch_context name type defaults overrides st r evs st' :
  valid_ref st defaults → valid_ref st overrides →
  merged_context name type defaults overrides false st = (r, evs, st') →
  ∃ o', (o' = caller_dict st overrides ∨
         (o' = suppress (String.eqb type "live") (caller_dict st defaults) ∧
          caller_dict st defaults = caller_dict st overrides ∧
          (caller_dict st defaults ≠ ∅ → ¬ distinct_refs defaults overrides))) ∧
    let context :=
      o' ∪ suppress (String.eqb type "live") (caller_dict st defaults) in
    r = if contains context "cmd" then Ok context else Raise AssertionError.
Proof.
  intros Hvd Hvo Hrun.
  apply merged_context_inv in Hrun
    as (ld & lo & st2 & Hld & Hlo & _ & _ & [h Hh] & Hcd & Hco & Hrun);
    [|done..].
  apply (merge_inv _ _ _ _ _ _ _ _ _ _ _ _ Hld Hlo) in Hrun
    as (_ & _ & _ & Hheap & o' & Ho' & Hcases & ->).
  exists o'. split; [|done].
  destruct (decide (ld = lo)) as [->|Hne].
  - rewrite Hld in Hlo. injection Hlo as Hdo.
    destruct Hcases as [-> | ->]; [by left|]. right. split_and!; [done..|].
    intros Hnonempty Hdistinct.
    destruct defaults as [l0|]; [|done].
    destruct overrides as [l1|]; [|by rewrite Hdo in Hnonempty].
    destruct (Hcd _ eq_refl) as [->|[? _]]; [|done].
    destruct (Hco _ eq_refl) as [->|[? _]]; [|by rewrite Hdo in Hnonempty].
    by apply (Hdistinct l1).
  - left. rewrite Hheap in Ho'.
    rewrite list_lookup_insert_ne in Ho' by done.
    by injection (eq_trans (eq_sym Ho') Hlo).
Qed.

Lemma batch_context_distinct name type defaults overrides st r evs st' :
  valid_ref st defaults → valid_ref st overrides →
  distinct_refs defaults overrides →
  merged_context name type defaults overrides false st = (r, evs, st') →
  let context :=
    caller_dict st overrides
    ∪ suppress (String.eqb type "live") (caller_dict st defaults) in
  r = if contains context "cmd" then Ok context else Raise AssertionError.
Proof.
  intros Hvd Hvo Hdistinct Hrun.
  apply batch_context in Hrun as (o' & [->|(-> & Hdo & Hcontra)] & Hr);
    [done| |done..].
  destruct (decide (caller_dict st defaults = ∅)) as [He|Hne].
  - rewrite <- Hdo, He, suppress_empty in *. done.
  - by destruct (Hcontra Hne).
Qed.

(** X19.  A run of [init] that is not interactive builds the stage from the
    overrides and, for what they leave open, from the defaults, in which
    the keys of the other output mode do not count: the command, the
    dependencies, the parameters file, the metrics, plots and live paths
    and the model path of the stage are those settings, empty ones left
    out. *)
Theorem init_batch_settings name type defaults overrides force
    st stage evs st' :
  valid_ref st defaults → valid_ref st overrides →
  distinct_refs defaults overrides →
  init name type defaults overrides false force st = (Ok stage, evs, st') →
  let value :=
    setting (String.eqb type "live") (caller_dict st defaults)
      (caller_dict st overrides) in
  value "cmd" = Some (stage_cmd stage) ∧
  stage_deps stage = compact_list [value "code"; value "data"] ∧
  (stage_params stage).*1 = compact_list [value "params"] ∧
  stage_metrics_no_cache stage = compact_list [value "metrics"] ∧
  stage_plots_no_cache stage = compact_list [value "plots"] ∧
  stage_live stage = value "live" ∧
  stage_outs stage ++ stage_checkpoints stage = compact_list [value "models"].
Proof.
  intros Hvd Hvo Hdistinct
    (context & evs1 & st1 & lines' & Hctx & Ha & _ & _)%init_ok_inv value.
  apply (batch_context_distinct _ _ _ _ _ _ _ _ Hvd Hvo Hdistinct) in Hctx.
  cbn zeta in Hctx. destruct (contains _ "cmd"); [|done].
  injection Hctx as ->.
  apply assemble_ok in Ha as (cmd & kv & Hcmd & Hkv & ->).
  rewrite !setting_lookup in *. fold value in Hcmd, Hkv |- *.
  cbn [stage_cmd stage_deps stage_params stage_metrics_no_cache
       stage_plots_no_cache stage_live stage_outs stage_checkpoints].
  split_and!; try done.
  - unfold compact_list. cbn [omap list_omap]. unfold opt_truthy in Hkv.
    destruct (value "params") as [p|]; cbn [keep_truthy]; [|by subst kv].
    destruct (truthy p); [|by subst kv].
    by destruct Hkv as (p' & keys & [= <-] & _ & ->).
  - destruct (opt_truthy (value "live")); [done|by rewrite app_nil_r].
Qed.

Lemma init_batch_settings_witness :
  let value :=
    setting false
      (<["live" := "dvclive"]> (<["cmd" := "python old.py"]> all_supplied))
      command_code_data in
  value "cmd" = Some "python train.py" ∧
  ["src"; "data"] = compact_list [value "code"; value "data"] ∧
  ["params.yaml"] = compact_list [value "params"] ∧
  ["metrics.json"] = compact_list [value "metrics"] ∧
  ["plots"] = compact_list [value "plots"] ∧
  None = value "live" ∧
  ["models"] ++ [] = compact_list [value "models"].
Proof.
  assert ((init None "default" (Some 0) (Some 1) false false
             (example_state []
                (<["live" := "dvclive"]>
                   (<["cmd" := "python old.py"]> all_supplied))
                command_code_data)).1.1
          = Ok (mkStage "default" "python train.py" ["src"; "data"]
                  [("params.yaml", ["lr"; "epochs"])] ["metrics.json"]
                  ["plots"] None ["models"] [])) as Hret.
  { vm_compute. reflexivity. }
  destruct (init None "default" (Some 0) (Some 1) false false
              (example_state []
                 (<["live" := "dvclive"]>
                    (<["cmd" := "python old.py"]> all_supplied))
                 command_code_data)) as [[r evs] st'] eqn:Hrun.
  cbn [fst] in Hret. subst r.
  refine (init_batch_settings None "default" (Some 0) (Some 1) false
            _ _ _ _ _ _ _ Hrun).
  - eexists. reflexivity.
  - eexists. reflexivity.
  - intros l [= <-] [=].
Defined.

Lemma suppress_lookup_cmd live d : suppress live d !! "cmd" = d !! "cmd".
Proof.
  apply suppress_lookup_ne. intros Hk. destruct live; cbn in Hk; elem_cases Hk.
Qed.

(** X20.  A run of [init] that is not interactive and passes the
    duplicate-stage check fails the assertion on the command exactly when
    neither the overrides nor the defaults hold an entry for [cmd]; an
    entry is enough, an empty command included. *)
Theorem init_batch_needs_command name type defaults overrides force
    st r evs st' :
  valid_ref st defaults → valid_ref st overrides →
  ¬ duplicate_stage st (name_or_type name type) force →
  init name type defaults overrides false force st = (r, evs, st') →
  r = Raise AssertionError
  ↔ caller_dict st defaults !! "cmd" = None ∧
    caller_dict st overrides !! "cmd" = None.
Proof.
  intros Hvd Hvo Hnd Hrun.
  apply init_inv in Hrun as [(? & _)|(_ & rc & evs1 & st1 & Hctx & Hrun)];
    [done|].
  pose proof (batch_context _ _ _ _ _ _ _ _ Hvd Hvo Hctx)
    as (o' & Ho' & Hrc). cbn zeta in Hrc.
  assert ((o' ∪ suppress (String.eqb type "live") (caller_dict st defaults))
            !! "cmd" = None
          ↔ caller_dict st defaults !! "cmd" = None ∧
            caller_dict st overrides !! "cmd" = None) as Hiff.
  { rewrite lookup_union_None, suppress_lookup_cmd.
    destruct Ho' as [->|(-> & <- & _)]; [tauto|].
    rewrite suppress_lookup_cmd. tauto. }
  rewrite <- Hiff. clear Hiff.
  unfold contains in Hrc.
  destruct (bool_decide_reflect
              (is_Some ((o' ∪ suppress (String.eqb type "live")
                                (caller_dict st defaults)) !! "cmd")))
    as [Hcmd|Hcmd]; subst rc.
  - destruct Hrun as (ra & Ha & Hrun). split.
    + intros ->. destruct ra as [stage|e]; [by destruct Hrun|].
      destruct Hrun as ([= <-] & _).
      apply (assemble_raises_cmd _ _ _ _ _ _ _ Hcmd) in Ha
        as [(? & [?|?])|(? & [?|[?|[?|?]]])]; discriminate.
    + intros Hnone. rewrite Hnone in Hcmd. by destruct Hcmd.
  - destruct Hrun as (-> & _). split; [|done].
    intros _. by apply eq_None_not_Some.
Qed.

Lemma init_batch_needs_command_witness :
  (init None "default" (Some 0) None false false
     (example_state [] (delete "cmd" all_supplied) ∅)).1.1
  = Raise AssertionError
  ↔ delete "cmd" all_supplied !! "cmd" = None ∧
    (∅ : gmap string string) !! "cmd" = None.
Proof.
  destruct (init None "default" (Some 0) None false false
              (example_state [] (delete "cmd" all_supplied) ∅))
    as [[r evs] st'] eqn:Hrun.
  refine (init_batch_needs_command None "default" (Some 0) None false
            _ _ _ _ _ _ _ Hrun).
  - eexists. reflexivity.
  - exact I.
  - intros (_ & stages & [=] & _).
Defined.

(** ** An interactive run without a command *)

(** X21.  When the overrides hold every primary key and every secondary key
    of the output mode but no command (or an empty one), an interactive
    run asks nothing, not even for the command: it prints nothing, reads no
    input and fails the assertion on the command, whatever the defaults
    hold. *)
Theorem init_interactive_without_command name type defaults force
    st lo o r evs st' :
  valid_ref st defaults →
  heap st !! lo = Some o →
  ¬ duplicate_stage st (name_or_type name type) force →
  opt_truthy (o !! "cmd") = false →
  (∀ key, key ∈ primary_keys ++ secondary_keys (String.eqb type "live") →
          is_Some (o !! key)) →
  init name type defaults (Some lo) true force st = (r, evs, st') →
  r = Raise AssertionError ∧ evs = [] ∧ stdin st' = stdin st ∧
  repo st' = repo st.
Proof.
  intros Hvd Hlo Hnd Hcmd Hkeys Hrun.
  assert (valid_ref st (Some lo)) as Hvo by by eexists.
  apply init_inv in Hrun as [(? & _)|(_ & rc & evs1 & st1 & Hctx & Hrun)];
    [done|].
  apply merged_context_inv in Hctx
    as (ld & lo' & st2 & Hld & Hlo' & Hin & Hrepo & _ & _ & _ & Hctx);
    [|done..].
  apply (merge_inv _ _ _ _ _ _ _ _ _ _ _ _ Hld Hlo') in Hctx
    as (Hrepo' & dd & rs & lines' & Hs & Hin' & Hrs).
  cbn [caller_dict] in Hs, Hrs. rewrite Hlo in Hs, Hrs.
  change (default ∅ (Some o)) with o in Hs, Hrs.
  assert (∀ key, key ∈ primary_keys ++ secondary_keys (String.eqb type "live") →
                 contains (delete "cmd" o) key = true) as Hall.
  { intros key Hkey. apply bool_decide_eq_true.
    rewrite lookup_delete_ne; [by apply Hkeys|].
    symmetry. by eapply session_key_not_cmd. }
  unfold session in Hs.
  rewrite !lremove_all, Hcmd in Hs;
    [|intros key Hkey; apply Hall, elem_of_app; by right
     |intros key Hkey; apply Hall, elem_of_app; by left].
  injection Hs as <- <- <-. destruct Hrs as [_ ->].
  assert (contains (delete "cmd" o ∪ ∅) "cmd" = false) as Hc.
  { apply bool_decide_eq_false. rewrite (right_id ∅ _), lookup_delete_eq.
    by intros [? ?]. }
  rewrite Hc in Hrun. destruct Hrun as (-> & -> & ->).
  split_and!; try done; congruence.
Qed.

Lemma init_interactive_without_command_witness :
  (init None "default" (Some 0) (Some 1) true false
     (example_state ["python train.py"] all_supplied
        (delete "cmd" all_supplied))).1.1 = Raise AssertionError ∧
  (init None "default" (Some 0) (Some 1) true false
     (example_state ["python train.py"] all_supplied
        (delete "cmd" all_supplied))).1.2 = [] ∧
  stdin (init None "default" (Some 0) (Some 1) true false
           (example_state ["python train.py"] all_supplied
              (delete "cmd" all_supplied))).2 = ["python train.py"] ∧
  repo (init None "default" (Some 0) (Some 1) true false
          (example_state ["python train.py"] all_supplied
             (delete "cmd" all_supplied))).2 = example_repo.
Proof.
  destruct (init None "default" (Some 0) (Some 1) true false
              (example_state ["python train.py"] all_supplied
                 (delete "cmd" all_supplied))) as [[r evs] st'] eqn:Hrun.
  refine (init_interactive_without_command None "default" (Some 0) false
            _ 1 (delete "cmd" all_supplied) r evs st' _ _ _ _ _ Hrun).
  - eexists. reflexivity.
  - reflexivity.
  - intros (_ & stages & [=] & _).
  - vm_compute. reflexivity.
  - intros key Hkey. cbn in Hkey. elem_cases Hkey; eexists; vm_compute;
      reflexivity.
Defined.

(** ** [_disable_logging] *)

(** X22.  [_disable_logging] runs its body at the level given and puts the
    level back that was set before, also when the body raises or has set a
    level of its own; what the body returns, raises and prints comes
    through, and so does every other change it makes to the state. *)
Theorem disable_logging_restores {A} level (body : M State A) st r evs st' :
  _disable_logging level body st = (r, evs, st') →
  ∃ st1,
    body (with_logging level st) = (r, evs, st1) ∧
    st' = with_logging (logging_disable (repo st)) st1 ∧
    logging_disable (repo st') = logging_disable (repo st).
Proof.
  unfold _disable_logging. rewrite bind_get.
  unfold logging_disable_set at 1, update_repo. rewrite bind_modify.
  change (with_repo _ st) with (with_logging level st).
  unfold try_finally.
  destruct (body (with_logging level st)) as [[r1 evs1] st1].
  cbn. rewrite app_nil_r. intros [= <- <- <-]. by exists st1.
Qed.

Lemma disable_logging_restores_witness :
  ∃ st1,
    (run logging_disable_set 10 in raise EOFError)
      (with_logging CRITICAL (example_state [] ∅ ∅))
    = (Raise EOFError : result unit, [], st1) ∧
    with_logging 0 (with_logging 10 (example_state [] ∅ ∅))
    = with_logging (logging_disable (repo (example_state [] ∅ ∅))) st1 ∧
    logging_disable
      (repo (with_logging 0 (with_logging 10 (example_state [] ∅ ∅))))
    = logging_disable (repo (example_state [] ∅ ∅)).
Proof.
  apply (disable_logging_restores CRITICAL
           (run logging_disable_set 10 in raise EOFError)
           (example_state [] ∅ ∅) (Raise EOFError) []).
  reflexivity.
Defined.

(** ** The preview of the workspace *)

Lemma lookup_if_delete {V} (b : bool) (k key : string) (m : gmap string V) :
  (if b then delete k m else m) !! key
  = if b && bool_decide (key = k) then None else m !! key.
Proof.
  destruct b; cbn [andb]; [|done].
  destruct (bool_decide_reflect (key = k)) as [->|Hne].
  - apply lookup_delete_eq.
  - by apply lookup_delete_ne.
Qed.

(** The workspace of the tree: what was provided and, for the rest, the
    defaults without those of the other output mode. *)
Lemma preview_workspace_eq live defaults provided :
  preview_workspace live defaults provided
  = provided ∪ suppress live defaults.
Proof.
  apply map_eq. intros key. rewrite setting_lookup. unfold setting.
  unfold preview_workspace, contains. cbn [foldl].
  rewrite !lookup_if_delete, lookup_union.
  assert (∀ k : string,
            (if negb (bool_decide (is_Some (provided !! k))) then None
             else provided !! k ∪ defaults !! k)
            = match provided !! k with
              | Some value => Some value
              | None => None
              end) as Hsame.
  { intros k. destruct (provided !! k) eqn:Hp.
    - rewrite bool_decide_eq_true_2 by by eexists.
      by destruct (defaults !! k).
    - by rewrite bool_decide_eq_false_2 by by intros [? ?]. }
  assert (provided !! key ∪ defaults !! key
          = match provided !! key with
            | Some value => Some value
            | None => defaults !! key
            end) as Hunion.
  { destruct (provided !! key); [by destruct (defaults !! key)|].
    by rewrite (left_id None _). }
  destruct live; cbn [negb andb secondary_keys].
  - destruct (bool_decide_reflect (key = "metrics")) as [->|Hm].
    { rewrite andb_true_r.
      change (bool_decide ("metrics" = "plots")) with false.
      rewrite andb_false_r, Hsame.
      by rewrite bool_decide_eq_true_2 by repeat constructor. }
    rewrite andb_false_r.
    destruct (bool_decide_reflect (key = "plots")) as [->|Hp].
    { rewrite andb_true_r, Hsame.
      by rewrite bool_decide_eq_true_2 by repeat constructor. }
    rewrite andb_false_r, Hunion.
    by rewrite bool_decide_eq_false_2 by (intros Hk; elem_cases Hk).
  - destruct (bool_decide_reflect (key = "live")) as [->|Hl].
    { rewrite andb_true_r, Hsame.
      by rewrite bool_decide_eq_true_2 by repeat constructor. }
    rewrite andb_false_r, Hunion.
    by rewrite bool_decide_eq_false_2 by (intros Hk; elem_cases Hk).
Qed.

Lemma shown_events_tree defaults provided live :
  provided ∪ defaults ≠ ∅ →
  In (Wrote Stderr
        [Tree "DVC assumes the following workspace structure:"
           (map (λ value, "[green]" +:+ value +:+ "[/green]")
                (sorted_values (provided ∪ suppress live defaults)))])
     (shown_events defaults provided true live).
Proof.
  intros Hne. unfold shown_events, dict_truthy.
  rewrite bool_decide_eq_false_2 by done. cbn [negb andb].
  rewrite preview_workspace_eq. right. by left.
Qed.

Lemma _prompt_cmd_stderr default lines r evs lines' :
  _prompt "cmd" None default lines = (r, evs, lines') →
  Forall (λ e, event_stream e = Stderr) evs.
Proof.
  intros Hrun.
  apply (_prompt_respects "cmd" None default
           (λ e, event_stream e = Stderr) (λ _, True)) in Hrun
    as (_ & H & _); try done.
  - intros label [s objs|s c l reply|s c l] _; cbn.
    + by intros [-> | ->].
    + by intros (-> & _).
    + by intros (-> & _).
  - intros value printed r0 Hval. injection Hval as <- _.
    split; [constructor|done].
Qed.

(** X23.  A session that prints the heading of its questions shows, when
    the overrides without the command and the defaults are not both empty,
    the tree of the workspace it assumes: the values, in order, of the
    overrides without the command and, for the rest, of the defaults
    without those of the other output mode.  The command in that tree is
    the one of the defaults, the one of the overrides being taken out
    before. *)
Theorem session_preview name defaults provided validator live
    st d dd r evs st' :
  heap st !! provided = Some d →
  heap st !! defaults = Some dd →
  defaults ≠ provided →
  init_interactive name defaults provided validator true live st
  = (r, evs, st') →
  In (Wrote Stdout [Text HEADING]) evs →
  delete "cmd" d ∪ dd ≠ ∅ →
  In (Wrote Stderr
        [Tree "DVC assumes the following workspace structure:"
           (map (λ value, "[green]" +:+ value +:+ "[/green]")
                (sorted_values (delete "cmd" d ∪ suppress live dd)))])
     evs ∧
  (delete "cmd" d ∪ suppress live dd) !! "cmd" = dd !! "cmd".
Proof.
  intros Hp Hd Hne Hrun Hhead Hws. split.
  2:{ rewrite lookup_union, lookup_delete_eq, (left_id None _).
      apply suppress_lookup_cmd. }
  apply init_interactive_inv in Hrun
    as [(_ & -> & _)|(d' & dd' & lines' & Hp' & Hd' & Hrun & _)]; [done|].
  rewrite Hp in Hp'. injection Hp' as <-.
  rewrite list_lookup_insert_ne in Hd' by done.
  pose proof (eq_trans (eq_sym Hd') Hd) as [= ->].
  pose proof (shown_events_tree dd (delete "cmd" d) live Hws) as Htree.
  apply session_inv in Hrun
    as [(_ & -> & _)|(r0 & evs0 & lines0 & Hc & Hrun)]; [done|].
  cbn zeta in Hrun.
  assert (∀ ret0, r0 = Ok ret0 →
            In (Wrote Stderr
                  [Tree "DVC assumes the following workspace structure:"
                     (map (λ value, "[green]" +:+ value +:+ "[/green]")
                          (sorted_values
                             (delete "cmd" d ∪ suppress live dd)))])
               evs) as Hok.
  { intros ret0 ->. destruct Hrun as (r1 & evs1 & lines1 & _ & Hrun).
    destruct r1 as [answers1|e].
    - destruct Hrun as (r2 & evs2 & _ & -> & _).
      right. apply in_or_app. right. apply in_or_app. by left.
    - destruct Hrun as (_ & -> & _).
      right. apply in_or_app. right. apply in_or_app. by left. }
  apply ask_command_inv in Hc as [(_ & -> & _)|(_ & rc & evsc & Hpc & Hc)];
    [by eapply Hok|].
  destruct rc as [value|e]; [destruct Hc as [-> _]; by eapply Hok|].
  destruct Hc as [-> ->]. destruct Hrun as (_ & -> & _). exfalso.
  destruct Hhead as [?|Hhead]; [done|].
  apply _prompt_cmd_stderr in Hpc. rewrite Forall_forall in Hpc.
  by specialize (Hpc _ (proj2 (list_elem_of_In _ _) Hhead)).
Qed.

Lemma session_preview_witness :
  In (Wrote Stderr
        [Tree "DVC assumes the following workspace structure:"
           (map (λ value, "[green]" +:+ value +:+ "[/green]")
                (sorted_values
                   (delete "cmd" (<["cmd" := "python new.py"]> command_code_data)
                    ∪ suppress true all_supplied)))])
     (init_interactive "live" 0 1 None true true
        (example_state ["n"; "n"; "n"] all_supplied
           (<["cmd" := "python new.py"]> command_code_data))).1.2 ∧
  (delete "cmd" (<["cmd" := "python new.py"]> command_code_data)
   ∪ suppress true all_supplied) !! "cmd"
  = all_supplied !! "cmd" ∧
  sorted_values
    (delete "cmd" (<["cmd" := "python new.py"]> command_code_data)
     ∪ suppress true all_supplied)
  = ["data"; "models"; "params.yaml"; "python train.py"; "src"].
Proof.
  assert (In (Wrote Stdout [Text HEADING])
            (init_interactive "live" 0 1 None true true
               (example_state ["n"; "n"; "n"] all_supplied
                  (<["cmd" := "python new.py"]> command_code_data))).1.2)
    as Hhead.
  { vm_compute. right. left. reflexivity. }
  assert (delete "cmd" (<["cmd" := "python new.py"]> command_code_data)
          ∪ all_supplied ≠ ∅) as Hws.
  { intros H. apply (f_equal (λ m : gmap string string, m !! "code")) in H.
    vm_compute in H. discriminate H. }
  destruct (init_interactive "live" 0 1 None true true
              (example_state ["n"; "n"; "n"] all_supplied
                 (<["cmd" := "python new.py"]> command_code_data)))
    as [[r evs] st'] eqn:Hrun.
  cbn [fst snd] in *.
  destruct (session_preview "live" 0 1 None true
              (example_state ["n"; "n"; "n"] all_supplied
                 (<["cmd" := "python new.py"]> command_code_data))
              (<["cmd" := "python new.py"]> command_code_data) all_supplied
              r evs st' eq_refl eq_refl (O_S 0) Hrun Hhead Hws)
    as [Htree Hcmd].
  split; [exact Htree|]. split; [exact Hcmd|].
  vm_compute. reflexivity.
Defined.

(** ** The text of the prompts *)

Lemma string_app_nil_r (s : string) : s +:+ "" = s.
Proof.
  induction s as [|a s IH]; [done|].
  change (String a s +:+ "") with (String a (s +:+ "")). by rewrite IH.
Qed.

Lemma string_app_assoc (s1 s2 s3 : string) :
  (s1 +:+ s2) +:+ s3 = s1 +:+ (s2 +:+ s3).
Proof.
  induction s1 as [|a s1 IH]; [done|].
  change (String a (s1 +:+ s2) +:+ s3 = String a (s1 +:+ s2 +:+ s3)).
  change (String a ((s1 +:+ s2) +:+ s3) = String a (s1 +:+ s2 +:+ s3)).
  by rewrite IH.
Qed.

Lemma plain_pieces_app l1 l2 e :
  plain (mkRichText (l1 ++ l2) e)
  = plain (mkRichText l1 e) +:+ plain (mkRichText l2 e).
Proof.
  unfold plain. cbn [pieces]. rewrite fmap_app.
  induction (l1.*1) as [|a l IH]; [done|].
  cbn [app foldr]. by rewrite IH, string_app_assoc.
Qed.

Lemma plain_text_append t s style :
  plain (text_append t s style) = plain t +:+ s.
Proof.
  unfold text_append, truthy. destruct (String.eqb_spec s "") as [->|Hne].
  - by rewrite string_app_nil_r.
  - cbn [negb]. rewrite plain_pieces_app. destruct t as [l e].
    cbn [pieces text_end]. f_equal. unfold plain. cbn.
    apply string_app_nil_r.
Qed.

Lemma plain_set_end t e : plain (set_end t e) = plain t.
Proof. done. Qed.

Lemma plain_text_append_text t other :
  plain (text_append_text t other) = plain t +:+ plain other.
Proof.
  unfold text_append_text. rewrite plain_pieces_app.
  by destruct t, other.
Qed.

Lemma plain_rich_text text style : plain (rich_text text style) = text.
Proof.
  unfold rich_text, truthy. destruct (String.eqb_spec text "") as [->|Hne];
    [done|]. unfold plain. cbn. apply string_app_nil_r.
Qed.

Lemma text_end_append t s style :
  text_end (text_append t s style) = text_end t.
Proof. unfold text_append. by destruct (truthy s). Qed.

(** X24.  The text of a skippable prompt is the prompt followed, between
    brackets, by the default, when there is one to show, and by the hint
    "n to omit", and then by the suffix of the prompt; nothing is printed
    after it.  The response the hint names is the one that skips the
    key. *)
Theorem skippable_prompt_text prompt show_default prompt_suffix default :
  let shown :=
    SkippablePrompt_make_prompt prompt show_default prompt_suffix default in
  plain shown
  = plain prompt +:+ " ["
    +:+ match default with
        | Some d => if show_default then d +:+ ", " else ""
        | None => ""
        end
    +:+ skip_value +:+ " to omit]" +:+ prompt_suffix ∧
  text_end shown = "" ∧
  SkippablePrompt_process_response skip_value = Ok None.
Proof.
  cbn zeta. unfold SkippablePrompt_make_prompt, render_default.
  split_and!; [| |done].
  - destruct default as [d|]; [destruct show_default|];
      repeat rewrite ?plain_text_append, ?plain_text_append_text,
        ?plain_set_end, ?plain_rich_text, ?string_app_assoc;
      reflexivity.
  - destruct default as [d|]; [destruct show_default|];
      by rewrite !text_end_append.
Qed.

Lemma styled_text_append style t s style' :
  styled style (text_append t s style')
  = styled style t
    ++ (if truthy s && bool_decide (style' = Some style) then [s] else []).
Proof.
  unfold text_append, styled. destruct (truthy s); cbn [andb pieces].
  - rewrite omap_app. cbn. by destruct (bool_decide _).
  - by rewrite app_nil_r.
Qed.

(** The loop of [ConfirmationPrompt.make_prompt] over the two choices,
    written out. *)
Lemma ConfirmationPrompt_make_prompt_eq prompt default :
  ConfirmationPrompt_make_prompt prompt CONFIRM_CHOICES default
  = text_append
      (text_append
         (text_append
            (text_append (text_append (set_end prompt "") " [" None)
               (if bool_decide (default = Some true) then "Y" else "y")
               (if bool_decide (default = Some true) then Some "green"
                else None))
            "/" None)
         (if bool_decide (default = Some false) then "N" else "n")
         (if bool_decide (default = Some false) then Some "green" else None))
      "] " None.
Proof. by destruct default as [[|]|]. Qed.

(** X25.  The text of the confirmation is the prompt followed by the two
    choices between brackets, with nothing printed after it; the choice
    that stands for the default is the one in upper case and green, so
    that typing what is highlighted gives the answer the empty line
    gives. *)
Theorem confirmation_prompt_text prompt default :
  let shown := ConfirmationPrompt_make_prompt prompt CONFIRM_CHOICES default in
  plain shown
  = plain prompt
    +:+ match default with
        | Some true => " [Y/n] "
        | Some false => " [y/N] "
        | None => " [y/n] "
        end ∧
  text_end shown = "" ∧
  ∀ d, default = Some d →
       ∃ choice,
         styled "green" shown = styled "green" prompt ++ [choice] ∧
         Confirm_process_response choice = Ok d ∧
         line_result Confirm_process_response default "" = Ok d.
Proof.
  cbn zeta. rewrite ConfirmationPrompt_make_prompt_eq. split_and!.
  - rewrite !plain_text_append, plain_set_end, !string_app_assoc.
    by destruct default as [[|]|].
  - by rewrite !text_end_append.
  - intros d ->. rewrite !styled_text_append.
    change (styled "green" (set_end prompt "")) with (styled "green" prompt).
    destruct d.
    + exists "Y". by rewrite <- !app_assoc.
    + exists "N". by rewrite <- !app_assoc.
Qed.

(** ** The mapping [init] leaves alone *)

(** The caller's dictionary at [l] after [init] has updated, by [f], the
    dictionary it works on at [l'], which is not the caller's unless both
    are empty. *)
Lemma caller_lookup_kept (h0 h t : list (gmap string string)) l l' m m'
    (f : gmap string string → gmap string string) :
  h0 !! l = Some m →
  (h0 ++ h) !! l' = Some m' →
  (l' = l → m = ∅) →
  f ∅ = ∅ →
  (<[l' := f m']> (h0 ++ h) ++ t) !! l = Some m.
Proof.
  intros Hm Hm' Hsame Hf.
  assert (l < length h0) as Hlt by by eapply lookup_lt_Some.
  rewrite lookup_app_l by (rewrite length_insert, length_app; lia).
  destruct (decide (l' = l)) as [->|Hne].
  - rewrite lookup_app_l in Hm' by done.
    assert (m' = m) as -> by congruence.
    rewrite list_lookup_insert_eq by (rewrite length_app; lia).
    by rewrite (Hsame eq_refl), Hf.
  - rewrite list_lookup_insert_ne by done. by rewrite lookup_app_l.
Qed.

(** X26.  [init] updates one of the two dictionaries of the caller and
    leaves the other as it is: an interactive run does not touch the
    defaults, and a run that is not interactive does not touch the
    overrides. *)
Theorem init_keeps_other_mapping name type defaults overrides interactive
    force st r evs st' :
  valid_ref st defaults → valid_ref st overrides →
  distinct_refs defaults overrides →
  init name type defaults overrides interactive force st = (r, evs, st') →
  (interactive = true →
   ∀ ld, defaults = Some ld → heap st' !! ld = heap st !! ld) ∧
  (interactive = false →
   ∀ lo, overrides = Some lo → heap st' !! lo = heap st !! lo).
Proof.
  intros Hvd Hvo Hdistinct Hrun.
  apply init_inv in Hrun
    as [(_ & _ & _ & ->)|(_ & rc & evs1 & st1 & Hctx & Hrun)]; [done|].
  assert (heap st' = heap st1) as ->.
  { destruct rc as [context|e]; [|by destruct Hrun as (_ & _ & ->)].
    destruct Hrun as (ra & _ & Hrun).
    destruct ra as [stage|e]; [|by destruct Hrun as (_ & _ & ->)].
    destruct interactive.
    - destruct Hrun as (rq & evsq & lines' & _ & _ & Hrun).
      by destruct rq as [[|]|e]; destruct Hrun as [_ ->].
    - by destruct Hrun as (_ & _ & ->). }
  clear Hrun.
  apply merged_context_inv in Hctx
    as (ld' & lo' & st2 & Hld & Hlo & _ & _ & [h Hh] & Hcd & Hco & Hrun);
    [|done..].
  apply (merge_inv _ _ _ _ _ _ _ _ _ _ _ _ Hld Hlo) in Hrun as [_ Hrun].
  rewrite Hh in Hld, Hlo.
  split; intros -> l0 ->; cbn [valid_ref] in *.
  - destruct Hvd as [d Hd]. rewrite Hd.
    assert (lo' = l0 → d = ∅) as Hsame.
    { intros Heq. subst lo'. cbn [caller_dict] in Hld. rewrite Hd in Hld.
      cbn [default] in Hld.
      destruct (Hcd _ eq_refl) as [->|[Hempty _]].
      2:{ cbn [caller_dict] in Hempty. by rewrite Hd in Hempty. }
      assert (caller_dict st overrides = d) as Ho.
      { pose proof (eq_trans (eq_sym Hlo) Hld) as [= ?]. done. }
      destruct overrides as [l1|]; [|done].
      destruct (Hco _ eq_refl) as [->|[Hempty _]]; [|congruence].
      by destruct (Hdistinct _ eq_refl). }
    destruct Hrun as (dd & rs & lines' & _ & _ & Hrun).
    destruct rs as [answers|e]; destruct Hrun as [-> _]; rewrite Hh.
    + by apply (caller_lookup_kept _ _ _ _ _ _ _ (delete "cmd"));
        [..|apply delete_empty].
    + rewrite <- (app_nil_r (<[lo':=_]> _)).
      by apply (caller_lookup_kept _ _ _ _ _ _ _ (delete "cmd"));
        [..|apply delete_empty].
  - destruct Hvo as [o Ho]. rewrite Ho.
    assert (ld' = l0 → o = ∅) as Hsame.
    { intros Heq. subst ld'. cbn [caller_dict] in Hlo. rewrite Ho in Hlo.
      cbn [default] in Hlo.
      destruct (Hco _ eq_refl) as [->|[Hempty _]].
      2:{ cbn [caller_dict] in Hempty. by rewrite Ho in Hempty. }
      assert (caller_dict st defaults = o) as Hd.
      { pose proof (eq_trans (eq_sym Hld) Hlo) as [= ?]. done. }
      destruct defaults as [l1|]; [|done].
      destruct (Hcd _ eq_refl) as [->|[Hempty _]]; [|congruence].
      by destruct (Hdistinct _ eq_refl). }
    destruct Hrun as (_ & _ & -> & _). rewrite Hh.
    rewrite <- (app_nil_r (<[ld':=_]> _)).
    by apply (caller_lookup_kept _ _ _ _ _ _ _
                (suppress (String.eqb type "live")));
      [..|apply suppress_empty].
Qed.

Lemma init_keeps_other_mapping_witness :
  (true = true →
   ∀ ld, Some 0 = Some ld →
         heap (init None "default" (Some 0) (Some 1) true false
                 (example_state ["models"] all_supplied command_code_data)).2
           !! ld
         = heap (example_state ["models"] all_supplied command_code_data)
             !! ld) ∧
  (true = false →
   ∀ lo, Some 1 = Some lo →
         heap (init None "default" (Some 0) (Some 1) true false
                 (example_state ["models"] all_supplied command_code_data)).2
           !! lo
         = heap (example_state ["models"] all_supplied command_code_data)
             !! lo).
Proof.
  destruct (init None "default" (Some 0) (Some 1) true false
              (example_state ["models"] all_supplied command_code_data))
    as [[r evs] st'] eqn:Hrun.
  refine (init_keeps_other_mapping None "default" (Some 0) (Some 1) true false
            _ _ _ _ _ _ _ Hrun).
  - eexists. reflexivity.
  - eexists. reflexivity.
  - intros l [= <-] [=].
Defined.
